(** * The ClusterDeployment controller of hive, embedded in Rocq

    Source: pkg/controller/clusterdeployment/clusterdeployment_controller.go.

    The controller is a reconcile loop against the Kubernetes API: every
    cycle reads objects through [client.Client], decides, and issues at
    most a few writes.  The embedding keeps this shape.  A cycle is a
    program in a small free monad over the client's calls ([Prog]); running
    it against any handler of these calls yields the cycle's result, the
    handler's final state and the list of calls made with their answers
    ([run]).  Theorems quantify over every handler, so they hold for a
    store that fails, answers late or changes between two calls; an
    in-memory store ([Store]) serves for the properties that span several
    cycles and for the examples. *)

From stdpp Require Import base strings list gmap fin_maps sorting.
From Stdlib Require Import ZArith Lia Ascii.

Local Set Warnings "-register-all,-clear-no-such-hyp".
Local Open Scope Z_scope.

(** ** Time (Go's [time] package, as far as the controller uses it) *)

(** [time.Duration] is an int64 count of nanoseconds. *)
Definition Duration := Z.
Definition minDuration : Duration := - 2 ^ 63.
Definition maxDuration : Duration := 2 ^ 63 - 1.
Definition Second : Duration := 1000000000.

(** Two's complement wrap-around of int64 arithmetic. *)
Definition wrap64 (z : Z) : Z := (z + 2 ^ 63) mod 2 ^ 64 - 2 ^ 63.

(** [d1 + d2] on [time.Duration]. *)
Definition Duration_add (d1 d2 : Duration) : Duration := wrap64 (d1 + d2).

(** A [time.Time] instant, in nanoseconds since Go's zero time
    (January 1, year 1, 00:00:00 UTC); the zero value is [0]. *)
Definition Time := Z.

Definition Time_IsZero (t : Time) : bool := t =? 0.
Definition Time_Add (t : Time) (d : Duration) : Time := t + d.
(** [t.After(u)] *)
Definition Time_After (t u : Time) : bool := u <? t.
(** [t.Sub(u)]: the difference, clamped to the range of [Duration]. *)
Definition Time_Sub (t u : Time) : Duration :=
  if t - u <? minDuration then minDuration
  else if maxDuration <? t - u then maxDuration
  else t - u.

(** ** Errors *)

Inductive StatusReason :=
| StatusReasonNotFound
| StatusReasonAlreadyExists
| StatusReasonConflict
| StatusReasonUnknown.

(** A Go [error] value: an API status error, or a message made by
    [fmt.Errorf] and the like. *)
Inductive error :=
| StatusError (reason : StatusReason)
| Errorf (msg : string).

(** [errors.IsNotFound] *)
Definition IsNotFound (err : error) : bool :=
  match err with
  | StatusError StatusReasonNotFound => true
  | _ => false
  end.

Definition Error (err : error) : string :=
  match err with
  | StatusError StatusReasonNotFound => "not found"
  | StatusError StatusReasonAlreadyExists => "already exists"
  | StatusError StatusReasonConflict => "conflict"
  | StatusError StatusReasonUnknown => "unknown"
  | Errorf msg => msg
  end.

(** A Go pair (value, error). *)
Inductive result (A : Type) :=
| Ok (a : A)
| Err (err : error).
Arguments Ok {A} a.
Arguments Err {A} err.

(** ** Objects of the API *)

(** [types.NamespacedName], as the pair (namespace, name). *)
Abbreviation NamespacedName := (string * string)%type.

Record OwnerReference := {
  ownerKind : string;
  ownerName : string;
  ownerController : bool
}.

Record ObjectMeta := {
  Name : string;
  Namespace : string;
  Annotations : gmap string string;
  Finalizers : list string;
  OwnerReferences : list OwnerReference;
  CreationTimestamp : Time;
  DeletionTimestamp : option Time
}.

Definition objectKey (m : ObjectMeta) : NamespacedName := (Namespace m, Name m).

Definition emptyMeta : ObjectMeta :=
  {| Name := ""; Namespace := ""; Annotations := ∅; Finalizers := [];
     OwnerReferences := []; CreationTimestamp := 0; DeletionTimestamp := None |}.

Definition namedMeta (name namespace : string) : ObjectMeta :=
  {| Name := name; Namespace := namespace; Annotations := ∅; Finalizers := [];
     OwnerReferences := []; CreationTimestamp := 0; DeletionTimestamp := None |}.

Definition SetFinalizers (m : ObjectMeta) (fs : list string) : ObjectMeta :=
  {| Name := Name m; Namespace := Namespace m; Annotations := Annotations m;
     Finalizers := fs; OwnerReferences := OwnerReferences m;
     CreationTimestamp := CreationTimestamp m;
     DeletionTimestamp := DeletionTimestamp m |}.

(** The part of [hivev1.ClusterDeploymentStatus] the controller reads and
    writes. *)
Record ClusterDeploymentStatus := {
  Installed : bool;
  ClusterUUID : string
}.

Record ClusterDeployment := {
  cdMeta : ObjectMeta;
  Status : ClusterDeploymentStatus
}.

Definition withStatus (cd : ClusterDeployment) (st : ClusterDeploymentStatus) :=
  {| cdMeta := cdMeta cd; Status := st |}.
(** [kbatch.JobCondition]: both fields are string types in the API. *)
Record JobCondition := {
  condType : string;
  condStatus : string
}.

Record Job := {
  jobMeta : ObjectMeta;
  Conditions : list JobCondition
}.

(** The zero value [kbatch.Job{}]. *)
Definition emptyJob : Job := {| jobMeta := emptyMeta; Conditions := [] |}.

Record ConfigMap := {
  cmMeta : ObjectMeta;
  Data : gmap string string
}.

Record ServiceAccount := { saMeta : ObjectMeta }.

Record PolicyRule := {
  APIGroups : list string;
  Resources : list string;
  Verbs : list string
}.

Record Role := {
  roleMeta : ObjectMeta;
  Rules : list PolicyRule
}.

Record Subject := {
  subjectKind : string;
  subjectName : string;
  subjectNamespace : string
}.

Record RoleRef := {
  roleRefName : string;
  roleRefKind : string
}.

Record RoleBinding := {
  rbMeta : ObjectMeta;
  Subjects : list Subject;
  roleRef : RoleRef
}.

(** What [json.Unmarshal] puts behind an [interface{}]. *)
Inductive JSON :=
| JNull
| JBool (b : bool)
| JNumber (repr : string)
| JString (s : string)
| JArray (l : list JSON)
| JObject (m : gmap string JSON).

#[global] Instance StatusReason_eq_dec : EqDecision StatusReason.
Proof. solve_decision. Defined.
#[global] Instance error_eq_dec : EqDecision error.
Proof. solve_decision. Defined.
#[global] Instance OwnerReference_eq_dec : EqDecision OwnerReference.
Proof. solve_decision. Defined.
#[global] Instance ObjectMeta_eq_dec : EqDecision ObjectMeta.
Proof. solve_decision. Defined.
#[global] Instance ClusterDeploymentStatus_eq_dec : EqDecision ClusterDeploymentStatus.
Proof. solve_decision. Defined.
#[global] Instance ClusterDeployment_eq_dec : EqDecision ClusterDeployment.
Proof. solve_decision. Defined.
#[global] Instance JobCondition_eq_dec : EqDecision JobCondition.
Proof. solve_decision. Defined.
#[global] Instance Job_eq_dec : EqDecision Job.
Proof. solve_decision. Defined.

(** ** Constants *)

Definition installerImage : string :=
  "registry.svc.ci.openshift.org/openshift/origin-v4.0:installer".
Definition uninstallerImage : string :=
  "registry.svc.ci.openshift.org/openshift/origin-v4.0:installer".
Definition hiveImage : string := "hive-controller:latest".
Definition serviceAccountName : string := "cluster-installer".
Definition roleName : string := "cluster-installer".
Definition roleBindingName : string := "cluster-installer".
Definition deleteAfterAnnotation : string := "hive.openshift.io/delete-after".

(** Modelled from the spec: the token of the deprovision deletion guard,
    [hivev1.FinalizerDeprovision], is declared in the API package
    pkg/apis/hive/v1alpha1. *)
Definition FinalizerDeprovision : string := "hive.openshift.io/deprovision".

(** Modelled from the spec: the condition types "Complete" and "Failed"
    ([kbatch.JobComplete], [kbatch.JobFailed]) and the condition values
    ([kapi.ConditionTrue], [kapi.ConditionFalse]) are declared in k8s.io/api. *)
Definition JobComplete : string := "Complete".
Definition JobFailed : string := "Failed".
Definition ConditionTrue : string := "True".
Definition ConditionFalse : string := "False".
Definition PullAlways : string := "Always".
Definition PullIfNotPresent : string := "IfNotPresent".

(** ** Job conditions and finalizers: the pure helpers *)

(** [getJobConditionStatus]: the status of the first condition of the given
    type, False when there is none. *)
Fixpoint conditionStatusIn (conds : list JobCondition) (conditionType : string) : string :=
  match conds with
  | [] => ConditionFalse
  | condition :: rest =>
      if String.eqb (condType condition) conditionType then condStatus condition
      else conditionStatusIn rest conditionType
  end.

Definition getJobConditionStatus (job : Job) (conditionType : string) : string :=
  conditionStatusIn (Conditions job) conditionType.

Definition isSuccessful (job : Job) : bool :=
  String.eqb (getJobConditionStatus job JobComplete) ConditionTrue.

Definition isFailed (job : Job) : bool :=
  String.eqb (getJobConditionStatus job JobFailed) ConditionTrue.

(** [HasFinalizer]: the loop over [object.GetFinalizers()]. *)
Fixpoint hasFinalizerIn (fs : list string) (finalizer : string) : bool :=
  match fs with
  | [] => false
  | f :: rest => if String.eqb f finalizer then true else hasFinalizerIn rest finalizer
  end.

Definition HasFinalizer (object : ObjectMeta) (finalizer : string) : bool :=
  hasFinalizerIn (Finalizers object) finalizer.

(** [sets.String]: [NewString] collects the items, [List] returns them
    sorted (Go compares strings byte by byte). *)
Definition NewString (items : list string) : gset string := list_to_set items.

Definition string_le (s1 s2 : string) : Prop := Is_true (String.leb s1 s2).
#[global] Instance string_le_dec s1 s2 : Decision (string_le s1 s2).
Proof. unfold string_le. apply _. Defined.

Definition List (s : gset string) : list string := merge_sort string_le (elements s).

Definition AddFinalizer (object : ObjectMeta) (finalizer : string) : ObjectMeta :=
  let finalizers := NewString (Finalizers object) in
  let finalizers := finalizers ∪ {[finalizer]} in
  SetFinalizers object (List finalizers).

Definition DeleteFinalizer (object : ObjectMeta) (finalizer : string) : ObjectMeta :=
  let finalizers := NewString (Finalizers object) in
  let finalizers := finalizers ∖ {[finalizer]} in
  SetFinalizers object (List finalizers).

(** ** The client and the cycle as a program over its calls *)

(** The objects [Create] is called with. *)
Inductive Object :=
| OServiceAccount (sa : ServiceAccount)
| ORole (role : Role)
| ORoleBinding (rb : RoleBinding)
| OJob (job : Job).

(** The calls of a cycle on its environment: the methods of
    [client.Client] at the object kinds the controller uses them with, and
    [time.Now].  The index is the type of the answer; a write answers with
    its error, [None] for nil. *)
Inductive Call : Type -> Type :=
| GetClusterDeployment (key : NamespacedName) : Call (result ClusterDeployment)
| GetJob (key : NamespacedName) : Call (result Job)
| GetConfigMap (key : NamespacedName) : Call (result ConfigMap)
| GetServiceAccount (key : NamespacedName) : Call (result ServiceAccount)
| GetRole (key : NamespacedName) : Call (result Role)
| GetRoleBinding (key : NamespacedName) : Call (result RoleBinding)
| Create (obj : Object) : Call (option error)
| Update (cd : ClusterDeployment) : Call (option error)
| Delete (cd : ClusterDeployment) : Call (option error)
| Now : Call Time.

Inductive Prog (A : Type) : Type :=
| Ret (a : A)
| Vis (X : Type) (c : Call X) (k : X -> Prog A).
Arguments Ret {A} a.
Arguments Vis {A X} c k.

Fixpoint bind {A B : Type} (m : Prog A) (f : A -> Prog B) : Prog B :=
  match m with
  | Ret a => f a
  | Vis c k => Vis c (fun x => bind (k x) f)
  end.

Definition call {X : Type} (c : Call X) : Prog X := Vis c Ret.

Notation "x <- m ;; f" := (bind m (fun x => f))
  (at level 100, m at next level, right associativity).

(** One call with its answer, as it appears in the record of a cycle. *)
Inductive Event :=
| EGetClusterDeployment (key : NamespacedName) (r : result ClusterDeployment)
| EGetJob (key : NamespacedName) (r : result Job)
| EGetConfigMap (key : NamespacedName) (r : result ConfigMap)
| EGetServiceAccount (key : NamespacedName) (r : result ServiceAccount)
| EGetRole (key : NamespacedName) (r : result Role)
| EGetRoleBinding (key : NamespacedName) (r : result RoleBinding)
| ECreate (obj : Object) (err : option error)
| EUpdate (cd : ClusterDeployment) (err : option error)
| EDelete (cd : ClusterDeployment) (err : option error)
| ENow (t : Time).

Definition event_of {X : Type} (c : Call X) : X -> Event :=
  match c in Call X return X -> Event with
  | GetClusterDeployment key => EGetClusterDeployment key
  | GetJob key => EGetJob key
  | GetConfigMap key => EGetConfigMap key
  | GetServiceAccount key => EGetServiceAccount key
  | GetRole key => EGetRole key
  | GetRoleBinding key => EGetRoleBinding key
  | Create obj => ECreate obj
  | Update cd => EUpdate cd
  | Delete cd => EDelete cd
  | Now => ENow
  end.

(** An environment: a state [W] and an answer to every call. *)
Definition Handler (W : Type) : Type := forall X : Type, Call X -> W -> X * W.

(** Running a program: its value, the final state of the environment and
    the calls made, in order. *)
Fixpoint run {W A : Type} (h : Handler W) (m : Prog A) (w : W) : A * W * list Event :=
  match m with
  | Ret a => (a, w, [])
  | Vis c k =>
      let '(x, w1) := h _ c w in
      let '(a, w2, tr) := run h (k x) w1 in
      (a, w2, event_of c x :: tr)
  end.

(** The writes of a record. *)
Definition is_mutation (e : Event) : bool :=
  match e with
  | ECreate _ _ | EUpdate _ _ | EDelete _ _ => true
  | _ => false
  end.

Definition mutations (tr : list Event) : list Event := filter (fun e => is_mutation e = true) tr.

(** ** What the controller takes from other packages *)

(** [time.ParseDuration], the job factories of pkg/install,
    [controllerutil.SetControllerReference] (with the reconciler's scheme)
    and [json.Unmarshal] into a [map[string]interface{}] are parameters. *)
Class Externals := {
  ParseDuration : string -> result Duration;
  GenerateInstallerJob :
    ClusterDeployment -> string -> string -> string -> string -> string -> Job;
  GenerateUninstallerJob : ClusterDeployment -> string -> string -> result Job;
  SetControllerReference : ClusterDeployment -> Job -> result Job;
  Unmarshal : string -> result (gmap string JSON)
}.

(** [reconcile.Result] *)
Record Result := {
  Requeue : bool;
  RequeueAfter : Duration
}.

Definition emptyResult : Result := {| Requeue := false; RequeueAfter := 0 |}.

(** The type assertions [v.(map[string]interface{})] and [v.(string)] on the
    value of a map index expression (a missing key gives nil). *)
Definition asMap (v : option JSON) : option (gmap string JSON) :=
  match v with
  | Some (JObject m) => Some m
  | _ => None
  end.

Definition asString (v : option JSON) : option string :=
  match v with
  | Some (JString s) => Some s
  | _ => None
  end.

Section Controller.
Context `{Ext : Externals}.

(** [setupClusterInstallServiceAccount] *)
Definition expectedRole (namespace : string) : Role :=
  {| roleMeta := namedMeta roleName namespace;
     Rules :=
       [ {| APIGroups := [""];
            Resources := ["secrets"; "configmaps"];
            Verbs := ["create"; "delete"; "get"; "list"; "update"] |};
         {| APIGroups := ["hive.openshift.io"];
            Resources := ["clusterdeployments"; "clusterdeployments/finalizers"];
            Verbs := ["create"; "delete"; "get"; "list"; "update"] |} ] |}.

Definition newRoleBinding (namespace : string) (currentSA : ServiceAccount) : RoleBinding :=
  {| rbMeta := namedMeta roleBindingName namespace;
     Subjects :=
       [ {| subjectKind := "ServiceAccount";
            subjectName := Name (saMeta currentSA);
            subjectNamespace := namespace |} ];
     roleRef := {| roleRefName := roleName; roleRefKind := "Role" |} |}.

(** Lines 396-432: the role binding. *)
Definition setupRoleBinding (namespace : string) (currentSA : ServiceAccount)
  : Prog (result ServiceAccount) :=
  r <- call (GetRoleBinding (namespace, roleBindingName));;
  match r with
  | Ok _ => Ret (Ok currentSA)
  | Err err =>
      if negb (IsNotFound err) then
        Ret (Err (Errorf ("error checking for existing rolebinding: " +:+ Error err)))
      else
        e <- call (Create (ORoleBinding (newRoleBinding namespace currentSA)));;
        match e with
        | Some err => Ret (Err (Errorf ("error creating rolebinding: " +:+ Error err)))
        | None => Ret (Ok currentSA)
        end
  end.

(** Lines 363-394: the role. *)
Definition setupRole (namespace : string) (currentSA : ServiceAccount)
  : Prog (result ServiceAccount) :=
  r <- call (GetRole (namespace, roleName));;
  match r with
  | Ok _ => setupRoleBinding namespace currentSA
  | Err err =>
      if negb (IsNotFound err) then
        Ret (Err (Errorf ("error checking for existing role: " +:+ Error err)))
      else
        e <- call (Create (ORole (expectedRole namespace)));;
        match e with
        | Some err => Ret (Err (Errorf ("error creating role: " +:+ Error err)))
        | None => setupRoleBinding namespace currentSA
        end
  end.

Definition setupClusterInstallServiceAccount (namespace : string)
  : Prog (result ServiceAccount) :=
  r <- call (GetServiceAccount (namespace, serviceAccountName));;
  match r with
  | Ok currentSA => setupRole namespace currentSA
  | Err err =>
      if negb (IsNotFound err) then
        Ret (Err (Errorf "error checking for existing serviceaccount"))
      else
        let currentSA := {| saMeta := namedMeta serviceAccountName namespace |} in
        e <- call (Create (OServiceAccount currentSA));;
        match e with
        | Some err => Ret (Err (Errorf ("error creating serviceaccount: " +:+ Error err)))
        | None => setupRole namespace currentSA
        end
  end.

(** [addClusterDeploymentFinalizer], [removeClusterDeploymentFinalizer] *)
Definition addClusterDeploymentFinalizer (cd : ClusterDeployment) : Prog (option error) :=
  let cd := {| cdMeta := AddFinalizer (cdMeta cd) FinalizerDeprovision; Status := Status cd |} in
  call (Update cd).

Definition removeClusterDeploymentFinalizer (cd : ClusterDeployment) : Prog (option error) :=
  let cd := {| cdMeta := DeleteFinalizer (cdMeta cd) FinalizerDeprovision; Status := Status cd |} in
  call (Update cd).

(** Lines 249-266: the cluster ID in the decoded metadata.  The last
    assertion assigns [cd.Status.ClusterUUID] before [ok] is tested; the
    function returns right after a failed assertion, so the assignment is
    seen only when all three succeed. *)
Definition errNoClusterID : error :=
  Errorf "cluster metadata did not contain aws.identifier.tectonicClusterID".

Definition clusterIDOf (objMap : gmap string JSON) : result string :=
  match asMap (objMap !! "aws") with
  | None => Err errNoClusterID
  | Some aws =>
      match asMap (aws !! "identifier") with
      | None => Err errNoClusterID
      | Some identifier =>
          match asString (identifier !! "tectonicClusterID") with
          | None => Err errNoClusterID
          | Some uuid => Ok uuid
          end
      end
  end.

(** Lines 270-282: persist the status when it differs from the original. *)
Definition persistStatus (origCD cd : ClusterDeployment) : Prog (option error) :=
  if decide (Status cd = Status origCD) then Ret None
  else call (Update cd).

(** [updateClusterDeploymentStatus]; [job] is the pointer argument, [None]
    for nil. *)
Definition updateClusterDeploymentStatus (cd : ClusterDeployment) (job : option Job)
  : Prog (option error) :=
  let origCD := cd in
  let cd :=
    match job with
    | Some job =>
        withStatus cd {| Installed := isSuccessful job; ClusterUUID := ClusterUUID (Status cd) |}
    | None => cd
    end in
  if Installed (Status cd) && bool_decide (ClusterUUID (Status cd) = "") then
    let configMapName := Name (cdMeta cd) +:+ "-metadata" in
    r <- call (GetConfigMap (Namespace (cdMeta cd), configMapName));;
    match r with
    | Err err => Ret (Some err)
    | Ok metadataCfgMap =>
        match Unmarshal (default "" (Data metadataCfgMap !! "metadata.json")) with
        | Err err => Ret (Some err)
        | Ok objMap =>
            match clusterIDOf objMap with
            | Err err => Ret (Some err)
            | Ok uuid =>
                persistStatus origCD
                  (withStatus cd {| Installed := Installed (Status cd); ClusterUUID := uuid |})
            end
        end
    end
  else persistStatus origCD cd.

(** [syncDeletedClusterDeployment] *)
Definition syncDeletedClusterDeployment (cd : ClusterDeployment)
  : Prog (Result * option error) :=
  match GenerateUninstallerJob cd installerImage PullAlways with
  | Err err => Ret (emptyResult, Some err)
  | Ok uninstallJob =>
      match SetControllerReference cd uninstallJob with
      | Err err => Ret (emptyResult, Some err)
      | Ok uninstallJob =>
          r <- call (GetJob (objectKey (jobMeta uninstallJob)));;
          match r with
          | Err err =>
              if IsNotFound err then
                e <- call (Create (OJob uninstallJob));;
                Ret (emptyResult, e)
              else Ret (emptyResult, Some err)
          | Ok existingJob =>
              if isSuccessful existingJob then
                e <- removeClusterDeploymentFinalizer cd;;
                Ret (emptyResult, e)
              else Ret (emptyResult, None)
          end
      end
  end.

(** Lines 178-226 of [Reconcile]: the deletion guard, the install job and
    the status, once the expiry check has passed with [requeueAfter]. *)
Definition reconcileInstall (cd : ClusterDeployment) (requeueAfter : Duration)
  : Prog (Result * option error) :=
  if negb (HasFinalizer (cdMeta cd) FinalizerDeprovision) then
    e <- addClusterDeploymentFinalizer cd;;
    Ret (emptyResult, e)
  else
    let job := GenerateInstallerJob cd serviceAccountName installerImage PullAlways
                 hiveImage PullIfNotPresent in
    match SetControllerReference cd job with
    | Err err => Ret (emptyResult, Some err)
    | Ok job =>
        r <- call (GetJob (objectKey (jobMeta job)));;
        (* [existingJob] points to a fresh [kbatch.Job{}] that a failed Get
           leaves as it is *)
        let existingJob := match r with Ok j => j | Err _ => emptyJob end in
        e <- match r with
             | Err err =>
                 if IsNotFound err then
                   if Installed (Status cd) then Ret None
                   else call (Create (OJob job))
                 else Ret (Some err)
             | Ok _ => Ret None
             end;;
        match e with
        | Some err => Ret (emptyResult, Some err)
        | None =>
            e <- updateClusterDeploymentStatus cd (Some existingJob);;
            match e with
            | Some err => Ret (emptyResult, Some err)
            | None =>
                if bool_decide (requeueAfter ≠ 0) then
                  Ret ({| Requeue := true; RequeueAfter := requeueAfter |}, None)
                else Ret (emptyResult, None)
            end
        end
    end.

(** Lines 152-176 of [Reconcile]: the delete-after annotation. *)
Definition reconcileExpiry (cd : ClusterDeployment) : Prog (Result * option error) :=
  match Annotations (cdMeta cd) !! deleteAfterAnnotation with
  | None => reconcileInstall cd 0
  | Some deleteAfter =>
      match ParseDuration deleteAfter with
      | Err err =>
          Ret (emptyResult,
               Some (Errorf ("error parsing " +:+ deleteAfterAnnotation +:+
                             " as a duration: " +:+ Error err)))
      | Ok dur =>
          if negb (Time_IsZero (CreationTimestamp (cdMeta cd))) then
            let expiry := Time_Add (CreationTimestamp (cdMeta cd)) dur in
            now <- call Now;;
            if Time_After now expiry then
              _ <- call (Delete cd);;
              Ret (emptyResult, None)
            else
              now <- call Now;;
              reconcileInstall cd (Duration_add (Time_Sub expiry now) (60 * Second))
          else reconcileInstall cd 0
      end
  end.

(** [Reconcile] *)
Definition Reconcile (request : NamespacedName) : Prog (Result * option error) :=
  r <- call (GetClusterDeployment request);;
  match r with
  | Err err =>
      if IsNotFound err then Ret (emptyResult, None)
      else Ret (emptyResult, Some err)
  | Ok cd =>
      r <- setupClusterInstallServiceAccount (Namespace (cdMeta cd));;
      match r with
      | Err err => Ret (emptyResult, Some err)
      | Ok _ =>
          match DeletionTimestamp (cdMeta cd) with
          | Some _ =>
              if negb (HasFinalizer (cdMeta cd) FinalizerDeprovision) then
                Ret (emptyResult, None)
              else syncDeletedClusterDeployment cd
          | None => reconcileExpiry cd
          end
      end
  end.

End Controller.

(** ** Reading the record of a cycle *)

(** The cycle began by fetching [cd] under [request]. *)
Definition fetched (tr : list Event) (request : NamespacedName) (cd : ClusterDeployment) : Prop :=
  head tr = Some (EGetClusterDeployment request (Ok cd)).

(** The calls of the access provisioner
    ([setupClusterInstallServiceAccount]). *)
Definition isProvisioning (e : Event) : bool :=
  match e with
  | EGetServiceAccount _ _ | EGetRole _ _ | EGetRoleBinding _ _ => true
  | ECreate (OServiceAccount _) _ | ECreate (ORole _) _ | ECreate (ORoleBinding _) _ => true
  | _ => false
  end.

(** A call of the access provisioner that makes it give up: a lookup that
    fails otherwise than by not-found, or a creation that fails. *)
Definition provisioningFailed (e : Event) : bool :=
  match e with
  | EGetServiceAccount _ (Err err) | EGetRole _ (Err err) | EGetRoleBinding _ (Err err) =>
      negb (IsNotFound err)
  | ECreate (OServiceAccount _) (Some _) | ECreate (ORole _) (Some _)
  | ECreate (ORoleBinding _) (Some _) => true
  | _ => false
  end.

Definition accessProvisioned (tr : list Event) : Prop :=
  Forall (fun e => provisioningFailed e = false) tr.

(** The writes of a cycle other than the access provisioner's creations:
    those on the resource and on its work items. *)
Definition resourceMutations (tr : list Event) : list Event :=
  filter (fun e => is_mutation e && negb (isProvisioning e) = true) tr.

Definition isJobCreate (e : Event) : bool :=
  match e with
  | ECreate (OJob _) _ => true
  | _ => false
  end.

(** The clock readings of a cycle, in order. *)
Fixpoint nows (tr : list Event) : list Time :=
  match tr with
  | [] => []
  | ENow t :: rest => t :: nows rest
  | _ :: rest => nows rest
  end.

(** The decoded metadata has a string under aws, identifier,
    tectonicClusterID. *)
Definition hasClusterID (objMap : gmap string JSON) : Prop :=
  exists (aws identifier : gmap string JSON) (uuid : string),
    objMap !! "aws" = Some (JObject aws) /\
    aws !! "identifier" = Some (JObject identifier) /\
    identifier !! "tectonicClusterID" = Some (JString uuid).

(** The job's conditions without those of type Failed. *)
Definition withoutFailed (job : Job) : Job :=
  {| jobMeta := jobMeta job;
     Conditions := filter (fun c => condType c ≠ JobFailed) (Conditions job) |}.

Definition isOk {A : Type} (r : result A) : bool :=
  match r with
  | Ok _ => true
  | Err _ => false
  end.

(** What a run of the access provisioner looks like: only its own calls,
    and an answer that is a service account exactly when none of them
    failed. *)
Definition provisioningOnly (r : result ServiceAccount) (tr : list Event) : Prop :=
  Forall (fun e => isProvisioning e = true) tr /\
  (isOk r = true <-> accessProvisioned tr).

(** The installed flag that [updateClusterDeploymentStatus] computes from
    the resource and the job it is given. *)
Definition computedInstalled (cd : ClusterDeployment) (job : option Job) : bool :=
  match job with
  | Some job => isSuccessful job
  | None => Installed (Status cd)
  end.

Definition metadataKey (cd : ClusterDeployment) : NamespacedName :=
  (Namespace (cdMeta cd), Name (cdMeta cd) +:+ "-metadata").

Section Reading.
Context `{Ext : Externals}.

(** The answer to the lookup of the metadata artifact gives no cluster ID:
    the lookup failed, or the payload does not decode, or the decoded
    payload has no string under aws, identifier, tectonicClusterID. *)
Definition metadataUnusable (r : result ConfigMap) : Prop :=
  match r with
  | Err _ => True
  | Ok metadataCfgMap =>
      match Unmarshal (default "" (Data metadataCfgMap !! "metadata.json")) with
      | Err _ => True
      | Ok objMap => ~ hasClusterID objMap
      end
  end.

(** The expiry of a resource under a parsed delete-after duration. *)
Definition expiryOf (cd : ClusterDeployment) (dur : Duration) : Time :=
  Time_Add (CreationTimestamp (cdMeta cd)) dur.

(** The name under which a cycle looks the install job up, when the
    controller reference can be set. *)
Definition installJobOf (cd : ClusterDeployment) : result Job :=
  SetControllerReference cd
    (GenerateInstallerJob cd serviceAccountName installerImage PullAlways
       hiveImage PullIfNotPresent).

(** The same for the uninstall job. *)
Definition uninstallJobOf (cd : ClusterDeployment) : result Job :=
  match GenerateUninstallerJob cd installerImage PullAlways with
  | Err err => Err err
  | Ok uninstallJob => SetControllerReference cd uninstallJob
  end.

End Reading.

(** The calls of [updateClusterDeploymentStatus] on a resource [cd]: the
    lookup of its metadata artifact, and an update that keeps its metadata
    and changes its status. *)
Definition statusEvent (cd : ClusterDeployment) (e : Event) : Prop :=
  match e with
  | EGetConfigMap key _ => key = metadataKey cd
  | EUpdate cd' _ => cdMeta cd' = cdMeta cd /\ Status cd' ≠ Status cd
  | _ => False
  end.

(** Whether the install phase creates the job, given the answer to its
    lookup: the lookup says not-found and the resource is not marked
    installed. *)
Definition shouldCreate (cd : ClusterDeployment) (r : result Job) : bool :=
  match r with
  | Err err => IsNotFound err && negb (Installed (Status cd))
  | Ok _ => false
  end.

(** The lookups and creations of jobs in a record. *)
Definition isJobEvent (e : Event) : bool :=
  match e with
  | EGetJob _ _ | ECreate (OJob _) _ => true
  | _ => false
  end.

Definition jobEvents (tr : list Event) : list Event :=
  filter (fun e => isJobEvent e = true) tr.

Section Expiry.
Context `{Ext : Externals}.

(** The expiry policy lets the cycle go on: there is no delete-after
    annotation, or it parses and either the creation timestamp is zero or
    the clock reading the cycle tests is not after the expiry. *)
Definition expiryPasses (cd : ClusterDeployment) (tr : list Event) : Prop :=
  match Annotations (cdMeta cd) !! deleteAfterAnnotation with
  | None => True
  | Some deleteAfter =>
      match ParseDuration deleteAfter with
      | Err _ => False
      | Ok dur =>
          Time_IsZero (CreationTimestamp (cdMeta cd)) = true \/
          exists now, head (nows tr) = Some now /\ Time_After now (expiryOf cd dur) = false
      end
  end.

(** The verdict of the expiry policy at clock reading [t], and the delay
    it asks for when it does not say expired. *)
Definition expiredAt (cd : ClusterDeployment) (t : Time) : bool :=
  match Annotations (cdMeta cd) !! deleteAfterAnnotation with
  | None => false
  | Some deleteAfter =>
      match ParseDuration deleteAfter with
      | Err _ => false
      | Ok dur =>
          negb (Time_IsZero (CreationTimestamp (cdMeta cd))) &&
          Time_After t (expiryOf cd dur)
      end
  end.

Definition requeueDelay (cd : ClusterDeployment) (t : Time) : Duration :=
  match Annotations (cdMeta cd) !! deleteAfterAnnotation with
  | None => 0
  | Some deleteAfter =>
      match ParseDuration deleteAfter with
      | Err _ => 0
      | Ok dur =>
          if Time_IsZero (CreationTimestamp (cdMeta cd)) then 0
          else Duration_add (Time_Sub (expiryOf cd dur) t) (60 * Second)
      end
  end.

End Expiry.

(** The resource with the deprovision guard added, as
    [addClusterDeploymentFinalizer] sends it. *)
Definition guarded (cd : ClusterDeployment) : ClusterDeployment :=
  {| cdMeta := AddFinalizer (cdMeta cd) FinalizerDeprovision; Status := Status cd |}.

(** The resource with the deprovision guard removed, as
    [removeClusterDeploymentFinalizer] sends it. *)
Definition released (cd : ClusterDeployment) : ClusterDeployment :=
  {| cdMeta := DeleteFinalizer (cdMeta cd) FinalizerDeprovision; Status := Status cd |}.

(** Two results of cycles that agree on the error and differ at most in
    the retry delay, [d1] in the first and [d2] in the second. *)
Definition sameUpToDelay (d1 d2 : Duration) (res1 res2 : Result * option error) : Prop :=
  res2.2 = res1.2 /\
  (res1.1 = emptyResult /\ res2.1 = emptyResult \/
   res1.1 = {| Requeue := true; RequeueAfter := d1 |} /\
   res2.1 = {| Requeue := true; RequeueAfter := d2 |}).

(** ** An in-memory store *)

(** Modelled from the spec: the resource store behind [client.Client] is an
    external collaborator (the API server).  Objects are kept per kind
    under (namespace, name); get answers not-found for a missing key;
    create refuses a key already taken; update replaces the stored
    resource and lets the store reclaim it once a deletion request is
    present and its set of deletion guards is empty; delete removes a
    resource without deletion guards and otherwise records the deletion
    request.  Cycles run one at a time, so the version token of an update
    is always the one last read and is left out. *)
Record Store := {
  clusterDeployments : gmap NamespacedName ClusterDeployment;
  jobs : gmap NamespacedName Job;
  configMaps : gmap NamespacedName ConfigMap;
  serviceAccounts : gmap NamespacedName ServiceAccount;
  roles : gmap NamespacedName Role;
  roleBindings : gmap NamespacedName RoleBinding
}.

Definition withClusterDeployments (s : Store) (m : gmap NamespacedName ClusterDeployment) :=
  {| clusterDeployments := m; jobs := jobs s; configMaps := configMaps s;
     serviceAccounts := serviceAccounts s; roles := roles s;
     roleBindings := roleBindings s |}.

Definition notFound : error := StatusError StatusReasonNotFound.
Definition alreadyExists : error := StatusError StatusReasonAlreadyExists.

Definition storeGet {A : Type} (m : gmap NamespacedName A) (key : NamespacedName) : result A :=
  match m !! key with
  | Some a => Ok a
  | None => Err notFound
  end.

Definition storeCreate (obj : Object) (s : Store) : option error * Store :=
  match obj with
  | OServiceAccount sa =>
      match serviceAccounts s !! objectKey (saMeta sa) with
      | Some _ => (Some alreadyExists, s)
      | None =>
          (None,
           {| clusterDeployments := clusterDeployments s; jobs := jobs s;
              configMaps := configMaps s;
              serviceAccounts := <[objectKey (saMeta sa) := sa]> (serviceAccounts s);
              roles := roles s; roleBindings := roleBindings s |})
      end
  | ORole role =>
      match roles s !! objectKey (roleMeta role) with
      | Some _ => (Some alreadyExists, s)
      | None =>
          (None,
           {| clusterDeployments := clusterDeployments s; jobs := jobs s;
              configMaps := configMaps s; serviceAccounts := serviceAccounts s;
              roles := <[objectKey (roleMeta role) := role]> (roles s);
              roleBindings := roleBindings s |})
      end
  | ORoleBinding rb =>
      match roleBindings s !! objectKey (rbMeta rb) with
      | Some _ => (Some alreadyExists, s)
      | None =>
          (None,
           {| clusterDeployments := clusterDeployments s; jobs := jobs s;
              configMaps := configMaps s; serviceAccounts := serviceAccounts s;
              roles := roles s;
              roleBindings := <[objectKey (rbMeta rb) := rb]> (roleBindings s) |})
      end
  | OJob job =>
      match jobs s !! objectKey (jobMeta job) with
      | Some _ => (Some alreadyExists, s)
      | None =>
          (None,
           {| clusterDeployments := clusterDeployments s;
              jobs := <[objectKey (jobMeta job) := job]> (jobs s);
              configMaps := configMaps s; serviceAccounts := serviceAccounts s;
              roles := roles s; roleBindings := roleBindings s |})
      end
  end.

Definition reclaimable (m : ObjectMeta) : bool :=
  match DeletionTimestamp m, Finalizers m with
  | Some _, [] => true
  | _, _ => false
  end.

Definition storeUpdate (cd : ClusterDeployment) (s : Store) : option error * Store :=
  let key := objectKey (cdMeta cd) in
  match clusterDeployments s !! key with
  | None => (Some notFound, s)
  | Some _ =>
      if reclaimable (cdMeta cd)
      then (None, withClusterDeployments s (delete key (clusterDeployments s)))
      else (None, withClusterDeployments s (<[key := cd]> (clusterDeployments s)))
  end.

Definition requestDeletion (now : Time) (cd : ClusterDeployment) : ClusterDeployment :=
  let m := cdMeta cd in
  {| cdMeta :=
       {| Name := Name m; Namespace := Namespace m; Annotations := Annotations m;
          Finalizers := Finalizers m; OwnerReferences := OwnerReferences m;
          CreationTimestamp := CreationTimestamp m;
          DeletionTimestamp :=
            match DeletionTimestamp m with Some t => Some t | None => Some now end |};
     Status := Status cd |}.

Definition storeDelete (now : Time) (cd : ClusterDeployment) (s : Store) : option error * Store :=
  let key := objectKey (cdMeta cd) in
  match clusterDeployments s !! key with
  | None => (Some notFound, s)
  | Some stored =>
      match Finalizers (cdMeta stored) with
      | [] => (None, withClusterDeployments s (delete key (clusterDeployments s)))
      | _ :: _ =>
          (None, withClusterDeployments s
                   (<[key := requestDeletion now stored]> (clusterDeployments s)))
      end
  end.

(** The store as an environment of a cycle that runs at clock reading
    [now]. *)
Definition apiserver (now : Time) : Handler Store :=
  fun X c =>
    match c in Call X return Store -> X * Store with
    | GetClusterDeployment key => fun s => (storeGet (clusterDeployments s) key, s)
    | GetJob key => fun s => (storeGet (jobs s) key, s)
    | GetConfigMap key => fun s => (storeGet (configMaps s) key, s)
    | GetServiceAccount key => fun s => (storeGet (serviceAccounts s) key, s)
    | GetRole key => fun s => (storeGet (roles s) key, s)
    | GetRoleBinding key => fun s => (storeGet (roleBindings s) key, s)
    | Create obj => storeCreate obj
    | Update cd => storeUpdate cd
    | Delete cd => storeDelete now cd
    | Now => fun s => (now, s)
    end.

(** Every resource is stored under its own (namespace, name). *)
Definition wellKeyed (s : Store) : Prop :=
  forall key cd, clusterDeployments s !! key = Some cd -> objectKey (cdMeta cd) = key.

(** ** Cycle after cycle *)

(** The creations of a job under the name [key], whatever their answer. *)
Definition createsJobAt (key : NamespacedName) (e : Event) : bool :=
  match e with
  | ECreate (OJob job) _ => bool_decide (objectKey (jobMeta job) = key)
  | _ => false
  end.

Section Cycles.
Context `{Ext : Externals}.

(** Cycle after cycle on the in-memory store: each cycle serves one
    request at one clock reading and starts from the store the cycle
    before it left; the record is the records of the cycles in order. *)
Fixpoint cycles (rs : list (Time * NamespacedName)) (s : Store) : Store * list Event :=
  match rs with
  | [] => (s, [])
  | (t, request) :: rs =>
      let o := run (apiserver t) (Reconcile request) s in
      let o' := cycles rs o.1.2 in
      (o'.1, o.2 ++ o'.2)
  end.

End Cycles.

(** ** Reading more of a record *)

(** The job's conditions of one type, in the order of the list. *)
Definition conditionsOfType (ty : string) (job : Job) : list JobCondition :=
  filter (fun c => condType c = ty) (Conditions job).

(** The job without its conditions of one type. *)
Definition withoutType (ty : string) (job : Job) : Job :=
  {| jobMeta := jobMeta job;
     Conditions := filter (fun c => condType c ≠ ty) (Conditions job) |}.

(** The fetches of the resource. *)
Definition isFetch (e : Event) : bool :=
  match e with
  | EGetClusterDeployment _ _ => true
  | _ => false
  end.

(** The writes on the resource itself. *)
Definition isResourceWrite (e : Event) : bool :=
  match e with
  | EUpdate _ _ | EDelete _ _ => true
  | _ => false
  end.

(** The lookups of a record, in order. *)
Definition lookups (tr : list Event) : list Event :=
  filter (fun e => is_mutation e = false) tr.

(** [g] is the lookup of the object [obj] under its own namespace and
    name, answered not-found. *)
Definition refusedLookup (obj : Object) (g : Event) : Prop :=
  exists err,
    IsNotFound err = true /\
    g = match obj with
        | OServiceAccount sa => EGetServiceAccount (objectKey (saMeta sa)) (Err err)
        | ORole role => EGetRole (objectKey (roleMeta role)) (Err err)
        | ORoleBinding rb => EGetRoleBinding (objectKey (rbMeta rb)) (Err err)
        | OJob job => EGetJob (objectKey (jobMeta job)) (Err err)
        end.

(** Every creation of a record comes right after the not-found lookup of
    the object it creates. *)
Definition creationsFollowLookups (tr : list Event) : Prop :=
  forall i obj e,
    tr !! i = Some (ECreate obj e) ->
    exists j g, i = S j /\ tr !! j = Some g /\ refusedLookup obj g.

(** The string [uuid] sits under aws, identifier, tectonicClusterID. *)
Definition clusterIDAt (objMap : gmap string JSON) (uuid : string) : Prop :=
  exists aws identifier : gmap string JSON,
    objMap !! "aws" = Some (JObject aws) /\
    aws !! "identifier" = Some (JObject identifier) /\
    identifier !! "tectonicClusterID" = Some (JString uuid).

(** The job the install phase goes on with after the lookup of the install
    job: the job found, or the empty job a failed lookup leaves behind. *)
Definition lookedUpJob (r : result Job) : Job :=
  match r with
  | Ok existingJob => existingJob
  | Err _ => emptyJob
  end.

Section Shapes.
Context `{Ext : Externals}.

(** The cluster ID that the payload of a metadata artifact gives. *)
Definition metadataGives (cm : ConfigMap) (uuid : string) : Prop :=
  exists objMap,
    Unmarshal (default "" (Data cm !! "metadata.json")) = Ok objMap /\
    clusterIDAt objMap uuid.

(** The calls of a status update that computed the installed flag
    [installed] for the resource [cd]: nothing; or the lookup of the
    metadata artifact alone; or one update of the status; or the lookup
    and the update that records the cluster ID it gave. *)
Inductive statusCalls (cd : ClusterDeployment) (installed : bool) : list Event -> Prop :=
| status_unchanged :
    statusCalls cd installed []
| status_lookup r :
    installed = true -> ClusterUUID (Status cd) = "" ->
    statusCalls cd installed [EGetConfigMap (metadataKey cd) r]
| status_update e :
    (installed = false \/ ClusterUUID (Status cd) ≠ "") ->
    installed ≠ Installed (Status cd) ->
    statusCalls cd installed
      [EUpdate (withStatus cd {| Installed := installed;
                                 ClusterUUID := ClusterUUID (Status cd) |}) e]
| status_lookup_update cm uuid e :
    installed = true -> ClusterUUID (Status cd) = "" ->
    metadataGives cm uuid ->
    {| Installed := true; ClusterUUID := uuid |} ≠ Status cd ->
    statusCalls cd installed
      [EGetConfigMap (metadataKey cd) (Ok cm);
       EUpdate (withStatus cd {| Installed := true; ClusterUUID := uuid |}) e].

(** The calls of a cycle on the resource [cd] after the access
    provisioner: clock readings only (the cycle stopped); the delete of an
    expired resource; the update that adds the guard; the install phase;
    or, for a resource under deletion, the lookup of the uninstall job
    followed by nothing, by its creation, or by the update that removes the
    guard. *)
Inductive cycleBody (cd : ClusterDeployment) : list Event -> Prop :=
| body_stopped clocks :
    cycleBody cd (ENow <$> clocks)
| body_expired now e :
    DeletionTimestamp (cdMeta cd) = None ->
    cycleBody cd [ENow now; EDelete cd e]
| body_guard clocks e :
    DeletionTimestamp (cdMeta cd) = None ->
    HasFinalizer (cdMeta cd) FinalizerDeprovision = false ->
    cycleBody cd ((ENow <$> clocks) ++ [EUpdate (guarded cd) e])
| body_install clocks job r creates status :
    DeletionTimestamp (cdMeta cd) = None ->
    HasFinalizer (cdMeta cd) FinalizerDeprovision = true ->
    installJobOf cd = Ok job ->
    (creates = [] /\ shouldCreate cd r = false \/
     exists e, creates = [ECreate (OJob job) e] /\ shouldCreate cd r = true) ->
    statusCalls cd (isSuccessful (lookedUpJob r)) status ->
    cycleBody cd
      ((ENow <$> clocks) ++ EGetJob (objectKey (jobMeta job)) r :: creates ++ status)
| body_uninstall job r :
    is_Some (DeletionTimestamp (cdMeta cd)) ->
    HasFinalizer (cdMeta cd) FinalizerDeprovision = true ->
    uninstallJobOf cd = Ok job ->
    match r with
    | Ok existingJob => isSuccessful existingJob = false
    | Err err => IsNotFound err = false
    end ->
    cycleBody cd [EGetJob (objectKey (jobMeta job)) r]
| body_uninstall_create job err e :
    is_Some (DeletionTimestamp (cdMeta cd)) ->
    HasFinalizer (cdMeta cd) FinalizerDeprovision = true ->
    uninstallJobOf cd = Ok job ->
    IsNotFound err = true ->
    cycleBody cd [EGetJob (objectKey (jobMeta job)) (Err err); ECreate (OJob job) e]
| body_released job existingJob e :
    is_Some (DeletionTimestamp (cdMeta cd)) ->
    HasFinalizer (cdMeta cd) FinalizerDeprovision = true ->
    uninstallJobOf cd = Ok job ->
    isSuccessful existingJob = true ->
    cycleBody cd [EGetJob (objectKey (jobMeta job)) (Ok existingJob); EUpdate (released cd) e].

End Shapes.

(** ** Externals for the examples *)

Module Sample.

Definition digitOf (a : ascii) : option Z :=
  let code := Z.of_nat (nat_of_ascii a) in
  if (48 <=? code) && (code <=? 57) then Some (code - 48) else None.

Fixpoint leadingInt (s : string) (acc : Z) (seen : bool) : option (Z * string) :=
  match s with
  | String a rest =>
      match digitOf a with
      | Some d => leadingInt rest (10 * acc + d) true
      | None => if seen then Some (acc, s) else None
      end
  | EmptyString => if seen then Some (acc, s) else None
  end.

Definition unitOf (u : string) : option Z :=
  if String.eqb u "ns" then Some 1
  else if String.eqb u "us" then Some 1000
  else if String.eqb u "ms" then Some 1000000
  else if String.eqb u "s" then Some Second
  else if String.eqb u "m" then Some (60 * Second)
  else if String.eqb u "h" then Some (3600 * Second)
  else None.

(** The forms of [time.ParseDuration] made of one decimal count and one
    unit, such as 1h or 90m. *)
Definition parseDuration (s : string) : result Duration :=
  match leadingInt s 0 false with
  | Some (n, u) =>
      match unitOf u with
      | Some f =>
          if n * f <=? maxDuration then Ok (n * f)
          else Err (Errorf "time: invalid duration")
      | None => Err (Errorf "time: unknown unit in duration")
      end
  | None => Err (Errorf "time: invalid duration")
  end.

Definition installJobName (cd : ClusterDeployment) : string := Name (cdMeta cd) +:+ "-install".
Definition uninstallJobName (cd : ClusterDeployment) : string := Name (cdMeta cd) +:+ "-uninstall".

Definition generateInstallerJob (cd : ClusterDeployment)
    (serviceAccount installerImage installerPull hiveImage hivePull : string) : Job :=
  {| jobMeta := namedMeta (installJobName cd) (Namespace (cdMeta cd)); Conditions := [] |}.

Definition generateUninstallerJob (cd : ClusterDeployment) (image pull : string) : result Job :=
  Ok {| jobMeta := namedMeta (uninstallJobName cd) (Namespace (cdMeta cd)); Conditions := [] |}.

Definition setControllerReference (cd : ClusterDeployment) (job : Job) : result Job :=
  let m := jobMeta job in
  Ok {| jobMeta :=
          {| Name := Name m; Namespace := Namespace m; Annotations := Annotations m;
             Finalizers := Finalizers m;
             OwnerReferences :=
               OwnerReferences m ++
               [ {| ownerKind := "ClusterDeployment"; ownerName := Name (cdMeta cd);
                    ownerController := true |} ];
             CreationTimestamp := CreationTimestamp m;
             DeletionTimestamp := DeletionTimestamp m |};
        Conditions := Conditions job |}.

Definition quote : string := String "034"%char EmptyString.

Fixpoint stripPrefix (p s : string) : option string :=
  match p, s with
  | EmptyString, _ => Some s
  | String a p', String b s' => if Ascii.eqb a b then stripPrefix p' s' else None
  | String _ _, EmptyString => None
  end.

Fixpoint untilQuote (s : string) : option (string * string) :=
  match s with
  | EmptyString => None
  | String a rest =>
      if Ascii.eqb a "034"%char then Some (EmptyString, rest)
      else match untilQuote rest with
           | Some (word, tail) => Some (String a word, tail)
           | None => None
           end
  end.

Definition metadataPrefix : string :=
  "{" +:+ quote +:+ "aws" +:+ quote +:+ ":{" +:+ quote +:+ "identifier" +:+ quote +:+ ":{"
  +:+ quote +:+ "tectonicClusterID" +:+ quote +:+ ":" +:+ quote.

Definition metadataJSON (uuid : string) : string := metadataPrefix +:+ uuid +:+ quote +:+ "}}}".

(** A decoder for the two payloads of the examples: the empty object, and
    an object that holds a cluster ID under aws, identifier,
    tectonicClusterID. *)
Definition unmarshal (s : string) : result (gmap string JSON) :=
  if String.eqb s "{}" then Ok ∅
  else
    match stripPrefix metadataPrefix s with
    | Some rest =>
        match untilQuote rest with
        | Some (uuid, tail) =>
            if String.eqb tail "}}}" then
              Ok {[ "aws" := JObject {[ "identifier" :=
                      JObject {[ "tectonicClusterID" := JString uuid ]} ]} ]}
            else Err (Errorf "invalid character")
        | None => Err (Errorf "unexpected end of JSON input")
        end
    | None => Err (Errorf "unexpected end of JSON input")
    end.

#[export] Instance externals : Externals :=
  {| ParseDuration := parseDuration;
     GenerateInstallerJob := generateInstallerJob;
     GenerateUninstallerJob := generateUninstallerJob;
     SetControllerReference := setControllerReference;
     Unmarshal := unmarshal |}.

Definition emptyStore : Store :=
  {| clusterDeployments := ∅; jobs := ∅; configMaps := ∅; serviceAccounts := ∅;
     roles := ∅; roleBindings := ∅ |}.

(** A namespace whose service account, role and binding exist. *)
Definition provisioned (namespace : string) : Store :=
  {| clusterDeployments := ∅; jobs := ∅; configMaps := ∅;
     serviceAccounts :=
       {[ (namespace, serviceAccountName) :=
            {| saMeta := namedMeta serviceAccountName namespace |} ]};
     roles := {[ (namespace, roleName) := expectedRole namespace ]};
     roleBindings :=
       {[ (namespace, roleBindingName) :=
            newRoleBinding namespace {| saMeta := namedMeta serviceAccountName namespace |} ]} |}.

Definition withClusterDeployment (cd : ClusterDeployment) (s : Store) : Store :=
  withClusterDeployments s (<[objectKey (cdMeta cd) := cd]> (clusterDeployments s)).

Definition withJob (job : Job) (s : Store) : Store :=
  {| clusterDeployments := clusterDeployments s;
     jobs := <[objectKey (jobMeta job) := job]> (jobs s);
     configMaps := configMaps s; serviceAccounts := serviceAccounts s;
     roles := roles s; roleBindings := roleBindings s |}.

Definition withConfigMap (cm : ConfigMap) (s : Store) : Store :=
  {| clusterDeployments := clusterDeployments s; jobs := jobs s;
     configMaps := <[objectKey (cmMeta cm) := cm]> (configMaps s);
     serviceAccounts := serviceAccounts s;
     roles := roles s; roleBindings := roleBindings s |}.

(** The resource of the examples: named [name] in the namespace ns, created
    at [created], with the given annotations, deletion guards, deletion
    request and status. *)
Definition resource (name : string) (created : Time) (annotations : gmap string string)
    (finalizers : list string) (deleted : option Time) (installed : bool) (uuid : string)
  : ClusterDeployment :=
  {| cdMeta :=
       {| Name := name; Namespace := "ns"; Annotations := annotations;
          Finalizers := finalizers; OwnerReferences := [];
          CreationTimestamp := created; DeletionTimestamp := deleted |};
     Status := {| Installed := installed; ClusterUUID := uuid |} |}.

Definition installJob (cd : ClusterDeployment) (conds : list JobCondition) : Job :=
  match setControllerReference cd
          (generateInstallerJob cd serviceAccountName installerImage PullAlways
             hiveImage PullIfNotPresent) with
  | Ok j => {| jobMeta := jobMeta j; Conditions := conds |}
  | Err _ => emptyJob
  end.

Definition uninstallJob (cd : ClusterDeployment) (conds : list JobCondition) : Job :=
  match generateUninstallerJob cd installerImage PullAlways with
  | Ok j =>
      match setControllerReference cd j with
      | Ok j => {| jobMeta := jobMeta j; Conditions := conds |}
      | Err _ => emptyJob
      end
  | Err _ => emptyJob
  end.

Definition hour : Duration := 3600 * Second.

(** The instant at which the resources of the examples were created. *)
Definition created : Time := 63000000000 * Second.

Definition key : NamespacedName := ("ns", "c1").

Definition deleteAfter (d : string) : gmap string string := {[ deleteAfterAnnotation := d ]}.

Definition complete : list JobCondition :=
  [ {| condType := JobComplete; condStatus := ConditionTrue |} ].

(** A new resource in a namespace nothing has been provisioned in. *)
Definition fresh : ClusterDeployment := resource "c1" created ∅ [] None false "".
Definition freshStore : Store := withClusterDeployment fresh emptyStore.

(** A resource with the guard whose install job runs. *)
Definition installing (annotations : gmap string string) (isCreated : Time) : ClusterDeployment :=
  resource "c1" isCreated annotations [FinalizerDeprovision] None false "".
Definition installingStore (annotations : gmap string string) (isCreated : Time) : Store :=
  withJob (installJob (installing annotations isCreated) [])
    (withClusterDeployment (installing annotations isCreated) (provisioned "ns")).

(** A resource whose install job is complete and whose metadata artifact
    is missing. *)
Definition completedStore : Store :=
  withJob (installJob (installing ∅ created) complete)
    (withClusterDeployment (installing ∅ created) (provisioned "ns")).

(** A resource with the guard and no install job yet. *)
Definition guardedStore : Store := withClusterDeployment (installing ∅ created) (provisioned "ns").


(** An installed resource, with its cluster ID, whose install job is gone. *)
Definition installed : ClusterDeployment :=
  resource "c1" created ∅ [FinalizerDeprovision] None true "id-1".
Definition installedStore : Store := withClusterDeployment installed (provisioned "ns").

(** A resource under deletion whose uninstall job is complete. *)
Definition deleting : ClusterDeployment :=
  resource "c1" created ∅ [FinalizerDeprovision] (Some (created + hour)) true "id-1".
Definition deletingStore : Store :=
  withJob (uninstallJob deleting complete)
    (withClusterDeployment deleting (provisioned "ns")).

(** The metadata artifact of the resource c1, holding the cluster ID
    [uuid]. *)
Definition metadataOf (uuid : string) : ConfigMap :=
  {| cmMeta := namedMeta "c1-metadata" "ns";
     Data := {[ "metadata.json" := metadataJSON uuid ]} |}.

(** A resource whose install job is complete and whose metadata artifact
    holds the cluster ID id-1. *)
Definition recordableStore : Store := withConfigMap (metadataOf "id-1") completedStore.

(** A resource under deletion whose uninstall job does not exist yet. *)
Definition deletionRequestedStore : Store :=
  withClusterDeployment deleting (provisioned "ns").

(** A server that refuses every lookup of a service account, and is the
    in-memory store otherwise. *)
Definition refusing (now : Time) : Handler Store :=
  fun X c s =>
    match c in Call X return X * Store -> X * Store with
    | GetServiceAccount _ => fun _ => (Err (StatusError StatusReasonUnknown), s)
    | _ => fun answer => answer
    end (apiserver now X c s).

(** Conditions that report Complete twice, first as False and then as
    True. *)
Definition reportedTwice : list JobCondition :=
  [ {| condType := JobComplete; condStatus := ConditionFalse |};
    {| condType := JobComplete; condStatus := ConditionTrue |} ].

(** A resource under deletion whose uninstall job carries them. *)
Definition reportedTwiceStore : Store :=
  withJob (uninstallJob deleting reportedTwice)
    (withClusterDeployment deleting (provisioned "ns")).

End Sample.

(** * Properties *)

(** ** Job conditions *)

Lemma conditionStatusIn_true (conds : list JobCondition) (ty : string) :
  conditionStatusIn conds ty = ConditionTrue <->
  exists pre c post,
    conds = pre ++ c :: post /\
    Forall (fun c' => condType c' ≠ ty) pre /\
    condType c = ty /\ condStatus c = ConditionTrue.
Proof.
  induction conds as [|c0 conds IH]; simpl.
  - split; [discriminate|].
    intros (pre & c & post & Heq & _). by destruct pre.
  - destruct (String.eqb (condType c0) ty) eqn:E.
    + apply String.eqb_eq in E. split.
      * intros Hst. exists [], c0, conds. by repeat split.
      * intros (pre & c & post & Heq & Hpre & Hty & Hst).
        destruct pre as [|p pre]; simplify_eq/=; try done.
        by inversion Hpre.
    + apply String.eqb_neq in E. rewrite IH. split.
      * intros (pre & c & post & -> & Hpre & Hty & Hst).
        exists (c0 :: pre), c, post. repeat split; auto.
      * intros (pre & c & post & Heq & Hpre & Hty & Hst).
        destruct pre as [|p pre]; simplify_eq/=; try done.
        inversion Hpre; subst. by exists pre, c, post.
Qed.

Lemma conditionStatusIn_absent (conds : list JobCondition) (ty : string) :
  (forall c, c ∈ conds -> condType c ≠ ty) ->
  conditionStatusIn conds ty = ConditionFalse.
Proof.
  induction conds as [|c0 conds IH]; simpl; [done|]. intros H.
  destruct (String.eqb (condType c0) ty) eqn:E.
  - apply String.eqb_eq in E. exfalso. apply (H c0); [left|done].
  - apply IH. intros c Hc. apply H. by right.
Qed.

Lemma conditionStatusIn_filter (conds : list JobCondition) (ty other : string) :
  other ≠ ty ->
  conditionStatusIn (filter (fun c => condType c ≠ other) conds) ty =
  conditionStatusIn conds ty.
Proof.
  intros Hne. induction conds as [|c0 conds IH]; [done|].
  rewrite filter_cons. simpl. case_decide as Hd; simpl.
  - by rewrite IH.
  - destruct (String.eqb (condType c0) ty) eqn:E; [|done].
    apply String.eqb_eq in E. congruence.
Qed.

Lemma isSuccessful_spec (job : Job) :
  isSuccessful job = true <-> getJobConditionStatus job JobComplete = ConditionTrue.
Proof. unfold isSuccessful. apply String.eqb_eq. Qed.

(** C6, the claim at a job whose list of conditions holds Complete twice,
    first as False and then as True: a condition Complete=True is present,
    and the predicate answers false. *)
Lemma isSuccessful_not_membership :
  let job := {| jobMeta := emptyMeta;
                Conditions := [ {| condType := JobComplete; condStatus := ConditionFalse |};
                                {| condType := JobComplete; condStatus := ConditionTrue |} ] |} in
  ~ (isSuccessful job = true <->
     exists c, c ∈ Conditions job /\ condType c = JobComplete /\ condStatus c = ConditionTrue).
Proof.
  intros job [_ H].
  assert (Hs : isSuccessful job = true).
  { apply H. eexists. split; [right; left|]. done. }
  vm_compute in Hs. discriminate.
Qed.

(** C6, amended: the success predicate is true exactly when the first
    condition of type Complete in the job's list of conditions has status
    True; conditions of type Failed have no effect on it; without a
    condition of type Complete it is false; and where no type occurs twice
    it is true exactly when a condition Complete=True is in the list. *)
Theorem isSuccessful_first_complete (job : Job) :
  (isSuccessful job = true <->
   exists pre c post,
     Conditions job = pre ++ c :: post /\
     Forall (fun c' => condType c' ≠ JobComplete) pre /\
     condType c = JobComplete /\ condStatus c = ConditionTrue) /\
  isSuccessful (withoutFailed job) = isSuccessful job /\
  ((forall c, c ∈ Conditions job -> condType c ≠ JobComplete) -> isSuccessful job = false) /\
  (NoDup (condType <$> Conditions job) ->
   (isSuccessful job = true <->
    exists c, c ∈ Conditions job /\ condType c = JobComplete /\ condStatus c = ConditionTrue)).
Proof.
  split; [|split; [|split]].
  - split; intros H.
    + by apply conditionStatusIn_true, isSuccessful_spec.
    + by apply isSuccessful_spec, conditionStatusIn_true.
  - unfold isSuccessful, getJobConditionStatus, withoutFailed. simpl.
    by rewrite conditionStatusIn_filter.
  - intros H. unfold isSuccessful, getJobConditionStatus.
    by rewrite conditionStatusIn_absent.
  - intros Hnd. split.
    + intros H. apply isSuccessful_spec, conditionStatusIn_true in H.
      destruct H as (pre & c & post & Heq & _ & Hty & Hst).
      exists c. split; [|done]. rewrite Heq. set_solver.
    + intros (c & Hin & Hty & Hst).
      apply isSuccessful_spec, conditionStatusIn_true.
      apply list_elem_of_split in Hin as (pre & post & Heq).
      exists pre, c, post. repeat split; try done.
      rewrite Heq, fmap_app, fmap_cons in Hnd.
      apply NoDup_app in Hnd as (_ & Hdis & _).
      apply Forall_forall. intros c' Hc' Heqty.
      apply (Hdis (condType c')); [by apply list_elem_of_fmap_2|].
      rewrite Heqty, <- Hty. left.
Qed.

Lemma isSuccessful_first_complete_witness :
  isSuccessful {| jobMeta := emptyMeta;
                  Conditions := [ {| condType := JobFailed; condStatus := ConditionTrue |} ] |}
  = false.
Proof.
  apply (isSuccessful_first_complete
           {| jobMeta := emptyMeta;
              Conditions := [ {| condType := JobFailed; condStatus := ConditionTrue |} ] |}).
  intros c Hc. apply list_elem_of_singleton in Hc. subst c. simpl. discriminate.
Defined.

(** ** Running programs *)

Lemma run_bind {W A B : Type} (h : Handler W) (m : Prog A) (f : A -> Prog B) (w : W) :
  run h (bind m f) w =
  let '(a, w1, tr1) := run h m w in
  let '(b, w2, tr2) := run h (f a) w1 in
  (b, w2, tr1 ++ tr2).
Proof.
  revert w. induction m as [a|X c k IH]; intros w; simpl.
  - by destruct (run h (f a) w) as [[b w2] tr2].
  - destruct (h X c w) as [x w1]. rewrite IH.
    destruct (run h (k x) w1) as [[a w2] tr1].
    by destruct (run h (f a) w2) as [[b w3] tr2].
Qed.

(** Inversion of [run h p w = (a, w', tr)] along the program [p]: every
    call is answered by a fresh value, every test gets its two cases. *)
Ltac run_inv H :=
  cbn in H;
  lazymatch type of H with
  | run _ (match ?x with _ => _ end) _ = _ =>
      destruct x eqn:?; run_inv H
  | run _ (bind _ _) _ = _ =>
      rewrite run_bind in H; run_inv H
  | match run ?h ?p ?w with _ => _ end = _ =>
      let Hrun := fresh "Hrun" in
      destruct (run h p w) as [[? ?] ?] eqn:Hrun; run_inv H; run_inv Hrun
  | match ?h ?X ?c ?w with _ => _ end = _ =>
      destruct (h X c w) as [? ?] eqn:?; run_inv H
  | (_, _, _) = (_, _, _) => inversion H; subst; try clear H
  | _ => idtac
  end.

(** ** Deletion guards *)

Lemma hasFinalizerIn_elem (fs : list string) (f : string) :
  hasFinalizerIn fs f = true <-> f ∈ fs.
Proof.
  induction fs as [|g fs IH]; simpl.
  - split; [discriminate|]. by intros ?%elem_of_nil.
  - destruct (String.eqb g f) eqn:E.
    + apply String.eqb_eq in E. subst. split; [left|done].
    + apply String.eqb_neq in E. rewrite IH. set_solver.
Qed.

Lemma elem_of_List (s : gset string) (x : string) : x ∈ List s <-> x ∈ s.
Proof.
  unfold List. rewrite merge_sort_Permutation. apply elem_of_elements.
Qed.

Lemma HasFinalizer_AddFinalizer (m : ObjectMeta) (f : string) :
  HasFinalizer (AddFinalizer m f) f = true.
Proof.
  unfold HasFinalizer, AddFinalizer, NewString. simpl.
  apply hasFinalizerIn_elem, elem_of_List. set_solver.
Qed.

Lemma HasFinalizer_DeleteFinalizer (m : ObjectMeta) (f : string) :
  HasFinalizer (DeleteFinalizer m f) f = false.
Proof.
  unfold HasFinalizer, DeleteFinalizer, NewString. simpl.
  apply not_true_is_false. rewrite hasFinalizerIn_elem, elem_of_List. set_solver.
Qed.

Lemma HasFinalizer_AddFinalizer_other (m : ObjectMeta) (f g : string) :
  HasFinalizer m g = true -> HasFinalizer (AddFinalizer m f) g = true.
Proof.
  unfold HasFinalizer, AddFinalizer, NewString. simpl.
  rewrite !hasFinalizerIn_elem, elem_of_List. set_solver.
Qed.

Lemma HasFinalizer_DeleteFinalizer_other (m : ObjectMeta) (f g : string) :
  g ≠ f -> HasFinalizer (DeleteFinalizer m f) g = HasFinalizer m g.
Proof.
  intros Hne. unfold HasFinalizer, DeleteFinalizer, NewString. simpl.
  apply eq_true_iff_eq. rewrite !hasFinalizerIn_elem, elem_of_List. set_solver.
Qed.

(** ** The access provisioner *)

Section Provisioner.
Context {W : Type} (h : Handler W) `{Ext : Externals}.

Ltac prov_leaf :=
  unfold provisioningOnly, accessProvisioned; rewrite ?Forall_cons, ?Forall_nil; simpl;
  repeat match goal with H : negb _ = _ |- _ => rewrite H end; intuition congruence.

Lemma provisioningOnly_cons (e : Event) (r : result ServiceAccount) (tr : list Event) :
  isProvisioning e = true -> provisioningFailed e = false ->
  provisioningOnly r tr -> provisioningOnly r (e :: tr).
Proof.
  unfold provisioningOnly, accessProvisioned. rewrite !Forall_cons. intuition.
Qed.

Lemma setupRoleBinding_run ns sa w r w' tr :
  run h (setupRoleBinding ns sa) w = (r, w', tr) -> provisioningOnly r tr.
Proof. unfold setupRoleBinding. intros H. run_inv H; prov_leaf. Qed.

Lemma setupRole_run ns sa w r w' tr :
  run h (setupRole ns sa) w = (r, w', tr) -> provisioningOnly r tr.
Proof. unfold setupRole. intros H. run_inv H; prov_leaf. Qed.

Lemma setupClusterInstallServiceAccount_run ns w r w' tr :
  run h (setupClusterInstallServiceAccount ns) w = (r, w', tr) -> provisioningOnly r tr.
Proof. unfold setupClusterInstallServiceAccount. intros H. run_inv H; prov_leaf. Qed.

End Provisioner.

Arguments setupClusterInstallServiceAccount : simpl never.
Arguments updateClusterDeploymentStatus : simpl never.
Arguments syncDeletedClusterDeployment : simpl never.
Arguments reconcileInstall : simpl never.
Arguments reconcileExpiry : simpl never.

(** ** Projections of a record *)

Lemma nows_app (l1 l2 : list Event) : nows (l1 ++ l2) = nows l1 ++ nows l2.
Proof.
  induction l1 as [|e l1 IH]; [done|]. destruct e; simpl; by rewrite ?IH.
Qed.

Lemma nows_provisioning (l : list Event) :
  Forall (fun e => isProvisioning e = true) l -> nows l = [].
Proof. induction 1 as [|e l He _ IH]; [done|]. by destruct e. Qed.

Lemma nows_status cd (l : list Event) : Forall (statusEvent cd) l -> nows l = [].
Proof. induction 1 as [|e l He _ IH]; [done|]. by destruct e. Qed.

Lemma jobEvents_app (l1 l2 : list Event) : jobEvents (l1 ++ l2) = jobEvents l1 ++ jobEvents l2.
Proof. apply filter_app. Qed.

Lemma jobEvents_provisioning (l : list Event) :
  Forall (fun e => isProvisioning e = true) l -> jobEvents l = [].
Proof.
  induction 1 as [|e l He _ IH]; [done|]. unfold jobEvents in *.
  rewrite filter_cons, IH. by destruct e as [| | | | | |[]| | |].
Qed.

Lemma jobEvents_status cd (l : list Event) : Forall (statusEvent cd) l -> jobEvents l = [].
Proof.
  induction 1 as [|e l He _ IH]; [done|]. unfold jobEvents in *.
  rewrite filter_cons, IH. by destruct e.
Qed.

Lemma jobEvents_skip (e : Event) (l : list Event) :
  isJobEvent e = false -> jobEvents (e :: l) = jobEvents l.
Proof. unfold jobEvents. rewrite filter_cons. intros ->. by case_decide. Qed.

Lemma filter_clock (P : Event -> Prop) `{!forall e, Decision (P e)} (ts : list Time) :
  (forall t, ~ P (ENow t)) -> filter P (ENow <$> ts) = [].
Proof.
  intros Hn. induction ts as [|t ts IH]; [done|].
  rewrite fmap_cons, filter_cons, IH. case_decide; [by destruct (Hn t)|done].
Qed.

Lemma resourceMutations_app (l1 l2 : list Event) :
  resourceMutations (l1 ++ l2) = resourceMutations l1 ++ resourceMutations l2.
Proof. apply filter_app. Qed.

Lemma resourceMutations_provisioning (l : list Event) :
  Forall (fun e => isProvisioning e = true) l -> resourceMutations l = [].
Proof.
  induction 1 as [|e l He _ IH]; [done|]. unfold resourceMutations in *.
  rewrite filter_cons, IH. rewrite He. by rewrite andb_false_r.
Qed.

Lemma resourceMutations_skip (e : Event) (l : list Event) :
  is_mutation e = false -> resourceMutations (e :: l) = resourceMutations l.
Proof. unfold resourceMutations. rewrite filter_cons. intros ->. by case_decide. Qed.

Lemma last_skip {A : Type} (x : A) (l : list A) (y : A) :
  last l = Some y -> last (x :: l) = Some y.
Proof. by destruct l. Qed.

Lemma last_app_Some {A : Type} (l1 l2 : list A) (y : A) :
  last l2 = Some y -> last (l1 ++ l2) = Some y.
Proof.
  intros H. induction l1 as [|x l1 IH]; [done|]. by apply last_skip.
Qed.

Lemma mutations_split (l : list Event) :
  Forall (fun e => isProvisioning e = true) l ->
  mutations l = filter (fun e => is_mutation e && isProvisioning e = true) l.
Proof.
  induction 1 as [|e l He _ IH]; [done|]. unfold mutations in *.
  rewrite !filter_cons, IH, He, andb_true_r. done.
Qed.

Lemma elem_of_jobEvents (e : Event) (tr : list Event) :
  e ∈ jobEvents tr <-> e ∈ tr /\ isJobEvent e = true.
Proof. unfold jobEvents. rewrite list_elem_of_filter. tauto. Qed.



(** ** One cycle against any environment *)

Ltac rewrite_tests :=
  repeat match goal with
         | Hx : negb _ = true |- _ => apply negb_true_iff in Hx
         | Hx : negb _ = false |- _ => apply negb_false_iff in Hx
         end;
  repeat match goal with
         | Hx : ?x = _ |- context [?x] => rewrite Hx
         end.

Ltac in_trace := rewrite ?elem_of_cons, ?elem_of_app, ?elem_of_cons; eauto 10.
Ltac not_in Hin :=
  rewrite ?elem_of_cons, ?elem_of_app, ?elem_of_cons, ?elem_of_nil in Hin;
  intuition (try discriminate; simplify_eq; eauto; try congruence).

Ltac split_in Hin :=
  repeat match type of Hin with
         | _ ∈ _ :: _ => apply elem_of_cons in Hin as [Hin|Hin]
         | _ ∈ [] => by apply elem_of_nil in Hin
         | _ = _ => discriminate Hin
         end.

Section Cycle.
Context {W : Type} (h : Handler W) `{Ext : Externals}.

Lemma Reconcile_fetched request w res w' tr cd :
  run h (Reconcile request) w = (res, w', tr) ->
  fetched tr request cd ->
  exists w1 r w2 tr1 tr2,
    h _ (GetClusterDeployment request) w = (Ok cd, w1) /\
    run h (setupClusterInstallServiceAccount (Namespace (cdMeta cd))) w1 = (r, w2, tr1) /\
    tr = EGetClusterDeployment request (Ok cd) :: tr1 ++ tr2 /\
    match r with
    | Err err => res = (emptyResult, Some err) /\ tr2 = [] /\ w' = w2
    | Ok _ =>
        match DeletionTimestamp (cdMeta cd) with
        | Some _ =>
            if HasFinalizer (cdMeta cd) FinalizerDeprovision
            then run h (syncDeletedClusterDeployment cd) w2 = (res, w', tr2)
            else res = (emptyResult, None) /\ tr2 = [] /\ w' = w2
        | None => run h (reconcileExpiry cd) w2 = (res, w', tr2)
        end
    end.
Proof.
  unfold Reconcile, fetched. intros H Hf. run_inv H; simpl in Hf; simplify_eq.
  all: do 5 eexists; split; [reflexivity|]; split; [eassumption|];
       split; [reflexivity|]; cbn; rewrite_tests; auto.
Qed.

Lemma reconcileExpiry_run cd w res w' tr :
  run h (reconcileExpiry cd) w = (res, w', tr) ->
  match Annotations (cdMeta cd) !! deleteAfterAnnotation with
  | None => run h (reconcileInstall cd 0) w = (res, w', tr)
  | Some deleteAfter =>
      match ParseDuration deleteAfter with
      | Err err => tr = [] /\ w' = w /\ exists err', res = (emptyResult, Some err')
      | Ok dur =>
          if Time_IsZero (CreationTimestamp (cdMeta cd))
          then run h (reconcileInstall cd 0) w = (res, w', tr)
          else
            exists now1 w1,
              h _ Now w = (now1, w1) /\
              if Time_After now1 (expiryOf cd dur)
              then exists e, h _ (Delete cd) w1 = (e, w') /\
                             tr = [ENow now1; EDelete cd e] /\ res = (emptyResult, None)
              else exists now2 w2 tr',
                  h _ Now w1 = (now2, w2) /\
                  tr = ENow now1 :: ENow now2 :: tr' /\
                  run h (reconcileInstall cd
                           (Duration_add (Time_Sub (expiryOf cd dur) now2) (60 * Second)))
                    w2 = (res, w', tr')
      end
  end.
Proof.
  unfold reconcileExpiry, expiryOf. intros H.
  destruct (Annotations (cdMeta cd) !! deleteAfterAnnotation) as [a|]; [|done].
  destruct (ParseDuration a) as [dur|err].
  - destruct (Time_IsZero (CreationTimestamp (cdMeta cd))); [done|].
    run_inv H.
    + eexists _, _. split; [reflexivity|]. rewrite_tests. eauto.
    + eexists _, _. split; [reflexivity|]. rewrite_tests. eauto 10.
  - run_inv H. eauto.
Qed.

Lemma clusterIDOf_ok (objMap : gmap string JSON) :
  (exists uuid, clusterIDOf objMap = Ok uuid) <-> hasClusterID objMap.
Proof.
  unfold clusterIDOf, hasClusterID, asMap, asString. split.
  - intros [uuid H].
    destruct (objMap !! "aws") as [[| | | | |aws]|] eqn:E1; try discriminate.
    destruct (aws !! "identifier") as [[| | | | |identifier]|] eqn:E2; try discriminate.
    destruct (identifier !! "tectonicClusterID") as [[| | |s| |]|] eqn:E3; try discriminate.
    eauto 10.
  - intros (aws & identifier & uuid & -> & -> & ->). eauto.
Qed.

(** The status update on its own: with the computed status installed, the
    cluster identifier unset and an unusable answer to the lookup of the
    metadata artifact, it returns an error after that single call. *)
Lemma updateClusterDeploymentStatus_aborts cd job w r w1 :
  computedInstalled cd job = true ->
  ClusterUUID (Status cd) = "" ->
  h _ (GetConfigMap (metadataKey cd)) w = (r, w1) ->
  metadataUnusable r ->
  exists err,
    run h (updateClusterDeploymentStatus cd job) w = (Some err, w1, [EGetConfigMap (metadataKey cd) r]).
Proof.
  unfold computedInstalled, metadataUnusable, metadataKey, updateClusterDeploymentStatus.
  intros Hinst Huuid Hget Hbad.
  destruct job as [job|]; cbn; rewrite Hinst, Huuid; cbn;
    (rewrite bool_decide_eq_true_2 by done); cbn; rewrite Hget.
  all: destruct r as [cm|err]; [|by eexists].
  all: destruct (Unmarshal (default "" (Data cm !! "metadata.json"))) as [objMap|err];
    [|by eexists].
  all: destruct (clusterIDOf objMap) as [uuid|err] eqn:E; [|by eexists].
  all: exfalso; apply Hbad, clusterIDOf_ok; eauto.
Qed.

Lemma updateClusterDeploymentStatus_run cd job w e w' tr :
  run h (updateClusterDeploymentStatus cd job) w = (e, w', tr) ->
  Forall (statusEvent cd) tr.
Proof.
  unfold updateClusterDeploymentStatus, persistStatus. intros H.
  destruct job as [job|]; run_inv H; repeat constructor; cbn; done.
Qed.

Lemma syncDeletedClusterDeployment_run cd w res w' tr :
  run h (syncDeletedClusterDeployment cd) w = (res, w', tr) ->
  match uninstallJobOf cd with
  | Err err => tr = [] /\ res = (emptyResult, Some err) /\ w' = w
  | Ok job =>
      exists r w1,
        h _ (GetJob (objectKey (jobMeta job))) w = (r, w1) /\
        match r with
        | Err err =>
            if IsNotFound err
            then exists e, tr = [EGetJob (objectKey (jobMeta job)) r; ECreate (OJob job) e] /\
                           res = (emptyResult, e)
            else tr = [EGetJob (objectKey (jobMeta job)) r] /\ res = (emptyResult, Some err)
        | Ok existingJob =>
            if isSuccessful existingJob
            then exists e,
                tr = [EGetJob (objectKey (jobMeta job)) r; EUpdate (released cd) e] /\
                res = (emptyResult, e)
            else tr = [EGetJob (objectKey (jobMeta job)) r] /\ res = (emptyResult, None)
        end
  end.
Proof.
  unfold syncDeletedClusterDeployment, uninstallJobOf, removeClusterDeploymentFinalizer.
  intros H.
  destruct (GenerateUninstallerJob cd installerImage PullAlways) as [gen|err];
    [|by run_inv H].
  destruct (SetControllerReference cd gen) as [job|err]; [|by run_inv H].
  run_inv H; eexists _, _; (split; [reflexivity|]); cbn; rewrite_tests; eauto.
Qed.

Lemma cycle_elem e request cd r tr1 tr2 :
  provisioningOnly r tr1 ->
  isProvisioning e = false ->
  e ∈ EGetClusterDeployment request (Ok cd) :: tr1 ++ tr2 ->
  e = EGetClusterDeployment request (Ok cd) \/ e ∈ tr2.
Proof.
  intros [Hp _] He Hin. apply elem_of_cons in Hin as [Hin|Hin]; [by left|].
  apply elem_of_app in Hin as [Hin|Hin]; [|by right].
  rewrite Forall_forall in Hp. apply Hp in Hin. congruence.
Qed.

(** The record of a cycle on a resource that has the deprovision guard and
    a deletion request: an update without the guard is in it exactly when
    a lookup of the uninstall job that found a successful job is in it;
    that update is then the last call and the only write on the resource,
    and otherwise the record holds no update and no delete. *)
Lemma guard_removal_record request w res w' tr cd :
  run h (Reconcile request) w = (res, w', tr) ->
  fetched tr request cd ->
  HasFinalizer (cdMeta cd) FinalizerDeprovision = true ->
  is_Some (DeletionTimestamp (cdMeta cd)) ->
  let removed :=
    exists cd' e, EUpdate cd' e ∈ tr /\
                  HasFinalizer (cdMeta cd') FinalizerDeprovision = false in
  let complete :=
    exists job existingJob,
      uninstallJobOf cd = Ok job /\
      EGetJob (objectKey (jobMeta job)) (Ok existingJob) ∈ tr /\
      isSuccessful existingJob = true in
  (removed <-> complete) /\
  (complete ->
   exists e, last tr = Some (EUpdate (released cd) e) /\
             resourceMutations tr = [EUpdate (released cd) e] /\
             res = (emptyResult, e)) /\
  (~ complete -> forall cd' e, (EUpdate cd' e ∉ tr) /\ (EDelete cd' e ∉ tr)).
Proof.
  intros Hrun Hf Hg [t Hdel] removed complete.
  destruct (Reconcile_fetched _ _ _ _ _ _ Hrun Hf)
    as (w1 & r & w2 & tr1 & tr2 & Hget & Hsetup & -> & Hrest).
  apply setupClusterInstallServiceAccount_run in Hsetup. clear Hrun Hf.
  rewrite Hdel, Hg in Hrest.
  assert (Hin2 : forall e, isProvisioning e = false ->
                   e ≠ EGetClusterDeployment request (Ok cd) ->
                   e ∈ EGetClusterDeployment request (Ok cd) :: tr1 ++ tr2 -> e ∈ tr2).
  { intros e He Hne Hin. by eapply cycle_elem in Hin as [->|]. }
  assert (Hcomplete : complete -> exists job existingJob,
             uninstallJobOf cd = Ok job /\
             EGetJob (objectKey (jobMeta job)) (Ok existingJob) ∈ tr2 /\
             isSuccessful existingJob = true).
  { intros (job & existingJob & Hj & Hin & Hs). exists job, existingJob.
    repeat split; try done. by apply Hin2. }
  assert (Hremoved : removed -> exists cd' e,
             EUpdate cd' e ∈ tr2 /\
             HasFinalizer (cdMeta cd') FinalizerDeprovision = false).
  { intros (cd' & e & Hin & Hs). exists cd', e. split; [|done]. by apply Hin2. }
  assert (Hquiet : (forall cd' e, (EUpdate cd' e ∉ tr2) /\ (EDelete cd' e ∉ tr2)) ->
                   (forall job existingJob,
                       EGetJob (objectKey (jobMeta job)) (Ok existingJob) ∈ tr2 ->
                       uninstallJobOf cd = Ok job -> isSuccessful existingJob = false) ->
                   (removed <-> complete) /\
                   (complete ->
                    exists e,
                      last (EGetClusterDeployment request (Ok cd) :: tr1 ++ tr2) =
                        Some (EUpdate (released cd) e) /\
                      resourceMutations (EGetClusterDeployment request (Ok cd) :: tr1 ++ tr2) =
                        [EUpdate (released cd) e] /\
                      res = (emptyResult, e)) /\
                   (~ complete ->
                    forall cd' e,
                      (EUpdate cd' e ∉ EGetClusterDeployment request (Ok cd) :: tr1 ++ tr2) /\
                      (EDelete cd' e ∉ EGetClusterDeployment request (Ok cd) :: tr1 ++ tr2))).
  { intros Hnone Hnot.
    assert (Hnc : ~ complete).
    { intros (job & existingJob & Hj & Hin & Hs)%Hcomplete.
      rewrite (Hnot _ _ Hin Hj) in Hs. discriminate. }
    split; [split|split]; try done.
    - intros (cd' & e & Hin & _)%Hremoved. by apply (Hnone cd' e) in Hin.
    - intros _ cd' e. split; intros Hin%Hin2; try done; by apply (Hnone cd' e) in Hin. }
  destruct r as [sa|err].
  - apply syncDeletedClusterDeployment_run in Hrest.
    destruct (uninstallJobOf cd) as [job|err] eqn:Hj.
    + destruct Hrest as (r & w3 & Hjob & Hrest).
      destruct r as [existingJob|err].
      * destruct (isSuccessful existingJob) eqn:Hs.
        -- destruct Hrest as (e & -> & ->).
           assert (Hc : complete).
           { exists job, existingJob. repeat split; try done. in_trace. }
           split; [|split; [|done]].
           ++ split; [done|]. intros _.
              eexists _, e. split; [in_trace|]. apply HasFinalizer_DeleteFinalizer.
           ++ intros _. exists e. destruct Hsetup as [Hprov _].
              split; [by apply last_skip, last_app_Some|].
              split; [|done].
              rewrite resourceMutations_skip, resourceMutations_app by done.
              rewrite (resourceMutations_provisioning _ Hprov).
              unfold resourceMutations. rewrite !filter_cons, filter_nil. done.
        -- destruct Hrest as [-> ->]. apply Hquiet.
           ++ intros cd' e. split; intros Hin; split_in Hin.
           ++ intros job' ej Hin Hj'. split_in Hin. by simplify_eq.
      * apply Hquiet.
        -- destruct (IsNotFound err);
             [destruct Hrest as (e0 & -> & ->)|destruct Hrest as [-> ->]];
             intros cd' e; split; intros Hin; split_in Hin.
        -- destruct (IsNotFound err);
             [destruct Hrest as (e0 & -> & ->)|destruct Hrest as [-> ->]];
             intros job' ej Hin Hj'; split_in Hin.
    + destruct Hrest as (-> & -> & ->). apply Hquiet.
      * intros cd' e. split; intros Hin; split_in Hin.
      * intros job' ej Hin Hj'. split_in Hin.
  - destruct Hrest as (-> & -> & ->). apply Hquiet.
    + intros cd' e. split; intros Hin; split_in Hin.
    + intros job' ej Hin Hj'. split_in Hin.
Qed.
End Cycle.

(** ** The active path *)

Section Active.
Context {W : Type} (h : Handler W) `{Ext : Externals}.


Lemma reconcileInstall_run cd d w res w' tr :
  run h (reconcileInstall cd d) w = (res, w', tr) ->
  if HasFinalizer (cdMeta cd) FinalizerDeprovision then
    match installJobOf cd with
    | Err err => tr = [] /\ res = (emptyResult, Some err) /\ w' = w
    | Ok job =>
        exists r w1 creates rest,
          h _ (GetJob (objectKey (jobMeta job))) w = (r, w1) /\
          tr = EGetJob (objectKey (jobMeta job)) r :: creates ++ rest /\
          (creates = [] /\ shouldCreate cd r = false \/
           exists e, creates = [ECreate (OJob job) e] /\ shouldCreate cd r = true) /\
          Forall (statusEvent cd) rest /\
          res.1 = match res.2 with
                  | None => {| Requeue := bool_decide (d ≠ 0); RequeueAfter := d |}
                  | Some _ => emptyResult
                  end
    end
  else
    exists e, h _ (Update (guarded cd)) w = (e, w') /\
              tr = [EUpdate (guarded cd) e] /\ res = (emptyResult, e).
Proof.
  unfold reconcileInstall, installJobOf, addClusterDeploymentFinalizer, guarded. intros H.
  destruct (HasFinalizer (cdMeta cd) FinalizerDeprovision).
  - cbn in H.
    destruct (SetControllerReference cd _) as [job|err]; [|by run_inv H].
    run_inv H.
    all: eexists _, _, _, _; split; [reflexivity|]; split; [reflexivity|].
    all: cbn; rewrite_tests; cbn.
    all: split; [eauto|].
    all: split; [rewrite ?app_nil_r; eauto using updateClusterDeploymentStatus_run|].
    all: try done.
    all: apply bool_decide_eq_false, dec_stable in Heqb; by subst.
  - run_inv H. eauto.
Qed.

Lemma reconcileInstall_lookup cd d w res w' tr key r :
  run h (reconcileInstall cd d) w = (res, w', tr) ->
  EGetConfigMap key r ∈ tr ->
  metadataUnusable r ->
  (exists err, res = (emptyResult, Some err)) /\
  last tr = Some (EGetConfigMap key r) /\
  resourceMutations tr = [].
Proof.
  unfold reconcileInstall, updateClusterDeploymentStatus, persistStatus,
    addClusterDeploymentFinalizer, metadataUnusable.
  intros H Hin Hbad.
  run_inv H.
  all: cbn [app] in Hin |- *; split_in Hin.
  all: simplify_eq; cbn in Hbad.
  all: try (rewrite_tests; fail).
  all: repeat match goal with
              | Hx : Unmarshal _ = _ |- _ => rewrite Hx in Hbad
              end.
  all: try (exfalso; apply Hbad, clusterIDOf_ok; eauto; fail).
  all: split; [eauto|]; split; [reflexivity|].
  all: unfold resourceMutations; rewrite ?filter_cons, ?filter_nil; cbn; done.
Qed.

Lemma cycle_aborts_at_lookup request w res w' tr cd key r :
  run h (Reconcile request) w = (res, w', tr) ->
  fetched tr request cd ->
  EGetConfigMap key r ∈ tr ->
  metadataUnusable r ->
  (exists err, res = (emptyResult, Some err)) /\
  last tr = Some (EGetConfigMap key r) /\
  resourceMutations tr = [].
Proof.
  intros Hrun Hf Hin Hbad.
  destruct (Reconcile_fetched _ _ _ _ _ _ _ Hrun Hf)
    as (w1 & rs & w2 & tr1 & tr2 & Hget & Hsetup & -> & Hrest).
  apply setupClusterInstallServiceAccount_run in Hsetup. clear Hrun Hf.
  eapply cycle_elem in Hin as [Hin|Hin]; [discriminate| |exact Hsetup|done].
  destruct Hsetup as [Hprov _].
  assert (Hlift : forall tr3,
             (exists ts, tr2 = (ENow <$> ts) ++ tr3) ->
             ((exists err, res = (emptyResult, Some err)) /\
              last tr3 = Some (EGetConfigMap key r) /\
              resourceMutations tr3 = []) ->
             (exists err, res = (emptyResult, Some err)) /\
             last (EGetClusterDeployment request (Ok cd) :: tr1 ++ tr2) =
               Some (EGetConfigMap key r) /\
             resourceMutations (EGetClusterDeployment request (Ok cd) :: tr1 ++ tr2) = []).
  { intros tr3 [ts ->] (Hres & Hlast & Hrm). split; [done|]. split.
    - by apply last_skip, last_app_Some, last_app_Some.
    - rewrite resourceMutations_skip, !resourceMutations_app by done.
      rewrite (resourceMutations_provisioning _ Hprov), Hrm.
      unfold resourceMutations. rewrite filter_clock by (intros t; cbn; congruence). done. }
  destruct rs as [sa|err]; [|destruct Hrest as (_ & -> & _); by apply elem_of_nil in Hin].
  destruct (DeletionTimestamp (cdMeta cd)).
  - exfalso. destruct (HasFinalizer (cdMeta cd) FinalizerDeprovision).
    + apply syncDeletedClusterDeployment_run in Hrest.
      destruct (uninstallJobOf cd) as [job|err].
      * destruct Hrest as (rj & w4 & _ & Hs).
        destruct rj as [existingJob|err];
          [destruct (isSuccessful existingJob)|destruct (IsNotFound err)];
          try destruct Hs as (e & -> & ->); try destruct Hs as (-> & ->);
          split_in Hin.
      * destruct Hrest as (-> & _). split_in Hin.
    + destruct Hrest as (_ & -> & _). split_in Hin.
  - apply reconcileExpiry_run in Hrest.
    destruct (Annotations (cdMeta cd) !! deleteAfterAnnotation) as [a|].
    + destruct (ParseDuration a) as [dur|err].
      * destruct (Time_IsZero (CreationTimestamp (cdMeta cd))).
        -- apply (Hlift tr2); [by exists []|]. by eapply reconcileInstall_lookup.
        -- destruct Hrest as (now1 & w3 & _ & Hrest).
           destruct (Time_After now1 (expiryOf cd dur)).
           ++ destruct Hrest as (e & _ & -> & _). split_in Hin.
           ++ destruct Hrest as (now2 & w4 & tr' & _ & -> & Hi).
              split_in Hin.
              apply (Hlift tr'); [by exists [now1; now2]|].
              by eapply reconcileInstall_lookup.
      * destruct Hrest as (-> & _). split_in Hin.
    + apply (Hlift tr2); [by exists []|]. by eapply reconcileInstall_lookup.
Qed.
(** C7: when the computed status is installed and the cluster identifier is
    unset, and the lookup of the metadata artifact named after the resource
    fails, or its payload does not decode, or the decoded payload has no
    string under aws, identifier, tectonicClusterID, the status update
    returns an error and its only call on the store is that lookup; and a
    cycle on the resource that gets this answer to the lookup ends with it
    and returns an error, having issued no update or delete of the resource
    and no creation of a job: the stored resource, its guard and the work
    item stay as they are. *)
Theorem status_update_aborts_without_cluster_id cd job w r w1 :
  computedInstalled cd job = true ->
  ClusterUUID (Status cd) = "" ->
  h _ (GetConfigMap (metadataKey cd)) w = (r, w1) ->
  metadataUnusable r ->
  (exists err,
      run h (updateClusterDeploymentStatus cd job) w =
      (Some err, w1, [EGetConfigMap (metadataKey cd) r])) /\
  (forall request w0 res w' tr,
      run h (Reconcile request) w0 = (res, w', tr) ->
      fetched tr request cd ->
      EGetConfigMap (metadataKey cd) r ∈ tr ->
      (exists err, res = (emptyResult, Some err)) /\
      last tr = Some (EGetConfigMap (metadataKey cd) r) /\
      resourceMutations tr = []).
Proof.
  intros Hinst Huuid Hget Hbad. split.
  - by apply updateClusterDeploymentStatus_aborts.
  - intros request w0 res w' tr Hrun Hf Hin. by eapply cycle_aborts_at_lookup.
Qed.

(** C10: for a resource whose creation timestamp is the zero value, no cycle
    issues a delete, reads the clock or returns a retry delay, whatever the
    delete-after annotation holds; with a parseable annotation the cycle
    goes on exactly as it does without an expiry policy. *)
Theorem zero_creation_disables_expiry request w res w' tr cd :
  run h (Reconcile request) w = (res, w', tr) ->
  fetched tr request cd ->
  Time_IsZero (CreationTimestamp (cdMeta cd)) = true ->
  (forall cd' e, EDelete cd' e ∉ tr) /\
  nows tr = [] /\
  res.1 = emptyResult /\
  (forall deleteAfter dur,
      Annotations (cdMeta cd) !! deleteAfterAnnotation = Some deleteAfter ->
      ParseDuration deleteAfter = Ok dur ->
      reconcileExpiry cd = reconcileInstall cd 0).
Proof.
  intros Hrun Hf Hz.
  destruct (Reconcile_fetched _ _ _ _ _ _ _ Hrun Hf)
    as (w1 & r & w2 & tr1 & tr2 & Hget & Hsetup & -> & Hrest).
  apply setupClusterInstallServiceAccount_run in Hsetup. clear Hrun Hf.
  assert (Hinstall : forall w2,
             run h (reconcileInstall cd 0) w2 = (res, w', tr2) ->
             res.1 = emptyResult /\ nows tr2 = [] /\ forall cd' e, EDelete cd' e ∉ tr2).
  { intros w3 Hi. apply reconcileInstall_run in Hi.
    destruct (HasFinalizer (cdMeta cd) FinalizerDeprovision).
    - destruct (installJobOf cd) as [job|err].
      + destruct Hi as (rj & w4 & creates & rest & _ & -> & Hc & Hst & Hres).
        split; [|split].
        * rewrite Hres. by destruct (res.2).
        * cbn. rewrite nows_app, (nows_status _ _ Hst).
          by destruct Hc as [[-> _]|(e & -> & _)].
        * intros cd' e Hin. rewrite Forall_forall in Hst.
          destruct Hc as [[-> _]|(e' & -> & _)];
            rewrite ?elem_of_cons, ?elem_of_app, ?elem_of_cons, ?elem_of_nil in Hin;
            intuition (try discriminate);
            match goal with Hx : _ ∈ rest |- _ => by apply Hst in Hx end.
      + destruct Hi as (-> & -> & _). repeat split; try done.
        intros ? ?. apply not_elem_of_nil.
    - destruct Hi as (e & _ & -> & ->). repeat split; try done.
      intros ? ? Hin. not_in Hin. }
  assert (Hsync : forall w2,
             run h (syncDeletedClusterDeployment cd) w2 = (res, w', tr2) ->
             res.1 = emptyResult /\ nows tr2 = [] /\ forall cd' e, EDelete cd' e ∉ tr2).
  { intros w3 Hs. apply syncDeletedClusterDeployment_run in Hs.
    destruct (uninstallJobOf cd) as [job|err].
    - destruct Hs as (rj & w4 & _ & Hs).
      destruct rj as [existingJob|err];
        [destruct (isSuccessful existingJob)|destruct (IsNotFound err)];
        try destruct Hs as (e & -> & ->); try destruct Hs as (-> & ->);
        repeat split; try done; intros ? ? Hin; not_in Hin.
    - destruct Hs as (-> & -> & _). repeat split; try done.
      intros ? ?. apply not_elem_of_nil. }
  assert (Hshape : res.1 = emptyResult /\ nows tr2 = [] /\ forall cd' e, EDelete cd' e ∉ tr2).
  { destruct r as [sa|err].
    - destruct (DeletionTimestamp (cdMeta cd)).
      + destruct (HasFinalizer (cdMeta cd) FinalizerDeprovision); [by eapply Hsync|].
        destruct Hrest as (-> & -> & _). repeat split; try done.
        intros ? ?. apply not_elem_of_nil.
      + apply reconcileExpiry_run in Hrest.
        destruct (Annotations (cdMeta cd) !! deleteAfterAnnotation) as [a|];
          [|by eapply Hinstall].
        destruct (ParseDuration a) as [dur|err].
        * rewrite Hz in Hrest. by eapply Hinstall.
        * destruct Hrest as (-> & _ & err' & ->). repeat split; try done.
          intros ? ?. apply not_elem_of_nil.
    - destruct Hrest as (-> & -> & _). repeat split; try done.
      intros ? ?. apply not_elem_of_nil. }
  destruct Hshape as (Hres & Hnow & Hdel). destruct Hsetup as [Hprov _].
  split; [|split; [|split]].
  - intros cd' e Hin. apply elem_of_cons in Hin as [Hin|Hin]; [discriminate|].
    apply elem_of_app in Hin as [Hin|Hin]; [|by eapply Hdel].
    rewrite Forall_forall in Hprov. by apply Hprov in Hin.
  - cbn. by rewrite nows_app, nows_provisioning, Hnow.
  - done.
  - intros a dur Ha Hp. unfold reconcileExpiry. by rewrite Ha, Hp, Hz.
Qed.

Lemma install_job_events cd d w res w' tr :
  HasFinalizer (cdMeta cd) FinalizerDeprovision = true ->
  run h (reconcileInstall cd d) w = (res, w', tr) ->
  jobEvents tr = [] \/
  exists job r,
    installJobOf cd = Ok job /\
    (jobEvents tr = [EGetJob (objectKey (jobMeta job)) r] /\ shouldCreate cd r = false \/
     exists e, jobEvents tr = [EGetJob (objectKey (jobMeta job)) r; ECreate (OJob job) e] /\
               shouldCreate cd r = true).
Proof.
  intros Hg Hi. apply reconcileInstall_run in Hi. rewrite Hg in Hi.
  destruct (installJobOf cd) as [job|err]; [|destruct Hi as (-> & _); by left].
  destruct Hi as (rj & w4 & creates & rest & _ & -> & Hc & Hst & _).
  right. exists job, rj. split; [done|].
  change (EGetJob (objectKey (jobMeta job)) rj :: creates ++ rest)
    with ([EGetJob (objectKey (jobMeta job)) rj] ++ creates ++ rest).
  rewrite !jobEvents_app, (jobEvents_status _ _ Hst), app_nil_r.
  destruct Hc as [[-> Hc]|(e & -> & Hc)]; [left|right; exists e]; done.
Qed.

Lemma active_job_events request w res w' tr cd :
  run h (Reconcile request) w = (res, w', tr) ->
  fetched tr request cd ->
  DeletionTimestamp (cdMeta cd) = None ->
  HasFinalizer (cdMeta cd) FinalizerDeprovision = true ->
  jobEvents tr = [] \/
  exists job r,
    installJobOf cd = Ok job /\
    (jobEvents tr = [EGetJob (objectKey (jobMeta job)) r] /\ shouldCreate cd r = false \/
     exists e, jobEvents tr = [EGetJob (objectKey (jobMeta job)) r; ECreate (OJob job) e] /\
               shouldCreate cd r = true).
Proof.
  intros Hrun Hf Hdel Hg.
  destruct (Reconcile_fetched _ _ _ _ _ _ _ Hrun Hf)
    as (w1 & r & w2 & tr1 & tr2 & Hget & Hsetup & -> & Hrest).
  apply setupClusterInstallServiceAccount_run in Hsetup as [Hprov _]. clear Hrun Hf.
  rewrite jobEvents_skip by done.
  rewrite jobEvents_app, (jobEvents_provisioning _ Hprov). cbn.
  destruct r as [sa|err]; [|destruct Hrest as (_ & -> & _); by left].
  rewrite Hdel in Hrest. apply reconcileExpiry_run in Hrest.
  destruct (Annotations (cdMeta cd) !! deleteAfterAnnotation) as [a|];
    [|by eapply install_job_events].
  destruct (ParseDuration a) as [dur|err]; [|destruct Hrest as (-> & _); by left].
  destruct (Time_IsZero (CreationTimestamp (cdMeta cd))); [by eapply install_job_events|].
  destruct Hrest as (now1 & w3 & _ & Hrest).
  destruct (Time_After now1 (expiryOf cd dur)).
  - destruct Hrest as (e & _ & -> & _). by left.
  - destruct Hrest as (now2 & w4 & tr' & _ & -> & Hi).
    rewrite !jobEvents_skip by done. by eapply install_job_events.
Qed.

(** The record of a cycle on a resource that has the guard and no
    deletion request: a job creation is in it exactly when a not-found
    lookup of the install job is in it and the resource is not marked
    installed; the creation follows that lookup, and there is at most one. *)
Lemma install_creation_record request w res w' tr cd :
  run h (Reconcile request) w = (res, w', tr) ->
  fetched tr request cd ->
  DeletionTimestamp (cdMeta cd) = None ->
  HasFinalizer (cdMeta cd) FinalizerDeprovision = true ->
  ((exists job e, ECreate (OJob job) e ∈ tr) <->
   (exists job err,
       installJobOf cd = Ok job /\
       EGetJob (objectKey (jobMeta job)) (Err err) ∈ tr /\
       IsNotFound err = true /\ Installed (Status cd) = false)) /\
  (forall job e,
      ECreate (OJob job) e ∈ tr ->
      installJobOf cd = Ok job /\
      exists err,
        IsNotFound err = true /\
        jobEvents tr = [EGetJob (objectKey (jobMeta job)) (Err err); ECreate (OJob job) e]) /\
  ((exists key existingJob, EGetJob key (Ok existingJob) ∈ tr) ->
   forall job e, ECreate (OJob job) e ∉ tr) /\
  (length (filter (fun e => isJobCreate e = true) tr) <= 1)%nat.
Proof.
  intros Hrun Hf Hdel Hg.
  pose proof (active_job_events _ _ _ _ _ _ Hrun Hf Hdel Hg) as Hj.
  assert (Hcreate : forall job e, ECreate (OJob job) e ∈ tr <->
                                  ECreate (OJob job) e ∈ jobEvents tr).
  { intros job e. rewrite elem_of_jobEvents. cbn. tauto. }
  assert (Hget : forall key r, EGetJob key r ∈ tr <-> EGetJob key r ∈ jobEvents tr).
  { intros key r. rewrite elem_of_jobEvents. cbn. tauto. }
  assert (Hcount : filter (fun e => isJobCreate e = true) tr =
                   filter (fun e => isJobCreate e = true) (jobEvents tr)).
  { unfold jobEvents. clear. induction tr as [|e tr IH]; [done|].
    rewrite !filter_cons.
    destruct e as [| | | | | |[]| | |]; cbn; rewrite ?filter_cons; cbn; by rewrite ?IH. }
  rewrite Hcount. clear Hcount Hrun Hf.
  setoid_rewrite Hcreate. setoid_rewrite Hget. clear Hcreate Hget.
  destruct Hj as [->|(job & r & Hjob & [[-> Hc]|(e & -> & Hc)])].
  - split; [split|split; [|split]].
    + intros (? & ? & Hin). not_in Hin.
    + intros (? & ? & ? & Hin & ?). not_in Hin.
    + intros ? ? Hin. not_in Hin.
    + intros _ ? ? Hin. not_in Hin.
    + rewrite ?filter_cons, ?filter_nil; cbn; auto.
  - split; [split|split; [|split]].
    + intros (? & ? & Hin). not_in Hin.
    + intros (? & ? & ? & Hin & Hnf & Hinst).
      apply list_elem_of_singleton in Hin. simplify_eq. cbn in Hc.
      rewrite Hnf, Hinst in Hc. done.
    + intros ? ? Hin. not_in Hin.
    + intros _ ? ? Hin. not_in Hin.
    + rewrite ?filter_cons, ?filter_nil; cbn; auto.
  - destruct r as [existingJob|err]; [done|]. cbn in Hc.
    apply andb_true_iff in Hc as [Hnf Hinst]. apply negb_true_iff in Hinst.
    split; [split|split; [|split]].
    + intros _. exists job, err. repeat split; try done. in_trace.
    + intros _. exists job, e. in_trace.
    + intros job0 e0 Hin.
      assert (job0 = job /\ e0 = e) as [-> ->].
      { rewrite !elem_of_cons, elem_of_nil in Hin.
        destruct Hin as [Hin|[Hin|[]]]; [discriminate|by simplify_eq]. }
      split; [done|]. by exists err.
    + intros (? & ? & Hin). not_in Hin.
    + rewrite ?filter_cons, ?filter_nil; cbn; auto.
Qed.

Lemma Forall_provisioning_filter (tr1 : list Event) :
  Forall (fun e => isProvisioning e = true) tr1 ->
  resourceMutations tr1 = [] /\ jobEvents tr1 = [] /\ nows tr1 = [] /\
  mutations tr1 = filter (fun e => is_mutation e && isProvisioning e = true) tr1.
Proof.
  intros Hp. split; [by apply resourceMutations_provisioning|].
  split; [by apply jobEvents_provisioning|].
  split; [by apply nows_provisioning|by apply mutations_split].
Qed.

(** C4, amended: in a cycle on a resource with no deletion request and
    without the guard, in which no call of the access provisioner fails and
    the expiry policy is absent or not expired, the only write besides the
    access provisioner's creations is one update of the resource that adds
    the guard and keeps its status; it is the last call of the cycle, its
    answer is the cycle's error, and no job is looked up or created. *)
Theorem guard_added_before_install request w res w' tr cd :
  run h (Reconcile request) w = (res, w', tr) ->
  fetched tr request cd ->
  DeletionTimestamp (cdMeta cd) = None ->
  HasFinalizer (cdMeta cd) FinalizerDeprovision = false ->
  accessProvisioned tr ->
  expiryPasses cd tr ->
  exists e,
    resourceMutations tr = [EUpdate (guarded cd) e] /\
    mutations tr =
      filter (fun e => is_mutation e && isProvisioning e = true) tr ++ [EUpdate (guarded cd) e] /\
    last tr = Some (EUpdate (guarded cd) e) /\
    res = (emptyResult, e) /\
    jobEvents tr = [] /\
    HasFinalizer (cdMeta (guarded cd)) FinalizerDeprovision = true /\
    Status (guarded cd) = Status cd.
Proof.
  intros Hrun Hf Hdel Hg Hacc Hexp.
  destruct (Reconcile_fetched _ _ _ _ _ _ _ Hrun Hf)
    as (w1 & r & w2 & tr1 & tr2 & Hget & Hsetup & -> & Hrest).
  apply setupClusterInstallServiceAccount_run in Hsetup as [Hprov Hok]. clear Hrun Hf.
  destruct (Forall_provisioning_filter _ Hprov) as (Hrm & Hje & Hnw & Hmu).
  assert (Hacc1 : accessProvisioned tr1).
  { unfold accessProvisioned in *. rewrite Forall_cons, Forall_app in Hacc. tauto. }
  apply Hok in Hacc1. destruct r as [sa|err]; [clear Hacc1 Hok|done].
  rewrite Hdel in Hrest.
  assert (Hshape : exists ts e, tr2 = (ENow <$> ts) ++ [EUpdate (guarded cd) e] /\
                                res = (emptyResult, e)).
  { assert (Hi : forall d w3 tr3, run h (reconcileInstall cd d) w3 = (res, w', tr3) ->
                   exists e, tr3 = [EUpdate (guarded cd) e] /\ res = (emptyResult, e)).
    { intros d w3 tr3 Hi. apply reconcileInstall_run in Hi. rewrite Hg in Hi.
      destruct Hi as (e & _ & -> & ->). by exists e. }
    apply reconcileExpiry_run in Hrest. unfold expiryPasses in Hexp.
    destruct (Annotations (cdMeta cd) !! deleteAfterAnnotation) as [a|].
    - destruct (ParseDuration a) as [dur|err]; [|done].
      destruct (Time_IsZero (CreationTimestamp (cdMeta cd))).
      + apply Hi in Hrest as (e & -> & ->). by exists [], e.
      + destruct Hexp as [|(now & Hnow & Hafter)]; [done|].
        destruct Hrest as (now1 & w3 & _ & Hrest).
        destruct (Time_After now1 (expiryOf cd dur)) eqn:Ha.
        * destruct Hrest as (e & _ & -> & _). cbn in Hnow.
          rewrite nows_app, Hnw in Hnow. cbn in Hnow. congruence.
        * destruct Hrest as (now2 & w4 & tr' & _ & -> & Hrest).
          apply Hi in Hrest as (e & -> & ->). by exists [now1; now2], e.
    - apply Hi in Hrest as (e & -> & ->). by exists [], e. }
  destruct Hshape as (ts & e & -> & ->). exists e.
  pose proof (fun P HP => @filter_clock P HP ts) as Hclock.
  split; [|split; [|split; [|split; [|split; [|split]]]]].
  - unfold resourceMutations in *.
    rewrite filter_cons, !filter_app, Hrm, Hclock by (intros t; cbn; congruence). done.
  - unfold mutations in *.
    rewrite !filter_cons, !filter_app, Hmu, !Hclock by (intros t; cbn; congruence).
    cbn. by rewrite app_nil_r.
  - rewrite app_comm_cons, app_assoc. apply last_snoc.
  - done.
  - unfold jobEvents in *.
    rewrite filter_cons, !filter_app, Hje, Hclock by (intros t; cbn; congruence). done.
  - apply HasFinalizer_AddFinalizer.
  - done.
Qed.



(** In any environment: when the lookup of the install job of an installed
    resource says not-found, the install phase creates no job and sends the
    resource with Installed false, because the status update is given the
    empty job and not nil. *)
Lemma absent_job_reverts_installed cd d job w err w1 :
  HasFinalizer (cdMeta cd) FinalizerDeprovision = true ->
  installJobOf cd = Ok job ->
  Installed (Status cd) = true ->
  h _ (GetJob (objectKey (jobMeta job))) w = (Err err, w1) ->
  IsNotFound err = true ->
  let reverted :=
    withStatus cd {| Installed := false; ClusterUUID := ClusterUUID (Status cd) |} in
  exists e,
    (run h (reconcileInstall cd d) w).2 =
    [EGetJob (objectKey (jobMeta job)) (Err err); EUpdate reverted e].
Proof.
  intros Hg Hj Hinst Hget Hnf reverted.
  unfold reconcileInstall, installJobOf in *. rewrite Hg, Hj. cbn.
  rewrite Hget. cbn. rewrite Hnf, Hinst. cbn.
  unfold updateClusterDeploymentStatus, persistStatus. cbn.
  destruct (decide _) as [Heq|Hne].
  { apply (f_equal Installed) in Heq. cbn in Heq. congruence. }
  cbn. fold reverted.
  destruct (h _ (Update reverted) w1) as [e w2].
  exists e. by destruct e, (bool_decide (d ≠ 0)).
Qed.
End Active.

(** ** Cycles against the in-memory store *)

Lemma apiserver_quiet {A : Type} (t : Time) (p : Prog A) (s s' : Store) (a : A)
    (tr : list Event) :
  run (apiserver t) p s = (a, s', tr) -> mutations tr = [] -> s' = s.
Proof.
  revert s s' a tr. induction p as [a0|X c k IH]; intros s s' a tr Hrun Hm.
  - cbn in Hrun. by simplify_eq.
  - cbn in Hrun.
    destruct (apiserver t X c s) as [x s1] eqn:Hc.
    destruct (run (apiserver t) (k x) s1) as [[a1 s2] tr1] eqn:Hk.
    simplify_eq. unfold mutations in Hm. rewrite filter_cons in Hm.
    destruct c; cbn in Hm, Hc; try discriminate; simplify_eq; by eapply IH.
Qed.

(** On the in-memory store no program removes or replaces a job, and no
    creation of a job succeeds under a name the store already holds: cycle
    after cycle, a job name gets at most one job. *)
Lemma apiserver_jobs_persist {A : Type} (t : Time) (p : Prog A) (s s' : Store) (a : A)
    (tr : list Event) (k : NamespacedName) (j : Job) :
  run (apiserver t) p s = (a, s', tr) ->
  jobs s !! k = Some j ->
  jobs s' !! k = Some j /\
  forall job, objectKey (jobMeta job) = k -> ECreate (OJob job) None ∉ tr.
Proof.
  revert s s' a tr. induction p as [a0|X c k0 IH]; intros s s' a tr Hrun Hj.
  - cbn in Hrun. simplify_eq. split; [done|]. intros job _. apply not_elem_of_nil.
  - cbn in Hrun.
    destruct (apiserver t X c s) as [x s1] eqn:Hc.
    destruct (run (apiserver t) (k0 x) s1) as [[a1 s2] tr1] eqn:Hk.
    simplify_eq.
    assert (Hstep : jobs s1 !! k = Some j /\
                    forall job, objectKey (jobMeta job) = k ->
                                event_of c x ≠ ECreate (OJob job) None).
    { destruct c; cbn in Hc.
      all: simplify_eq.
      all: try (split; [done|]; intros; discriminate).
      - unfold storeCreate in Hc.
        destruct obj; repeat case_match; simplify_eq; cbn.
        all: try (split; [done|]; intros; discriminate).
        split.
        * rewrite lookup_insert_ne; [done|]. intros <-. congruence.
        * intros job' <- Heq. simplify_eq.
      - unfold storeUpdate in Hc. repeat case_match; simplify_eq; cbn.
        all: split; try done; intros; discriminate.
      - unfold storeDelete in Hc. repeat case_match; simplify_eq; cbn.
        all: split; try done; intros; discriminate. }
    destruct Hstep as [Hj1 Hne].
    destruct (IH _ _ _ _ _ Hk Hj1) as [Hj2 Hnone].
    split; [done|]. intros job Hkey Hin.
    apply elem_of_cons in Hin as [Hin|Hin]; [by eapply Hne|by eapply Hnone].
Qed.

Lemma storeGet_Some {A : Type} (m : gmap NamespacedName A) (key : NamespacedName) (a : A) :
  m !! key = Some a -> storeGet m key = Ok a.
Proof. unfold storeGet. by intros ->. Qed.

Lemma storeGet_None {A : Type} (m : gmap NamespacedName A) (key : NamespacedName) :
  m !! key = None -> storeGet m key = Err notFound.
Proof. unfold storeGet. by intros ->. Qed.

Ltac store_norm := cbn; unfold objectKey, namedMeta; cbn.

Ltac case_run :=
  repeat (store_norm;
          match goal with
          | |- context [storeGet ?m ?k] =>
              let E := fresh "Hget" in
              destruct (m !! k) eqn:E;
              [rewrite (storeGet_Some _ _ _ E)|rewrite (storeGet_None _ _ E)]
          | |- context [match ?m !! ?k with _ => _ end] => destruct (m !! k) eqn:?
          | |- context [storeUpdate ?c ?s] => destruct (storeUpdate c s) as [? ?] eqn:?
          | |- context [storeCreate ?o ?s] => destruct (storeCreate o s) as [? ?] eqn:?
          | |- context [storeDelete ?t ?c ?s] => destruct (storeDelete t c s) as [? ?] eqn:?
          | |- context [run _ (match ?x with _ => _ end) _] => destruct x eqn:?
          | |- context [run _ (bind (match ?x with _ => _ end) _) _] => destruct x eqn:?
          end);
  store_norm.

Lemma insert_ne_None {A : Type} (m : gmap NamespacedName A) (k : NamespacedName) (v : A) :
  m !! k = None -> <[k:=v]> m ≠ m.
Proof.
  intros H Heq. apply (f_equal (fun m => m !! k)) in Heq.
  rewrite lookup_insert_eq, H in Heq. discriminate.
Qed.

Lemma insert_ne_Some {A : Type} (m : gmap NamespacedName A) (k : NamespacedName) (v v' : A) :
  m !! k = Some v -> v' ≠ v -> <[k:=v']> m ≠ m.
Proof.
  intros H Hne Heq. apply (f_equal (fun m => m !! k)) in Heq.
  rewrite lookup_insert_eq, H in Heq. congruence.
Qed.

Lemma delete_ne_Some {A : Type} (m : gmap NamespacedName A) (k : NamespacedName) (v : A) :
  m !! k = Some v -> delete k m ≠ m.
Proof.
  intros H Heq. apply (f_equal (fun m => m !! k)) in Heq.
  rewrite lookup_delete_eq, H in Heq. discriminate.
Qed.

Ltac case_store :=
  repeat (cbn;
          unfold storeCreate, storeUpdate, storeDelete, withClusterDeployments,
            reclaimable, objectKey, namedMeta;
          cbn;
          match goal with
          | H : ?m !! ?k = _ |- context [?m !! ?k] => rewrite H
          | |- context [storeGet ?m ?k] =>
              let E := fresh "Hget" in
              destruct (m !! k) eqn:E;
              [rewrite (storeGet_Some _ _ _ E)|rewrite (storeGet_None _ _ E)]
          | |- context [match ?m !! ?k with _ => _ end] => destruct (m !! k) eqn:?
          | |- context [run _ (match ?x with _ => _ end) _] => destruct x eqn:?
          | |- context [run _ (bind (match ?x with _ => _ end) _) _] => destruct x eqn:?
          | |- context [match ?x with _ => _ end] =>
              lazymatch x with
              | context [match _ with _ => _ end] => fail
              | run _ _ _ => fail
              | _ => destruct x eqn:?
              end
          end);
  cbn.

Lemma mutations_existsb (tr : list Event) :
  mutations tr = [] <-> existsb is_mutation tr = false.
Proof.
  unfold mutations. induction tr as [|e tr IH]; [done|].
  rewrite filter_cons. cbn. destruct (is_mutation e); cbn; [|done].
  case_decide; [|done]. split; discriminate.
Qed.

Section Server.
Context `{Ext : Externals}.

Lemma setup_clock (t1 t2 : Time) (ns : string) (s : Store) :
  run (apiserver t1) (setupClusterInstallServiceAccount ns) s =
  run (apiserver t2) (setupClusterInstallServiceAccount ns) s.
Proof.
  unfold setupClusterInstallServiceAccount, setupRole, setupRoleBinding.
  case_run; reflexivity.
Qed.

Lemma setup_succeeds (t : Time) (ns : string) (s : Store) :
  isOk (run (apiserver t) (setupClusterInstallServiceAccount ns) s).1.1 = true.
Proof.
  unfold setupClusterInstallServiceAccount, setupRole, setupRoleBinding.
  case_run; try reflexivity; congruence.
Qed.

Lemma install_clock (cd : ClusterDeployment) (d1 d2 : Duration) (t1 t2 : Time) (s : Store) :
  (d1 = 0 <-> d2 = 0) ->
  let o1 := run (apiserver t1) (reconcileInstall cd d1) s in
  let o2 := run (apiserver t2) (reconcileInstall cd d2) s in
  o2.2 = o1.2 /\ o2.1.2 = o1.1.2 /\ sameUpToDelay d1 d2 o1.1.1 o2.1.1.
Proof.
  intros Hd.
  unfold reconcileInstall, updateClusterDeploymentStatus, persistStatus,
    addClusterDeploymentFinalizer, sameUpToDelay.
  case_run.
  all: repeat match goal with
              | H : bool_decide _ = true |- _ => apply bool_decide_eq_true in H
              | H : bool_decide _ = false |- _ => apply bool_decide_eq_false in H
              end.
  all: split; [reflexivity|]; split; [reflexivity|]; split; [reflexivity|].
  all: try (left; split; reflexivity).
  all: try (right; split; reflexivity).
  all: exfalso; tauto.
Qed.

Lemma delay_nonzero (expiry t : Time) :
  Time_After t expiry = false ->
  Duration_add (Time_Sub expiry t) (60 * Second) ≠ 0.
Proof.
  unfold Time_After, Duration_add, Time_Sub, wrap64, minDuration, maxDuration, Second.
  intros H. apply Z.ltb_ge in H.
  destruct (Z.ltb_spec (expiry - t) (- 2 ^ 63)); [lia|].
  destruct (Z.ltb_spec (2 ^ 63 - 1) (expiry - t)).
  - vm_compute. discriminate.
  - intros Heq.
    destruct (Z.lt_ge_cases (expiry - t + 60 * 1000000000 + 2 ^ 63) (2 ^ 64)) as [Hlt|Hge].
    + rewrite Z.mod_small in Heq by lia. lia.
    + replace (expiry - t + 60 * 1000000000 + 2 ^ 63)
        with ((expiry - t + 60 * 1000000000 + 2 ^ 63 - 2 ^ 64) + 1 * 2 ^ 64) in Heq by lia.
      rewrite Z.mod_add in Heq by lia. rewrite Z.mod_small in Heq by lia. lia.
Qed.

Lemma Reconcile_apiserver (t : Time) request (s : Store) cd :
  clusterDeployments s !! request = Some cd ->
  DeletionTimestamp (cdMeta cd) = None ->
  run (apiserver t) (Reconcile request) s =
  let '(r, sA, trA) := run (apiserver t) (setupClusterInstallServiceAccount
                                             (Namespace (cdMeta cd))) s in
  let '(res, s', trB) := run (apiserver t) (reconcileExpiry cd) sA in
  (res, s', EGetClusterDeployment request (Ok cd) :: trA ++ trB).
Proof.
  intros Hcd Hdel. unfold Reconcile. cbn. rewrite (storeGet_Some _ _ _ Hcd).
  rewrite run_bind.
  pose proof (setup_succeeds t (Namespace (cdMeta cd)) s) as Hok.
  destruct (run (apiserver t) (setupClusterInstallServiceAccount _) s) as [[r sA] trA].
  cbn in Hok. destruct r as [sa|err]; [|discriminate]. rewrite Hdel.
  by destruct (run (apiserver t) (reconcileExpiry cd) sA) as [[res s'] trB].
Qed.

Lemma reconcileExpiry_apiserver (t : Time) (s : Store) cd :
  run (apiserver t) (reconcileExpiry cd) s =
  match Annotations (cdMeta cd) !! deleteAfterAnnotation with
  | None => run (apiserver t) (reconcileInstall cd 0) s
  | Some deleteAfter =>
      match ParseDuration deleteAfter with
      | Err err =>
          ((emptyResult,
            Some (Errorf ("error parsing " +:+ deleteAfterAnnotation +:+
                          " as a duration: " +:+ Error err))), s, [])
      | Ok dur =>
          if Time_IsZero (CreationTimestamp (cdMeta cd))
          then run (apiserver t) (reconcileInstall cd 0) s
          else if Time_After t (expiryOf cd dur)
               then let '(e, s') := storeDelete t cd s in
                    ((emptyResult, None), s', [ENow t; EDelete cd e])
               else let '(res, s', tr) :=
                      run (apiserver t)
                        (reconcileInstall cd
                           (Duration_add (Time_Sub (expiryOf cd dur) t) (60 * Second))) s in
                    (res, s', ENow t :: ENow t :: tr)
      end
  end.
Proof.
  unfold reconcileExpiry, expiryOf.
  destruct (Annotations (cdMeta cd) !! deleteAfterAnnotation) as [a|]; [|done].
  destruct (ParseDuration a) as [dur|err]; [|done].
  destruct (Time_IsZero (CreationTimestamp (cdMeta cd))); [done|]. cbn.
  destruct (Time_After t _); cbn.
  - by destruct (storeDelete t cd s).
  - by destruct (run (apiserver t) _ s) as [[? ?] ?].
Qed.

Lemma install_clock_runs cd d1 d2 t1 t2 s res1 res2 s1 s2 tr1 tr2 :
  (d1 = 0 <-> d2 = 0) ->
  run (apiserver t1) (reconcileInstall cd d1) s = (res1, s1, tr1) ->
  run (apiserver t2) (reconcileInstall cd d2) s = (res2, s2, tr2) ->
  tr2 = tr1 /\ s2 = s1 /\ sameUpToDelay d1 d2 res1 res2.
Proof.
  intros Hd H1 H2. pose proof (install_clock cd d1 d2 t1 t2 s Hd) as H.
  cbn in H. by rewrite H1, H2 in H.
Qed.

Lemma mutations_skip (e : Event) (l : list Event) :
  is_mutation e = false -> mutations (e :: l) = mutations l.
Proof. unfold mutations. rewrite filter_cons. intros ->. by case_decide. Qed.

Lemma mutations_app (l1 l2 : list Event) : mutations (l1 ++ l2) = mutations l1 ++ mutations l2.
Proof. apply filter_app. Qed.

Lemma reconcile_at_rest (t1 t2 : Time) request (s s1 s2 : Store) cd res1 res2 tr1 tr2 :
  clusterDeployments s !! request = Some cd ->
  DeletionTimestamp (cdMeta cd) = None ->
  run (apiserver t1) (Reconcile request) s = (res1, s1, tr1) ->
  run (apiserver t2) (Reconcile request) s1 = (res2, s2, tr2) ->
  mutations tr1 = [] ->
  expiredAt cd t2 = expiredAt cd t1 ->
  mutations tr2 = [] /\ s2 = s1 /\
  sameUpToDelay (requeueDelay cd t1) (requeueDelay cd t2) res1 res2.
Proof.
  intros Hcd Hdel Hrun1 Hrun2 Hquiet Hverdict.
  assert (s1 = s) as -> by (by eapply apiserver_quiet).
  rewrite (Reconcile_apiserver _ _ _ cd) in Hrun1 by done.
  rewrite (Reconcile_apiserver _ _ _ cd) in Hrun2 by done.
  rewrite (setup_clock t1 t2) in Hrun1.
  destruct (run (apiserver t2) (setupClusterInstallServiceAccount _) s)
    as [[r sA] trA] eqn:HA.
  destruct (run (apiserver t1) (reconcileExpiry cd) sA) as [[r1 sB1] trB1] eqn:HB1.
  destruct (run (apiserver t2) (reconcileExpiry cd) sA) as [[r2 sB2] trB2] eqn:HB2.
  simplify_eq. rewrite mutations_skip, mutations_app in Hquiet by done.
  apply app_eq_nil in Hquiet as [HqA HqB].
  assert (sA = s) as -> by (by eapply apiserver_quiet).
  rewrite reconcileExpiry_apiserver in HB1, HB2.
  unfold expiredAt, requeueDelay in *.
  assert (Hfinish : forall d1 d2 trB1' trB2',
             (d1 = 0 <-> d2 = 0) ->
             run (apiserver t1) (reconcileInstall cd d1) s = (res1, s, trB1') ->
             run (apiserver t2) (reconcileInstall cd d2) s = (res2, s2, trB2') ->
             mutations trB1' = [] ->
             mutations (EGetClusterDeployment request (Ok cd) :: trA ++ trB2') = [] /\
             s2 = s /\ sameUpToDelay d1 d2 res1 res2).
  { intros d1 d2 trB1' trB2' Hd H1 H2 Hq.
    destruct (install_clock_runs _ _ _ _ _ _ _ _ _ _ _ _ Hd H1 H2) as (-> & -> & Hs).
    repeat split; try done; try apply Hs.
    rewrite mutations_skip, mutations_app by done.
    by rewrite HqA, Hq. }
  destruct (Annotations (cdMeta cd) !! deleteAfterAnnotation) as [a|];
    [|by eapply Hfinish].
  destruct (ParseDuration a) as [dur|err].
  - destruct (Time_IsZero (CreationTimestamp (cdMeta cd))); [by eapply Hfinish|].
    cbn in Hverdict.
    destruct (Time_After t1 (expiryOf cd dur)) eqn:H1.
    { destruct (storeDelete t1 cd s). simplify_eq; discriminate. }
    rewrite Hverdict in HB2.
    destruct (run (apiserver t1) (reconcileInstall cd _) s) as [[r1 sB1] trB1'] eqn:HI1.
    destruct (run (apiserver t2) (reconcileInstall cd _) s) as [[r2 sB2] trB2'] eqn:HI2.
    simplify_eq.
    assert (Hd : Duration_add (Time_Sub (expiryOf cd dur) t1) (60 * Second) = 0 <->
                 Duration_add (Time_Sub (expiryOf cd dur) t2) (60 * Second) = 0).
    { split; intros Hz; exfalso; (eapply delay_nonzero; [|exact Hz]); eauto. }
    destruct (install_clock_runs _ _ _ _ _ _ _ _ _ _ _ _ Hd HI1 HI2) as (-> & -> & Hs).
    repeat split; try done; try apply Hs.
    rewrite !mutations_skip in HqB by done.
    rewrite mutations_skip, mutations_app, !mutations_skip by done.
    by rewrite HqA, HqB.
  - simplify_eq. repeat split; try done.
    + rewrite mutations_skip, mutations_app by done.
      by rewrite HqA.
    + by left.
Qed.


Lemma setup_store (t : Time) (ns : string) (s : Store) :
  let o := run (apiserver t) (setupClusterInstallServiceAccount ns) s in
  clusterDeployments o.1.2 = clusterDeployments s /\
  jobs o.1.2 = jobs s /\
  (existsb is_mutation o.2 = false \/
   serviceAccounts o.1.2 ≠ serviceAccounts s \/
   roles o.1.2 ≠ roles s \/
   roleBindings o.1.2 ≠ roleBindings s).
Proof.
  unfold setupClusterInstallServiceAccount, setupRole, setupRoleBinding.
  cbn. unfold storeCreate.
  case_store.
  all: try congruence.
  all: split; [reflexivity|]; split; [reflexivity|].
  all: try (left; reflexivity).
  all: try (right; left; by apply insert_ne_None).
  all: try (right; right; left; by apply insert_ne_None).
  all: try (right; right; right; by apply insert_ne_None).
Qed.

Lemma expiry_store (t : Time) cd (s : Store) :
  clusterDeployments s !! objectKey (cdMeta cd) = Some cd ->
  DeletionTimestamp (cdMeta cd) = None ->
  let o := run (apiserver t) (reconcileExpiry cd) s in
  serviceAccounts o.1.2 = serviceAccounts s /\
  roles o.1.2 = roles s /\
  roleBindings o.1.2 = roleBindings s /\
  (existsb is_mutation o.2 = false \/
   clusterDeployments o.1.2 ≠ clusterDeployments s \/
   jobs o.1.2 ≠ jobs s).
Proof.
  intros Hk Hdel. unfold objectKey in Hk.
  unfold reconcileExpiry, reconcileInstall, updateClusterDeploymentStatus, persistStatus,
    addClusterDeploymentFinalizer.
  case_store.
  all: try congruence.
  all: split; [reflexivity|]; split; [reflexivity|]; split; [reflexivity|].
  all: try (left; reflexivity).
  all: try (right; right; apply insert_ne_None; assumption).
  all: try (right; left; eapply delete_ne_Some; eassumption).
  all: right; left; (eapply insert_ne_Some; [eassumption|]); intros Heq.
  all: try (apply (f_equal Status) in Heq; cbn in Heq; contradiction).
  all: try (apply (f_equal (fun c => DeletionTimestamp (cdMeta c))) in Heq;
            unfold requestDeletion in Heq; cbn in Heq; rewrite Hdel in Heq; discriminate).
  all: apply (f_equal (fun c => HasFinalizer (cdMeta c) FinalizerDeprovision)) in Heq;
    cbv beta in Heq; cbn [cdMeta] in Heq; rewrite HasFinalizer_AddFinalizer in Heq;
    rewrite <- Heq in *; discriminate.
Qed.

Lemma unchanged_store_quiet (t : Time) request (s s' : Store) cd res tr :
  wellKeyed s ->
  clusterDeployments s !! request = Some cd ->
  DeletionTimestamp (cdMeta cd) = None ->
  run (apiserver t) (Reconcile request) s = (res, s', tr) ->
  s' = s ->
  mutations tr = [].
Proof.
  intros Hwk Hcd Hdel Hrun ->.
  assert (Hk : clusterDeployments s !! objectKey (cdMeta cd) = Some cd).
  { by rewrite (Hwk _ _ Hcd). }
  rewrite (Reconcile_apiserver _ _ _ cd) in Hrun by done.
  pose proof (setup_store t (Namespace (cdMeta cd)) s) as HA.
  destruct (run (apiserver t) (setupClusterInstallServiceAccount _) s) as [[r sA] trA] eqn:EA.
  cbn in HA. destruct HA as (HcdA & HjA & HA).
  pose proof (expiry_store t cd sA) as HB.
  destruct (run (apiserver t) (reconcileExpiry cd) sA) as [[rB sB] trB] eqn:EB.
  cbn in HB. rewrite HcdA in HB. specialize (HB Hk Hdel). simplify_eq.
  destruct HB as (Hsa & Hro & Hrb & HB).
  rewrite mutations_skip, mutations_app by done.
  assert (HqA : mutations trA = []).
  { apply mutations_existsb. destruct HA as [HA|[HA|[HA|HA]]]; [done|congruence..]. }
  assert (sA = s) as -> by (by eapply apiserver_quiet).
  rewrite HqA. cbn. apply mutations_existsb.
  destruct HB as [HB|[HB|HB]]; [done|congruence..].
Qed.

(** C2, amended: for a resource with no deletion request in a store that
    keeps every resource under its own namespace and name, when a first
    cycle leaves the store as it found it and a second cycle runs at a
    clock reading for which the expiry policy gives the same verdict, the
    second cycle issues no create, update or delete, leaves the store (and
    with it the stored status) unchanged, and returns the same error and
    the same result up to the retry delay, which is computed from the later
    clock reading; the first cycle issued no create, update or delete
    either. *)
Theorem reconcile_idempotent_at_rest (t1 t2 : Time) request (s s1 s2 : Store) cd
    res1 res2 tr1 tr2 :
  wellKeyed s ->
  clusterDeployments s !! request = Some cd ->
  DeletionTimestamp (cdMeta cd) = None ->
  run (apiserver t1) (Reconcile request) s = (res1, s1, tr1) ->
  run (apiserver t2) (Reconcile request) s1 = (res2, s2, tr2) ->
  s1 = s ->
  expiredAt cd t2 = expiredAt cd t1 ->
  mutations tr1 = [] /\ mutations tr2 = [] /\ s2 = s1 /\
  sameUpToDelay (requeueDelay cd t1) (requeueDelay cd t2) res1 res2 /\
  (requeueDelay cd t2 = requeueDelay cd t1 -> res2 = res1).
Proof.
  intros Hwk Hcd Hdel Hrun1 Hrun2 Hs Hv.
  assert (Hq : mutations tr1 = []) by (by eapply unchanged_store_quiet).
  destruct (reconcile_at_rest _ _ _ _ _ _ _ _ _ _ _ Hcd Hdel Hrun1 Hrun2 Hq Hv)
    as (Hq2 & Hs2 & Hsame).
  repeat split; try done; try apply Hsame.
  intros Hd. destruct Hsame as [He Hr]. rewrite Hd in Hr.
  destruct res1 as [r1 e1], res2 as [r2 e2]. cbn in *. subst.
  f_equal. destruct Hr as [[-> ->]|[-> ->]]; done.
Qed.

End Server.

(** * Further properties of the code *)

(** ** Finalizers as sorted sets *)

Lemma ascii_compare_eq (a b : ascii) : Ascii.compare a b = Eq -> a = b.
Proof.
  unfold Ascii.compare. intros H%N.compare_eq.
  rewrite <- (ascii_N_embedding a), <- (ascii_N_embedding b). by rewrite H.
Qed.

Lemma string_leb_trans (s1 s2 s3 : string) :
  String.leb s1 s2 = true -> String.leb s2 s3 = true -> String.leb s1 s3 = true.
Proof.
  unfold String.leb. revert s2 s3.
  induction s1 as [|a s1 IH]; intros [|b s2] [|c s3]; cbn; try done.
  destruct (Ascii.compare a b) eqn:Eab; try done.
  - apply ascii_compare_eq in Eab as ->.
    destruct (Ascii.compare b c) eqn:Ebc; try done. apply IH.
  - destruct (Ascii.compare b c) eqn:Ebc; try done.
    + apply ascii_compare_eq in Ebc as ->. by rewrite Eab.
    + unfold Ascii.compare in *. rewrite N.compare_lt_iff in Eab, Ebc.
      assert (H : (N_of_ascii a < N_of_ascii c)%N) by lia.
      apply N.compare_lt_iff in H. by rewrite H.
Qed.

#[global] Instance string_le_total : Total string_le.
Proof.
  intros s1 s2. unfold string_le.
  destruct (String.leb_total s1 s2) as [H|H]; rewrite H; cbn; auto.
Qed.

#[global] Instance string_le_trans : Transitive string_le.
Proof.
  intros s1 s2 s3. unfold string_le. rewrite !Is_true_true. apply string_leb_trans.
Qed.

#[global] Instance string_le_antisym : AntiSymm eq string_le.
Proof.
  intros s1 s2. unfold string_le. rewrite !Is_true_true. apply String.leb_antisym.
Qed.

Lemma List_sorted (s : gset string) : StronglySorted string_le (List s).
Proof. unfold List. apply StronglySorted_merge_sort; apply _. Qed.

Lemma List_NoDup (s : gset string) : NoDup (List s).
Proof. unfold List. rewrite merge_sort_Permutation. apply NoDup_elements. Qed.

Lemma NewString_List (s : gset string) : NewString (List s) = s.
Proof.
  unfold NewString. apply set_eq. intros x.
  rewrite elem_of_list_to_set. apply elem_of_List.
Qed.

Lemma List_NewString (l : list string) :
  StronglySorted string_le l -> NoDup l -> List (NewString l) = l.
Proof.
  intros Hs Hn. apply (StronglySorted_unique string_le); [apply List_sorted|done|].
  unfold List, NewString. rewrite merge_sort_Permutation.
  by apply elements_list_to_set.
Qed.

Lemma SetFinalizers_id (m : ObjectMeta) : SetFinalizers m (Finalizers m) = m.
Proof. by destruct m. Qed.

Lemma SetFinalizers_twice (m : ObjectMeta) (l l' : list string) :
  SetFinalizers (SetFinalizers m l) l' = SetFinalizers m l'.
Proof. done. Qed.

Lemma Finalizers_SetFinalizers (m : ObjectMeta) (l : list string) :
  Finalizers (SetFinalizers m l) = l.
Proof. done. Qed.

(** X1: after AddFinalizer of [f] an object has the finalizer [g] exactly
    when it had it before or [g] is [f]; after DeleteFinalizer of [f],
    exactly when it had it before and [g] is not [f]. *)
Theorem HasFinalizer_after_update (m : ObjectMeta) (f g : string) :
  HasFinalizer (AddFinalizer m f) g = HasFinalizer m g || String.eqb g f /\
  HasFinalizer (DeleteFinalizer m f) g = HasFinalizer m g && negb (String.eqb g f).
Proof.
  unfold HasFinalizer, AddFinalizer, DeleteFinalizer, NewString. cbn. split.
  - apply eq_true_iff_eq.
    rewrite orb_true_iff, !hasFinalizerIn_elem, elem_of_List, String.eqb_eq. set_solver.
  - apply eq_true_iff_eq.
    rewrite andb_true_iff, negb_true_iff, !hasFinalizerIn_elem, elem_of_List.
    rewrite <- not_true_iff_false, String.eqb_eq. set_solver.
Qed.

(** X2: AddFinalizer and DeleteFinalizer leave the finalizers sorted in
    byte order and without duplicates, whatever the order and the
    duplicates of the list they were given, and change no other field of
    the object. *)
Theorem finalizer_updates_normalise (m : ObjectMeta) (f : string) :
  let sortedSet (l : list string) := StronglySorted string_le l /\ NoDup l in
  sortedSet (Finalizers (AddFinalizer m f)) /\
  sortedSet (Finalizers (DeleteFinalizer m f)) /\
  AddFinalizer m f = SetFinalizers m (Finalizers (AddFinalizer m f)) /\
  DeleteFinalizer m f = SetFinalizers m (Finalizers (DeleteFinalizer m f)).
Proof.
  unfold AddFinalizer, DeleteFinalizer, NewString. cbn.
  split; [split; [apply List_sorted|apply List_NoDup]|].
  split; [split; [apply List_sorted|apply List_NoDup]|].
  done.
Qed.

(** X3: how the two updates compose: adding twice is adding once, deleting
    twice is deleting once, a deletion undoes an addition, an addition
    after a deletion is the addition alone, and two additions (or two
    deletions) commute. *)
Theorem finalizer_updates_compose (m : ObjectMeta) (f g : string) :
  AddFinalizer (AddFinalizer m f) f = AddFinalizer m f /\
  DeleteFinalizer (DeleteFinalizer m f) f = DeleteFinalizer m f /\
  DeleteFinalizer (AddFinalizer m f) f = DeleteFinalizer m f /\
  AddFinalizer (DeleteFinalizer m f) f = AddFinalizer m f /\
  AddFinalizer (AddFinalizer m f) g = AddFinalizer (AddFinalizer m g) f /\
  DeleteFinalizer (DeleteFinalizer m f) g = DeleteFinalizer (DeleteFinalizer m g) f.
Proof.
  unfold AddFinalizer, DeleteFinalizer.
  rewrite !SetFinalizers_twice, !Finalizers_SetFinalizers, !NewString_List.
  generalize (NewString (Finalizers m)). intros S.
  repeat split; do 2 f_equal; clear m.
  - set_solver.
  - set_solver.
  - set_solver.
  - apply set_eq. intros x. destruct (decide (x = f)); set_solver.
  - set_solver.
  - set_solver.
Qed.

(** X4: AddFinalizer returns the object unchanged exactly when its
    finalizers are sorted, free of duplicates and hold the finalizer
    already; DeleteFinalizer, exactly when they are sorted, free of
    duplicates and do not hold it.  On any other list even an addition of
    a present finalizer or a deletion of an absent one rewrites the list. *)
Theorem finalizer_updates_fixpoint (m : ObjectMeta) (f : string) :
  (AddFinalizer m f = m <->
   StronglySorted string_le (Finalizers m) /\ NoDup (Finalizers m) /\
   HasFinalizer m f = true) /\
  (DeleteFinalizer m f = m <->
   StronglySorted string_le (Finalizers m) /\ NoDup (Finalizers m) /\
   HasFinalizer m f = false).
Proof.
  split; split.
  - intros H. rewrite <- H at 1 2. split; [apply List_sorted|]. split; [apply List_NoDup|].
    rewrite <- H. apply HasFinalizer_AddFinalizer.
  - intros (Hs & Hn & Hf). unfold AddFinalizer. cbn.
    replace (NewString (Finalizers m) ∪ {[f]}) with (NewString (Finalizers m)).
    + rewrite List_NewString by done. apply SetFinalizers_id.
    + apply hasFinalizerIn_elem in Hf. unfold NewString. set_solver.
  - intros H. rewrite <- H at 1 2. split; [apply List_sorted|]. split; [apply List_NoDup|].
    rewrite <- H. apply HasFinalizer_DeleteFinalizer.
  - intros (Hs & Hn & Hf). unfold DeleteFinalizer. cbn.
    replace (NewString (Finalizers m) ∖ {[f]}) with (NewString (Finalizers m)).
    + rewrite List_NewString by done. apply SetFinalizers_id.
    + apply not_true_iff_false in Hf. unfold HasFinalizer in Hf.
      rewrite hasFinalizerIn_elem in Hf.
      unfold NewString. set_solver.
Qed.

(** ** Conditions of a job *)

(** X5: getJobConditionStatus answers the status of the first condition of
    the requested type in the job's list, and False when the list has no
    condition of that type. *)
Theorem getJobConditionStatus_first_match (job : Job) (ty : string) :
  getJobConditionStatus job ty =
  match conditionsOfType ty job with
  | condition :: _ => condStatus condition
  | [] => ConditionFalse
  end.
Proof.
  unfold getJobConditionStatus, conditionsOfType.
  induction (Conditions job) as [|c conds IH]; [done|].
  rewrite filter_cons. cbn. destruct (String.eqb (condType c) ty) eqn:E.
  - apply String.eqb_eq in E. by rewrite decide_True.
  - apply String.eqb_neq in E. by rewrite decide_False.
Qed.

Lemma conditionStatusIn_NoDup (conds : list JobCondition) (ty : string) :
  NoDup (condType <$> conds) ->
  conditionStatusIn conds ty = ConditionTrue <->
  exists c, c ∈ conds /\ condType c = ty /\ condStatus c = ConditionTrue.
Proof.
  intros Hnd. rewrite conditionStatusIn_true. split.
  - intros (pre & c & post & -> & _ & Hty & Hst). exists c. split; [|done].
    apply elem_of_app. right. left.
  - intros (c & Hin & Hty & Hst).
    apply list_elem_of_split in Hin as (pre & post & ->).
    exists pre, c, post. repeat split; try done.
    rewrite fmap_app, fmap_cons in Hnd.
    apply NoDup_app in Hnd as (_ & Hdis & _).
    apply Forall_forall. intros c' Hc' Heqty.
    apply (Hdis (condType c')); [by apply list_elem_of_fmap_2|].
    rewrite Heqty, <- Hty. left.
Qed.

(** X6: isFailed is true exactly when the first condition of type Failed
    has status True; conditions of any other type have no effect on it; it
    is false for a job without a Failed condition; and when no two
    conditions share a type, a job is failed and successful at once
    exactly when its list holds both a Failed=True and a Complete=True
    condition. *)
Theorem isFailed_first_failed (job : Job) :
  (isFailed job = true <->
   exists pre c post,
     Conditions job = pre ++ c :: post /\
     Forall (fun c' => condType c' ≠ JobFailed) pre /\
     condType c = JobFailed /\ condStatus c = ConditionTrue) /\
  (forall ty, ty ≠ JobFailed -> isFailed (withoutType ty job) = isFailed job) /\
  ((forall c, c ∈ Conditions job -> condType c ≠ JobFailed) -> isFailed job = false) /\
  (NoDup (condType <$> Conditions job) ->
   (isFailed job = true /\ isSuccessful job = true <->
    {| condType := JobFailed; condStatus := ConditionTrue |} ∈ Conditions job /\
    {| condType := JobComplete; condStatus := ConditionTrue |} ∈ Conditions job)).
Proof.
  assert (Hspec : forall ty, String.eqb (getJobConditionStatus job ty) ConditionTrue = true <->
                    conditionStatusIn (Conditions job) ty = ConditionTrue).
  { intros ty. apply String.eqb_eq. }
  split; [|split; [|split]].
  - unfold isFailed. rewrite Hspec. apply conditionStatusIn_true.
  - intros ty Hne. unfold isFailed, getJobConditionStatus, withoutType. cbn.
    by rewrite conditionStatusIn_filter.
  - intros H. unfold isFailed, getJobConditionStatus.
    by rewrite conditionStatusIn_absent.
  - intros Hnd. unfold isFailed, isSuccessful.
    rewrite !Hspec, !(conditionStatusIn_NoDup _ _ Hnd). split.
    + intros [([ty1 st1] & Hin1 & Hty1 & Hst1) ([ty2 st2] & Hin2 & Hty2 & Hst2)].
      cbn in *. by subst.
    + intros [Hin1 Hin2]. split; [by exists (Build_JobCondition JobFailed ConditionTrue)|].
      by exists (Build_JobCondition JobComplete ConditionTrue).
Qed.

(** ** The access provisioner, call by call *)

Ltac index_cases Hi :=
  repeat match type of Hi with
         | (_ :: _) !! ?i = Some _ => destruct i as [|i]; cbn in Hi
         | [] !! _ = Some _ => discriminate Hi
         | Some _ = Some _ => first [discriminate Hi | injection Hi as Hi]
         | _ = _ => first [discriminate Hi | progress simplify_eq]
         end.

Lemma mutations_keep (e : Event) (l : list Event) :
  is_mutation e = true -> mutations (e :: l) = e :: mutations l.
Proof. unfold mutations. rewrite filter_cons. intros ->. by case_decide. Qed.

Lemma mutations_nil : mutations [] = [].
Proof. done. Qed.

Ltac simpl_mutations :=
  repeat first [ rewrite mutations_skip by reflexivity
               | rewrite mutations_keep by reflexivity
               | rewrite mutations_nil ].

Section ProvisionerShape.
Context {W : Type} (h : Handler W) `{Ext : Externals}.

Lemma setup_creationsFollowLookups ns w r w' tr :
  run h (setupClusterInstallServiceAccount ns) w = (r, w', tr) ->
  creationsFollowLookups tr.
Proof.
  unfold setupClusterInstallServiceAccount, setupRole, setupRoleBinding.
  intros H i obj e Hi. run_inv H.
  all: rewrite_tests.
  all: cbn [app] in Hi; index_cases Hi.
  all: eexists _, _; split; [reflexivity|]; split; [reflexivity|];
       eexists; split; [|reflexivity]; done.
Qed.

(** X7: the access provisioner only creates what is missing.  Every
    creation comes right after the not-found lookup of the object it
    creates; its writes are creations of the service account, the role and
    the role binding named cluster-installer in the namespace, at most
    three, never an update or a delete; the role binding it creates binds
    the service account it found or created, which is the one it
    returns. *)
Theorem provisioner_creates_only_missing ns w r w' tr :
  run h (setupClusterInstallServiceAccount ns) w = (r, w', tr) ->
  creationsFollowLookups tr /\
  (forall e, e ∈ mutations tr ->
     (exists err,
         e = ECreate (OServiceAccount {| saMeta := namedMeta serviceAccountName ns |}) err) \/
     (exists err, e = ECreate (ORole (expectedRole ns)) err) \/
     (exists sa err,
         e = ECreate (ORoleBinding (newRoleBinding ns sa)) err /\
         (EGetServiceAccount (ns, serviceAccountName) (Ok sa) ∈ tr \/
          ECreate (OServiceAccount sa) None ∈ tr))) /\
  (length (mutations tr) <= 3)%nat /\
  (forall sa, r = Ok sa ->
     EGetServiceAccount (ns, serviceAccountName) (Ok sa) ∈ tr \/
     ECreate (OServiceAccount sa) None ∈ tr).
Proof.
  intros H. split; [by eapply setup_creationsFollowLookups|].
  unfold setupClusterInstallServiceAccount, setupRole, setupRoleBinding in H.
  run_inv H.
  all: cbn [app]; simpl_mutations.
  all: split; [|split; [cbn; lia|]].
  all: try (intros sa0 [= <-]).
  all: try (intros ? [=]).
  all: try (intros e0 Hin; split_in Hin; subst e0).
  all: eauto 10 using list_elem_of_here, list_elem_of_further.
Qed.

Lemma lookups_skip (e : Event) (l : list Event) :
  is_mutation e = true -> lookups (e :: l) = lookups l.
Proof. unfold lookups. rewrite filter_cons. intros ->. by case_decide. Qed.

Lemma lookups_keep (e : Event) (l : list Event) :
  is_mutation e = false -> lookups (e :: l) = e :: lookups l.
Proof. unfold lookups. rewrite filter_cons. intros ->. by case_decide. Qed.

Lemma lookups_nil : lookups [] = [].
Proof. done. Qed.

Ltac simpl_lookups :=
  repeat first [ rewrite lookups_skip by reflexivity
               | rewrite lookups_keep by reflexivity
               | rewrite lookups_nil ].

(** X8: the access provisioner stops at its first failed call: a lookup
    that fails otherwise than by not-found, or a creation that fails, is
    the last call and makes the answer an error, which is always a
    formatted message; the lookups go in the order service account, role,
    role binding, and an answer without error has made all three. *)
Theorem provisioner_stops_at_failure ns w r w' tr :
  run h (setupClusterInstallServiceAccount ns) w = (r, w', tr) ->
  (forall i e, tr !! i = Some e -> provisioningFailed e = true ->
               length tr = S i /\ isOk r = false) /\
  (isOk r = false ->
   (exists e, last tr = Some e /\ provisioningFailed e = true) /\
   exists msg, r = Err (Errorf msg)) /\
  (exists r1 r2 r3,
      lookups tr `prefix_of`
        [EGetServiceAccount (ns, serviceAccountName) r1; EGetRole (ns, roleName) r2;
         EGetRoleBinding (ns, roleBindingName) r3] /\
      (isOk r = true -> length (lookups tr) = 3%nat)).
Proof.
  unfold setupClusterInstallServiceAccount, setupRole, setupRoleBinding.
  intros H. run_inv H.
  all: rewrite_tests; cbn [app].
  all: split.
  all: try (intros i e0 Hi Hfail; index_cases Hi; cbn in Hfail; rewrite_tests;
            try discriminate; try congruence; done).
  all: split.
  all: try (intros Hok; cbn in Hok;
            first [ discriminate Hok
                  | split; [|by eexists];
                    eexists; split; [reflexivity|]; cbn; rewrite_tests; done ]).
  all: simpl_lookups.
  all: do 3 eexists; split; [eexists; cbn; reflexivity|].
  all: intros Hok; cbn in Hok; first [discriminate Hok | reflexivity].
  Unshelve.
  all: exact (Err notFound).
Qed.

End ProvisionerShape.

Section ProvisionerStore.
Context `{Ext : Externals}.

Lemma setup_present (t : Time) (ns : string) (s : Store) sa role rb :
  serviceAccounts s !! (ns, serviceAccountName) = Some sa ->
  roles s !! (ns, roleName) = Some role ->
  roleBindings s !! (ns, roleBindingName) = Some rb ->
  run (apiserver t) (setupClusterInstallServiceAccount ns) s =
  (Ok sa, s,
   [EGetServiceAccount (ns, serviceAccountName) (Ok sa); EGetRole (ns, roleName) (Ok role);
    EGetRoleBinding (ns, roleBindingName) (Ok rb)]).
Proof.
  intros Hsa Hrole Hrb.
  unfold setupClusterInstallServiceAccount, setupRole, setupRoleBinding. cbn.
  rewrite (storeGet_Some _ _ _ Hsa). cbn.
  rewrite (storeGet_Some _ _ _ Hrole). cbn.
  rewrite (storeGet_Some _ _ _ Hrb). done.
Qed.

Lemma setup_first_run (t : Time) (ns : string) (s : Store) :
  let o := run (apiserver t) (setupClusterInstallServiceAccount ns) s in
  (exists sa, o.1.1 = Ok sa /\ serviceAccounts o.1.2 !! (ns, serviceAccountName) = Some sa) /\
  is_Some (roles o.1.2 !! (ns, roleName)) /\
  is_Some (roleBindings o.1.2 !! (ns, roleBindingName)) /\
  serviceAccounts s ⊆ serviceAccounts o.1.2 /\
  roles s ⊆ roles o.1.2 /\
  roleBindings s ⊆ roleBindings o.1.2 /\
  clusterDeployments o.1.2 = clusterDeployments s /\
  jobs o.1.2 = jobs s /\
  configMaps o.1.2 = configMaps s.
Proof.
  unfold setupClusterInstallServiceAccount, setupRole, setupRoleBinding.
  cbn. unfold storeCreate.
  case_store.
  all: try congruence.
  all: repeat split; try reflexivity; try (by eexists).
  all: try (eexists; split; [reflexivity|]; cbn; first [eassumption | apply lookup_insert_eq]).
  all: try (cbn; rewrite lookup_insert_eq; by eexists).
  all: try (cbn; by apply insert_subseteq).
Qed.
(** X9: on the in-memory store the access provisioner always succeeds;
    afterwards the service account (the one it returns), the role and the
    role binding exist, every object that was in the store is still there
    unchanged, and a second run writes nothing, leaves the store as it is
    and returns the same service account. *)
Theorem provisioner_idempotent (t t' : Time) (ns : string) (s : Store) :
  let o := run (apiserver t) (setupClusterInstallServiceAccount ns) s in
  let o' := run (apiserver t') (setupClusterInstallServiceAccount ns) o.1.2 in
  isOk o.1.1 = true /\
  storeGet (serviceAccounts o.1.2) (ns, serviceAccountName) = o.1.1 /\
  is_Some (roles o.1.2 !! (ns, roleName)) /\
  is_Some (roleBindings o.1.2 !! (ns, roleBindingName)) /\
  serviceAccounts s ⊆ serviceAccounts o.1.2 /\
  roles s ⊆ roles o.1.2 /\
  roleBindings s ⊆ roleBindings o.1.2 /\
  clusterDeployments o.1.2 = clusterDeployments s /\
  jobs o.1.2 = jobs s /\
  configMaps o.1.2 = configMaps s /\
  mutations o'.2 = [] /\ o'.1.2 = o.1.2 /\ o'.1.1 = o.1.1.
Proof.
  intros o o'.
  destruct (setup_first_run t ns s)
    as ((sa & Hr & Hsa) & [role Hrole] & [rb Hrb] & Hsas & Hroles & Hrbs & Hcd & Hj & Hcm).
  fold o in Hr, Hsa, Hrole, Hrb, Hsas, Hroles, Hrbs, Hcd, Hj, Hcm.
  unfold o'. rewrite (setup_present t' ns _ sa role rb) by done.
  rewrite Hr, (storeGet_Some _ _ _ Hsa). cbn.
  repeat split; try done; by eexists.
Qed.
End ProvisionerStore.

(** ** The shape of a cycle *)

Section StatusShape.
Context {W : Type} (h : Handler W) `{Ext : Externals}.

Lemma clusterIDOf_at (objMap : gmap string JSON) (uuid : string) :
  clusterIDOf objMap = Ok uuid <-> clusterIDAt objMap uuid.
Proof.
  unfold clusterIDOf, clusterIDAt, asMap, asString. split.
  - intros H.
    destruct (objMap !! "aws") as [[| | | | |aws]|] eqn:E1; try discriminate.
    destruct (aws !! "identifier") as [[| | | | |identifier]|] eqn:E2; try discriminate.
    destruct (identifier !! "tectonicClusterID") as [[| | |s| |]|] eqn:E3; try discriminate.
    simplify_eq. eauto.
  - intros (aws & identifier & -> & -> & ->). done.
Qed.

Lemma updateClusterDeploymentStatus_calls cd job w e w' tr :
  run h (updateClusterDeploymentStatus cd job) w = (e, w', tr) ->
  statusCalls cd (computedInstalled cd job) tr.
Proof.
  unfold updateClusterDeploymentStatus, persistStatus, computedInstalled. intros H.
  destruct job as [job|]; run_inv H.
  all: repeat match goal with
         | Hx : _ && _ = true |- _ => apply andb_true_iff in Hx as [? ?]
         | Hx : _ && _ = false |- _ => apply andb_false_iff in Hx
         | Hx : bool_decide _ = true |- _ => apply bool_decide_eq_true in Hx
         | Hx : bool_decide _ = false |- _ => apply bool_decide_eq_false in Hx
         end.
  all: repeat match goal with Hx : decide _ = _ |- _ => clear Hx end.
  all: try (match goal with Hx : isSuccessful _ = true |- _ => rewrite Hx in * end).
  all: try (match goal with Hx : Installed (Status _) = true |- _ => rewrite Hx in * end).
  all: try congruence.
  all: try (apply status_unchanged).
  all: try (apply status_lookup; done).
  all: try (eapply (status_lookup_update cd true); try done; try congruence;
            eexists; split; [eassumption|]; by apply clusterIDOf_at).
  all: try (apply status_update;
            [match goal with
             | Hx : _ \/ _ |- _ =>
                 destruct Hx as [Hx|Hx%bool_decide_eq_false]; [left|right]; done
             end
            |intros Heq;
             match goal with Hn : _ ≠ Status _ |- _ => apply Hn end;
             destruct (Status cd); cbn in *; congruence]).
Qed.

End StatusShape.

Section CycleShape.
Context {W : Type} (h : Handler W) `{Ext : Externals}.

Lemma reconcileInstall_calls cd d w res w' tr :
  run h (reconcileInstall cd d) w = (res, w', tr) ->
  HasFinalizer (cdMeta cd) FinalizerDeprovision = true ->
  match installJobOf cd with
  | Err err => tr = []
  | Ok job =>
      exists r creates status,
        tr = EGetJob (objectKey (jobMeta job)) r :: creates ++ status /\
        (creates = [] /\ shouldCreate cd r = false \/
         exists e, creates = [ECreate (OJob job) e] /\ shouldCreate cd r = true) /\
        statusCalls cd (isSuccessful (lookedUpJob r)) status
  end.
Proof.
  unfold reconcileInstall, installJobOf. intros H Hg. rewrite Hg in H. cbn in H.
  destruct (SetControllerReference cd _) as [job|err]; [|by run_inv H].
  run_inv H.
  all: eexists _, _, _; split; [reflexivity|].
  all: cbn; rewrite_tests; cbn.
  all: split; [eauto|].
  all: rewrite ?app_nil_r.
  all: try (match goal with
            | Hx : run h (updateClusterDeploymentStatus _ _) _ = _ |- _ =>
                apply updateClusterDeploymentStatus_calls in Hx; exact Hx
            end).
  all: apply status_unchanged.
Qed.

Lemma Reconcile_fetched_body request w res w' tr cd :
  run h (Reconcile request) w = (res, w', tr) ->
  fetched tr request cd ->
  exists w1 r w2 tr1 tr2,
    run h (setupClusterInstallServiceAccount (Namespace (cdMeta cd))) w1 = (r, w2, tr1) /\
    tr = EGetClusterDeployment request (Ok cd) :: tr1 ++ tr2 /\
    cycleBody cd tr2 /\
    (forall err, r = Err err -> tr2 = [] /\ res = (emptyResult, Some err)).
Proof.
  intros Hrun Hf.
  destruct (Reconcile_fetched _ _ _ _ _ _ _ Hrun Hf)
    as (w1 & r & w2 & tr1 & tr2 & Hget & Hsetup & -> & Hrest).
  exists w1, r, w2, tr1, tr2. split; [done|]. split; [done|].
  clear Hrun Hf Hsetup Hget.
  destruct r as [sa|err];
    [split; [|done]|destruct Hrest as (-> & -> & _);
                    split; [apply (body_stopped cd [])|by intros ? [= <-]]].
  destruct (DeletionTimestamp (cdMeta cd)) as [t|] eqn:Hdel.
  - destruct (HasFinalizer (cdMeta cd) FinalizerDeprovision) eqn:Hg;
      [|destruct Hrest as (_ & -> & _); apply (body_stopped cd [])].
    apply syncDeletedClusterDeployment_run in Hrest.
    destruct (uninstallJobOf cd) as [job|err] eqn:Hj;
      [|destruct Hrest as (-> & _); apply (body_stopped cd [])].
    destruct Hrest as (rj & w3 & _ & Hrest).
    destruct rj as [existingJob|err].
    + destruct (isSuccessful existingJob) eqn:Hs.
      * destruct Hrest as (e & -> & _). by eapply body_released.
      * destruct Hrest as [-> _]. by eapply body_uninstall.
    + destruct (IsNotFound err) eqn:Hnf.
      * destruct Hrest as (e & -> & _). by eapply body_uninstall_create.
      * destruct Hrest as [-> _]. by eapply body_uninstall.
  - assert (Hi : forall clocks d w3 tr3,
               run h (reconcileInstall cd d) w3 = (res, w', tr3) ->
               cycleBody cd ((ENow <$> clocks) ++ tr3)).
    { intros clocks d w3 tr3 Hi.
      destruct (HasFinalizer (cdMeta cd) FinalizerDeprovision) eqn:Hg.
      - apply reconcileInstall_calls in Hi; [|done].
        destruct (installJobOf cd) as [job|err] eqn:Hj.
        + destruct Hi as (r & creates & status & -> & Hc & Hst).
          by eapply body_install.
        + subst tr3. rewrite app_nil_r. apply body_stopped.
      - apply reconcileInstall_run in Hi. rewrite Hg in Hi.
        destruct Hi as (e & _ & -> & _). by apply body_guard. }
    apply reconcileExpiry_run in Hrest.
    destruct (Annotations (cdMeta cd) !! deleteAfterAnnotation) as [a|];
      [|by apply (Hi [] _ _ _ Hrest)].
    destruct (ParseDuration a) as [dur|err];
      [|destruct Hrest as (-> & _); apply (body_stopped cd [])].
    destruct (Time_IsZero (CreationTimestamp (cdMeta cd))); [by apply (Hi [] _ _ _ Hrest)|].
    destruct Hrest as (now1 & w3 & _ & Hrest).
    destruct (Time_After now1 (expiryOf cd dur)).
    + destruct Hrest as (e & _ & -> & _). by apply body_expired.
    + destruct Hrest as (now2 & w4 & tr' & _ & -> & Hrest).
      by apply (Hi [now1; now2] _ _ _ Hrest).
Qed.

Lemma Reconcile_head request w res w' tr :
  run h (Reconcile request) w = (res, w', tr) ->
  exists r, head tr = Some (EGetClusterDeployment request r) /\
            forall err, r = Err err -> tr = [EGetClusterDeployment request (Err err)].
Proof.
  unfold Reconcile. intros Hrun. run_inv Hrun; eexists; (split; [reflexivity|]).
  all: try (by intros ? [=]).
  all: by intros ? [= <-].
Qed.

Lemma Reconcile_shape request w res w' tr :
  run h (Reconcile request) w = (res, w', tr) ->
  (exists err, tr = [EGetClusterDeployment request (Err err)]) \/
  exists cd prov body,
    tr = EGetClusterDeployment request (Ok cd) :: prov ++ body /\
    Forall (fun e => isProvisioning e = true) prov /\
    creationsFollowLookups prov /\
    cycleBody cd body.
Proof.
  intros Hrun.
  destruct (Reconcile_head _ _ _ _ _ Hrun) as ([cd|err] & Hhead & Herr).
  - right.
    destruct (Reconcile_fetched_body _ _ _ _ _ cd Hrun Hhead)
      as (w1 & r & w2 & tr1 & tr2 & Hsetup & -> & Hbody & _).
    exists cd, tr1, tr2. split; [done|].
    split; [by apply setupClusterInstallServiceAccount_run in Hsetup as [? _]|].
    split; [by eapply setup_creationsFollowLookups|done].
  - left. exists err. by apply Herr.
Qed.

End CycleShape.

Ltac event_in Hin :=
  repeat match type of Hin with
         | _ ∈ _ ++ _ => apply elem_of_app in Hin as [Hin|Hin]
         | _ ∈ _ <$> _ => apply list_elem_of_fmap in Hin as (? & Hin & _)
         | _ ∈ _ :: _ => apply elem_of_cons in Hin as [Hin|Hin]
         | _ ∈ [] => by apply elem_of_nil in Hin
         | _ = _ => first [discriminate Hin | injection Hin as Hin; subst | subst]
         end.

Ltac in_cycle :=
  repeat first [ apply list_elem_of_here
               | apply list_elem_of_further
               | apply elem_of_app; right ].

(** The bodies of a cycle, once the lists of a shape are concrete. *)
Ltac body_cases Hbody :=
  inversion Hbody; subst;
  repeat match goal with
         | Hc : _ = [] /\ _ \/ _ |- _ => destruct Hc as [[-> Hc]|(? & -> & Hc)]
         | Hst : statusCalls _ _ _ |- _ => inversion Hst; subst; clear Hst
         end.

Lemma filter_provisioning (P : Event -> Prop) `{!forall e, Decision (P e)} (l : list Event) :
  (forall e, P e -> isProvisioning e = false) ->
  Forall (fun e => isProvisioning e = true) l -> filter P l = [].
Proof.
  intros HP. induction 1 as [|e l He _ IH]; [done|].
  rewrite filter_cons, IH. case_decide as Hd; [|done]. apply HP in Hd. congruence.
Qed.

Lemma elem_of_cycle (e x : Event) (prov body : list Event) :
  Forall (fun e => isProvisioning e = true) prov ->
  isProvisioning e = false ->
  e ∈ x :: prov ++ body -> e = x \/ e ∈ body.
Proof.
  intros Hp He Hin. apply elem_of_cons in Hin as [Hin|Hin]; [by left|].
  apply elem_of_app in Hin as [Hin|Hin]; [|by right].
  rewrite Forall_forall in Hp. apply Hp in Hin. congruence.
Qed.

Ltac simpl_filter :=
  repeat first [ rewrite filter_app
               | rewrite filter_clock by (intros ?; cbn; congruence)
               | rewrite filter_cons_True by reflexivity
               | rewrite filter_cons_False by (cbn; congruence)
               | rewrite filter_nil ].

Lemma creationsFollowLookups_app (l1 l2 : list Event) :
  creationsFollowLookups l1 -> creationsFollowLookups l2 ->
  (forall obj e, head l2 ≠ Some (ECreate obj e)) ->
  creationsFollowLookups (l1 ++ l2).
Proof.
  intros H1 H2 Hh i obj e Hi.
  destruct (decide (i < length l1)%nat) as [Hlt|Hge].
  - rewrite lookup_app_l in Hi by done.
    destruct (H1 _ _ _ Hi) as (j & g & -> & Hj & Hg).
    exists j, g. split; [done|]. split; [|done].
    rewrite lookup_app_l by lia. done.
  - rewrite lookup_app_r in Hi by lia.
    destruct (H2 _ _ _ Hi) as (j & g & Heq & Hj & Hg).
    exists (length l1 + j)%nat, g. split; [lia|]. split; [|done].
    rewrite lookup_app_r by lia. by replace (length l1 + j - length l1)%nat with j by lia.
Qed.

Lemma creationsFollowLookups_cons (x : Event) (l : list Event) :
  creationsFollowLookups l ->
  (forall obj e, x ≠ ECreate obj e) ->
  (forall obj e, head l ≠ Some (ECreate obj e)) ->
  creationsFollowLookups (x :: l).
Proof.
  intros Hl Hx Hh. apply (creationsFollowLookups_app [x] l); [|done..].
  intros [|[|i]] obj e Hi; simplify_eq/=. by destruct (Hx obj e).
Qed.

Lemma creationsFollowLookups_clocks (clocks : list Time) :
  creationsFollowLookups (ENow <$> clocks).
Proof.
  intros i obj e Hi. rewrite list_lookup_fmap in Hi.
  destruct (clocks !! i); discriminate.
Qed.

Section CycleFacts.
Context {W : Type} (h : Handler W) `{Ext : Externals}.

(** X10: no cycle writes the resource twice or creates two jobs: its record
    holds at most one update or delete of the resource and at most one
    creation of a job. *)
Theorem cycle_writes_at_most_once request w :
  let tr := (run h (Reconcile request) w).2 in
  (length (filter (fun e => isResourceWrite e = true) tr) <= 1)%nat /\
  (length (filter (fun e => isJobCreate e = true) tr) <= 1)%nat.
Proof.
  destruct (run h (Reconcile request) w) as [[res w'] tr] eqn:Hrun. cbn.
  apply Reconcile_shape in Hrun as [[err ->]|(cd & prov & body & -> & Hprov & _ & Hbody)].
  { simpl_filter. cbn. lia. }
  rewrite !filter_cons_False, !filter_app by (cbn; congruence).
  rewrite !(filter_provisioning _ prov) by (try done; by intros [| | | | | |[]| | |]).
  cbn [app]. body_cases Hbody; simpl_filter; cbn; lia.
Qed.

Lemma cycleBody_creationsFollowLookups cd body :
  cycleBody cd body ->
  creationsFollowLookups body /\ forall obj e, head body ≠ Some (ECreate obj e).
Proof.
  intros Hbody. body_cases Hbody.
  all: split; [|try (by destruct clocks); done].
  all: try apply creationsFollowLookups_clocks.
  all: try (apply creationsFollowLookups_app;
            [apply creationsFollowLookups_clocks| |done]).
  all: intros i obj e0 Hi; cbn [app] in Hi; index_cases Hi.
  all: eexists _, _; split; [reflexivity|]; split; [reflexivity|].
  all: first
         [ by eexists
         | match goal with
           | Hc : shouldCreate _ ?r = true |- _ =>
               destruct r as [|err0]; cbn in Hc; [discriminate|];
               apply andb_true_iff in Hc as [Hc _]; by exists err0
           end ].
Qed.

(** X11: in every cycle each creation (of the service account, the role,
    the role binding, the install job or the uninstall job) comes right
    after a lookup of that object's own name that answered not-found: the
    controller never creates over an object it has not just been told is
    absent. *)
Theorem cycle_creations_follow_lookups request w :
  creationsFollowLookups (run h (Reconcile request) w).2.
Proof.
  destruct (run h (Reconcile request) w) as [[res w'] tr] eqn:Hrun. cbn.
  apply Reconcile_shape in Hrun as [[err ->]|(cd & prov & body & -> & Hprov & Hcreate & Hbody)].
  { intros [|i] obj e Hi; simplify_eq/=. }
  apply cycleBody_creationsFollowLookups in Hbody as [Hb Hh].
  apply creationsFollowLookups_cons; [|done|].
  - by apply creationsFollowLookups_app.
  - intros obj e Heq. destruct prov as [|p prov]; [by eapply Hh|].
    cbn in Heq. simplify_eq. by destruct (Hcreate 0%nat obj e) as (j & g & ? & _).
Qed.

Lemma Reconcile_body request w res w' tr cd :
  run h (Reconcile request) w = (res, w', tr) ->
  fetched tr request cd ->
  exists prov body,
    tr = EGetClusterDeployment request (Ok cd) :: prov ++ body /\
    Forall (fun e => isProvisioning e = true) prov /\
    cycleBody cd body.
Proof.
  intros Hrun Hf.
  apply Reconcile_shape in Hrun as [[err ->]|(cd0 & prov & body & -> & Hprov & _ & Hbody)].
  - unfold fetched in Hf. cbn in Hf. simplify_eq.
  - unfold fetched in Hf. cbn in Hf. simplify_eq. eauto.
Qed.

(** X12: a cycle writes only the resource it fetched.  A delete is issued
    on the resource exactly as read; an update differs from the resource
    as read in its finalizers only (it is the resource with the guard
    added or removed) or in its status only. *)
Theorem cycle_writes_fetched_resource request w res w' tr cd :
  run h (Reconcile request) w = (res, w', tr) ->
  fetched tr request cd ->
  (forall cd' e, EDelete cd' e ∈ tr -> cd' = cd) /\
  (forall cd' e, EUpdate cd' e ∈ tr ->
     SetFinalizers (cdMeta cd') (Finalizers (cdMeta cd)) = cdMeta cd /\
     (cd' = guarded cd \/ cd' = released cd \/
      cdMeta cd' = cdMeta cd /\ Status cd' ≠ Status cd)).
Proof.
  intros Hrun Hf.
  destruct (Reconcile_body _ _ _ _ _ _ Hrun Hf) as (prov & body & -> & Hprov & Hbody).
  split; intros cd' e Hin.
  all: apply elem_of_cycle in Hin as [Hin|Hin]; [discriminate| |done..].
  all: body_cases Hbody; event_in Hin.
  all: try done.
  all: try (split; [by destruct cd as [[] ?]|]).
  all: eauto.
  all: right; right; split; [done|]; cbn.
  all: try (intros Heq; apply (f_equal Installed) in Heq; cbn in Heq; congruence).
  all: congruence.
Qed.

(** X13: a cluster ID is recorded once.  When the resource as read has a
    cluster ID, the cycle never looks the metadata artifact up and every
    update keeps the ID; an update that changes the ID starts from the
    empty ID, marks the resource installed and carries the ID that the
    metadata artifact looked up in this cycle gives. *)
Theorem cluster_id_never_overwritten request w res w' tr cd :
  run h (Reconcile request) w = (res, w', tr) ->
  fetched tr request cd ->
  (ClusterUUID (Status cd) ≠ "" ->
   (forall key r, EGetConfigMap key r ∉ tr) /\
   (forall cd' e, EUpdate cd' e ∈ tr -> ClusterUUID (Status cd') = ClusterUUID (Status cd))) /\
  (forall cd' e,
      EUpdate cd' e ∈ tr ->
      ClusterUUID (Status cd') ≠ ClusterUUID (Status cd) ->
      ClusterUUID (Status cd) = "" /\
      Installed (Status cd') = true /\
      exists cm,
        EGetConfigMap (metadataKey cd) (Ok cm) ∈ tr /\
        metadataGives cm (ClusterUUID (Status cd'))).
Proof.
  intros Hrun Hf.
  destruct (Reconcile_body _ _ _ _ _ _ Hrun Hf) as (prov & body & -> & Hprov & Hbody).
  split; [intros Hset; split|].
  - intros key r Hin.
    apply elem_of_cycle in Hin as [Hin|Hin]; [discriminate| |done..].
    body_cases Hbody; event_in Hin; done.
  - intros cd' e Hin.
    apply elem_of_cycle in Hin as [Hin|Hin]; [discriminate| |done..].
    body_cases Hbody; event_in Hin; done.
  - intros cd' e Hin Hne.
    apply elem_of_cycle in Hin as [Hin|Hin]; [discriminate| |done..].
    body_cases Hbody; event_in Hin; try done.
    all: split; [done|]; split; [done|]; eexists; split; [|eassumption].
    all: in_cycle.
Qed.

(** X14: an update changes the installed flag only to the completion of
    the job the cycle looked up under the install job's name; the flag is
    set to true only when that lookup found a job with Complete=True. *)
Theorem installed_flag_follows_install_job request w res w' tr cd :
  run h (Reconcile request) w = (res, w', tr) ->
  fetched tr request cd ->
  forall cd' e,
    EUpdate cd' e ∈ tr ->
    Installed (Status cd') ≠ Installed (Status cd) ->
    exists job r,
      installJobOf cd = Ok job /\
      EGetJob (objectKey (jobMeta job)) r ∈ tr /\
      Installed (Status cd') = isSuccessful (lookedUpJob r) /\
      (Installed (Status cd') = true ->
       exists existingJob, r = Ok existingJob /\ isSuccessful existingJob = true).
Proof.
  intros Hrun Hf cd' e Hin Hne.
  destruct (Reconcile_body _ _ _ _ _ _ Hrun Hf) as (prov & body & -> & Hprov & Hbody).
  apply elem_of_cycle in Hin as [Hin|Hin]; [discriminate| |done..].
  body_cases Hbody; event_in Hin; try done.
  all: eexists _, _; split; [eassumption|].
  all: split; [in_cycle|].
  all: cbn in *; split; [done|].
  all: intros Htrue.
  all: match goal with |- exists _, ?r = _ /\ _ => destruct r as [ej|]; [by exists ej|] end.
  all: cbn in *; congruence.
Qed.

End CycleFacts.

(** ** The status update *)

Section StatusUpdate.
Context {W : Type} (h : Handler W) `{Ext : Externals}.

(** X15: the status update on a resource computed installed, without
    cluster ID, whose metadata artifact is found and gives the ID [uuid]:
    it makes the lookup and one update with Installed true and that ID, and
    returns the answer of the update; when this status is the one the
    resource has already (installed, and the ID given is empty), it
    stops after the lookup and returns no error. *)
Theorem status_update_records_cluster_id cd job w cm w1 uuid :
  computedInstalled cd job = true ->
  ClusterUUID (Status cd) = "" ->
  h _ (GetConfigMap (metadataKey cd)) w = (Ok cm, w1) ->
  metadataGives cm uuid ->
  let recorded := withStatus cd {| Installed := true; ClusterUUID := uuid |} in
  let lookup := EGetConfigMap (metadataKey cd) (Ok cm) in
  if decide (Status recorded = Status cd)
  then run h (updateClusterDeploymentStatus cd job) w = (None, w1, [lookup])
  else
    let answer := h _ (Update recorded) w1 in
    run h (updateClusterDeploymentStatus cd job) w =
    (answer.1, answer.2, [lookup; EUpdate recorded answer.1]).
Proof.
  intros Hinst Huuid Hget (objMap & Hdecode & Hid) recorded lookup.
  apply clusterIDOf_at in Hid.
  subst recorded lookup. cbn [Status withStatus].
  unfold computedInstalled, metadataKey, updateClusterDeploymentStatus, persistStatus in *.
  destruct job as [job|]; cbn; rewrite Hinst, Huuid; cbn;
    (rewrite bool_decide_eq_true_2 by done); cbn; rewrite Hget; cbn;
    rewrite Hdecode, Hid; cbn.
  all: destruct (decide _) as [Heq|Hne]; cbn; [done|].
  all: unfold withStatus; cbn; try rewrite Hinst.
  all: by destruct (h _ _ w1).
Qed.

(** X16: the status update persists changes only.  An update it issues
    keeps the metadata, carries a status different from the one read with
    the installed flag it computed, is its last call, and its answer is
    what the function returns; it never creates or deletes, and issues at
    most one update; when the computed flag is the one read and no cluster
    ID is to be looked up, it makes no call at all. *)
Theorem status_update_writes_only_changes cd job w e w' tr :
  run h (updateClusterDeploymentStatus cd job) w = (e, w', tr) ->
  (forall cd' e',
      EUpdate cd' e' ∈ tr ->
      cdMeta cd' = cdMeta cd /\
      Status cd' ≠ Status cd /\
      Installed (Status cd') = computedInstalled cd job /\
      e' = e /\
      last tr = Some (EUpdate cd' e')) /\
  (forall x, x ∈ mutations tr -> exists cd' e', x = EUpdate cd' e') /\
  (length (mutations tr) <= 1)%nat /\
  (computedInstalled cd job = Installed (Status cd) ->
   computedInstalled cd job = false \/ ClusterUUID (Status cd) ≠ "" ->
   tr = [] /\ e = None /\ w' = w).
Proof.
  unfold updateClusterDeploymentStatus, persistStatus, computedInstalled. intros H.
  destruct job as [job|]; run_inv H.
  all: repeat match goal with Hx : decide _ = _ |- _ => clear Hx end.
  all: repeat match goal with
         | Hx : _ && _ = true |- _ => apply andb_true_iff in Hx as [? ?]
         | Hx : _ && _ = false |- _ => apply andb_false_iff in Hx
         | Hx : bool_decide _ = true |- _ => apply bool_decide_eq_true in Hx
         | Hx : bool_decide _ = false |- _ => apply bool_decide_eq_false in Hx
         end.
  all: cbn [app]; simpl_mutations.
  all: split; [intros cd' e' Hin; event_in Hin; cbn; try done|].
  all: split; [intros x Hin; event_in Hin; eauto|].
  all: split; [cbn; lia|].
  all: intros Hsame Hskip; try done.
  all: exfalso.
  all: try (destruct Hskip; congruence).
  all: match goal with Hn : _ ≠ Status _ |- _ => apply Hn end.
  all: destruct (Status cd); cbn in *; congruence.
Qed.

End StatusUpdate.

(** ** The paths of a cycle *)

Section Fetch.
Context {W : Type} (h : Handler W) `{Ext : Externals}.

(** X17: a cycle begins with one fetch of the requested resource and never
    fetches it again; when the fetch fails the cycle makes no other call,
    and returns success for a not-found answer and the error itself
    otherwise. *)
Theorem cycle_fetches_once request w :
  let o := run h (Reconcile request) w in
  let answer := h _ (GetClusterDeployment request) w in
  exists rest,
    o.2 = EGetClusterDeployment request answer.1 :: rest /\
    filter (fun e => isFetch e = true) rest = [] /\
    (forall err, answer.1 = Err err ->
       rest = [] /\
       o.1.1 = (emptyResult, if IsNotFound err then None else Some err) /\
       o.1.2 = answer.2).
Proof.
  destruct (run h (Reconcile request) w) as [[res w'] tr] eqn:Hrun. cbn.
  destruct (h _ (GetClusterDeployment request) w) as [r w1] eqn:Hget. cbn.
  destruct r as [cd|err].
  - assert (Hf : fetched tr request cd).
    { unfold Reconcile in Hrun. cbn in Hrun. rewrite Hget in Hrun.
      destruct (run h _ w1) as [[? ?] ?]. by simplify_eq. }
    destruct (Reconcile_fetched_body _ _ _ _ _ _ _ Hrun Hf)
      as (w2 & r & w3 & tr1 & tr2 & Hsetup & -> & Hbody & _).
    apply setupClusterInstallServiceAccount_run in Hsetup as [Hprov _].
    exists (tr1 ++ tr2). split; [done|]. split; [|done].
    rewrite filter_app, (filter_provisioning _ tr1) by (try done; by intros [| | | | | |[]| | |]).
    cbn. body_cases Hbody; simpl_filter; done.
  - unfold Reconcile in Hrun. cbn in Hrun. rewrite Hget in Hrun. cbn in Hrun.
    exists []. destruct (IsNotFound err) eqn:Hnf; cbn in Hrun; simplify_eq.
    all: split; [done|]; split; [done|]; intros err0 [= <-]; by rewrite Hnf.
Qed.
End Fetch.

Section Paths.
Context {W : Type} (h : Handler W) `{Ext : Externals}.

Lemma Reconcile_result request w res w' tr :
  run h (Reconcile request) w = (res, w', tr) ->
  res.1 = emptyResult \/
  res.2 = None /\ Requeue res.1 = true /\ RequeueAfter res.1 ≠ 0.
Proof.
  intros Hrun.
  destruct (head tr) as [[key [cd|err]| | | | | | | | |]|] eqn:Hhead.
  all: try (unfold Reconcile in Hrun; run_inv Hrun; cbn in Hhead; simplify_eq; fail).
  2: { unfold Reconcile in Hrun; run_inv Hrun; cbn in Hhead; simplify_eq; by left. }
  assert (key = request) as ->.
  { unfold Reconcile in Hrun. run_inv Hrun; cbn in Hhead; by simplify_eq. }
  assert (Hf : fetched tr request cd) by done.
  destruct (Reconcile_fetched _ _ _ _ _ _ _ Hrun Hf)
    as (w1 & r & w2 & tr1 & tr2 & Hget & Hsetup & -> & Hrest).
  clear Hrun Hf Hhead Hsetup Hget.
  destruct r as [sa|err]; [|destruct Hrest as (-> & _); by left].
  destruct (DeletionTimestamp (cdMeta cd)) as [t|] eqn:Hdel.
  - destruct (HasFinalizer (cdMeta cd) FinalizerDeprovision) eqn:Hg;
      [|destruct Hrest as (-> & _); by left].
    apply syncDeletedClusterDeployment_run in Hrest.
    destruct (uninstallJobOf cd) as [job|err] eqn:Hj;
      [|destruct Hrest as (_ & -> & _); by left].
    destruct Hrest as (rj & w3 & _ & Hrest).
    destruct rj as [existingJob|err];
      [destruct (isSuccessful existingJob)|destruct (IsNotFound err)];
      try destruct Hrest as (e & _ & ->); try destruct Hrest as (_ & ->); by left.
  - assert (Hi : forall d w3 tr3,
               run h (reconcileInstall cd d) w3 = (res, w', tr3) ->
               res.1 = emptyResult \/
               res.2 = None /\ Requeue res.1 = true /\ RequeueAfter res.1 ≠ 0).
    { intros d w3 tr3 Hi. apply reconcileInstall_run in Hi.
      destruct (HasFinalizer (cdMeta cd) FinalizerDeprovision).
      - destruct (installJobOf cd) as [job|err];
          [|destruct Hi as (_ & -> & _); by left].
        destruct Hi as (r & w4 & creates & rest & _ & _ & _ & _ & Hres).
        destruct (res.2) as [err|]; [by left|]. rewrite Hres. cbn.
        case_bool_decide as Hd; [by right|].
        left. by rewrite Hd.
      - destruct Hi as (e & _ & _ & ->). by left. }
    apply reconcileExpiry_run in Hrest.
    destruct (Annotations (cdMeta cd) !! deleteAfterAnnotation) as [a|];
      [|by eapply Hi].
    destruct (ParseDuration a) as [dur|err];
      [|destruct Hrest as (_ & _ & err' & ->); by left].
    destruct (Time_IsZero (CreationTimestamp (cdMeta cd))); [by eapply Hi|].
    destruct Hrest as (now1 & w3 & _ & Hrest).
    destruct (Time_After now1 (expiryOf cd dur)).
    + destruct Hrest as (e & _ & _ & ->). by left.
    + destruct Hrest as (now2 & w4 & tr' & _ & _ & Hrest). by eapply Hi.
Qed.

(** X18: a cycle that returns an error returns the empty result; the
    result asks for a requeue exactly when its delay is not zero, and
    never together with an error. *)
Theorem error_results_are_empty request w :
  let res := (run h (Reconcile request) w).1.1 in
  (res.2 ≠ None -> res.1 = emptyResult) /\
  (Requeue res.1 = bool_decide (RequeueAfter res.1 ≠ 0)) /\
  (Requeue res.1 = true -> res.2 = None).
Proof.
  destruct (run h (Reconcile request) w) as [[res w'] tr] eqn:Hrun. cbn.
  apply Reconcile_result in Hrun as [->|(Hnil & Hreq & Hafter)].
  - repeat split; try done.
  - rewrite Hreq, bool_decide_eq_true_2 by done. repeat split; try done.
Qed.

Lemma setup_failure ns w r w' tr :
  run h (setupClusterInstallServiceAccount ns) w = (r, w', tr) ->
  isOk r = false ->
  (exists e, last tr = Some e /\ provisioningFailed e = true) /\
  exists msg, r = Err (Errorf msg).
Proof.
  unfold setupClusterInstallServiceAccount, setupRole, setupRoleBinding.
  intros H Hok. run_inv H.
  all: cbn in Hok; try discriminate Hok.
  all: split; [|by eexists].
  all: eexists; split; [reflexivity|]; cbn; rewrite_tests; done.
Qed.

Lemma provisioningFailed_isProvisioning (e : Event) :
  provisioningFailed e = true -> isProvisioning e = true.
Proof. by destruct e as [| | | | | |[] []| | |]. Qed.

Lemma cycleBody_not_provisioning cd body :
  cycleBody cd body -> Forall (fun e => isProvisioning e = false) body.
Proof.
  intros Hbody. apply Forall_forall. intros e Hin.
  body_cases Hbody; event_in Hin; done.
Qed.

(** X19: when a call of the access provisioner fails, the cycle returns a
    formatted error with the empty result, and after the fetch it has made
    calls of the access provisioner only, the failed one last: nothing is
    read or written about the resource, its jobs or the clock. *)
Theorem provisioning_failure_aborts_cycle request w res w' tr cd :
  run h (Reconcile request) w = (res, w', tr) ->
  fetched tr request cd ->
  ~ accessProvisioned tr ->
  (exists msg, res = (emptyResult, Some (Errorf msg))) /\
  Forall (fun e => isProvisioning e = true) (tail tr) /\
  (exists e, last tr = Some e /\ provisioningFailed e = true).
Proof.
  intros Hrun Hf Hfail.
  destruct (Reconcile_fetched_body _ _ _ _ _ _ _ Hrun Hf)
    as (w1 & r & w2 & tr1 & tr2 & Hsetup & -> & Hbody & Herr).
  pose proof (setupClusterInstallServiceAccount_run _ _ _ _ _ _ Hsetup) as [Hprov Hok].
  assert (Hr : isOk r = false).
  { destruct (isOk r) eqn:E; [|done]. exfalso. apply Hfail.
    unfold accessProvisioned. apply Forall_cons. split; [done|].
    apply Forall_app. split; [by apply Hok|].
    apply cycleBody_not_provisioning in Hbody.
    eapply Forall_impl; [exact Hbody|]. intros e He. cbn in He.
    destruct (provisioningFailed e) eqn:Ef; [|done].
    apply provisioningFailed_isProvisioning in Ef. congruence. }
  destruct (setup_failure _ _ _ _ _ Hsetup Hr) as ((e & Hlast & He) & msg & ->).
  destruct (Herr _ eq_refl) as [-> ->]. rewrite app_nil_r.
  split; [by eexists|]. split; [done|].
  exists e. split; [|done]. by apply last_skip.
Qed.

(** X20: a delete-after annotation that does not parse stops the cycle of
    a resource without deletion request: it returns the parse error, and
    after the fetch it has made calls of the access provisioner only, so
    that the guard is not added and no job is looked up or created. *)
Theorem unparsable_annotation_stops_cycle request w res w' tr cd deleteAfter err :
  run h (Reconcile request) w = (res, w', tr) ->
  fetched tr request cd ->
  DeletionTimestamp (cdMeta cd) = None ->
  Annotations (cdMeta cd) !! deleteAfterAnnotation = Some deleteAfter ->
  ParseDuration deleteAfter = Err err ->
  accessProvisioned tr ->
  res = (emptyResult,
         Some (Errorf ("error parsing " +:+ deleteAfterAnnotation +:+
                       " as a duration: " +:+ Error err))) /\
  Forall (fun e => isProvisioning e = true) (tail tr).
Proof.
  intros Hrun Hf Hdel Ha Hp Hacc.
  destruct (Reconcile_fetched _ _ _ _ _ _ _ Hrun Hf)
    as (w1 & r & w2 & tr1 & tr2 & Hget & Hsetup & -> & Hrest).
  pose proof (setupClusterInstallServiceAccount_run _ _ _ _ _ _ Hsetup) as [Hprov Hok].
  assert (Hacc1 : accessProvisioned tr1).
  { unfold accessProvisioned in *. rewrite Forall_cons, Forall_app in Hacc. tauto. }
  apply Hok in Hacc1. destruct r as [sa|e]; [|done].
  rewrite Hdel in Hrest. unfold reconcileExpiry in Hrest. rewrite Ha, Hp in Hrest.
  cbn in Hrest. simplify_eq. rewrite app_nil_r. done.
Qed.

Lemma deleted_cycle_calls request w res w' tr cd :
  run h (Reconcile request) w = (res, w', tr) ->
  fetched tr request cd ->
  is_Some (DeletionTimestamp (cdMeta cd)) ->
  nows tr = [] /\
  res.1 = emptyResult /\
  (forall cd' e, EDelete cd' e ∉ tr) /\
  (forall key r, EGetConfigMap key r ∉ tr) /\
  (forall cd' e, EUpdate cd' e ∈ tr -> cd' = released cd) /\
  (forall key r, EGetJob key r ∈ tr ->
     exists job, uninstallJobOf cd = Ok job /\ key = objectKey (jobMeta job)).
Proof.
  intros Hrun Hf [t Hdel].
  destruct (Reconcile_fetched _ _ _ _ _ _ _ Hrun Hf)
    as (w1 & r & w2 & tr1 & tr2 & Hget & Hsetup & -> & Hrest).
  pose proof (setupClusterInstallServiceAccount_run _ _ _ _ _ _ Hsetup) as [Hprov Hok].
  clear Hrun Hf Hsetup Hget.
  assert (Hshape : res.1 = emptyResult /\
            (tr2 = [] \/
             exists job rj, uninstallJobOf cd = Ok job /\
               (tr2 = [EGetJob (objectKey (jobMeta job)) rj] \/
                (exists e, tr2 = [EGetJob (objectKey (jobMeta job)) rj; ECreate (OJob job) e]) \/
                (exists e, tr2 = [EGetJob (objectKey (jobMeta job)) rj;
                                  EUpdate (released cd) e])))).
  { destruct r as [sa|err]; [|destruct Hrest as (-> & -> & _); split; [done|by left]].
    rewrite Hdel in Hrest.
    destruct (HasFinalizer (cdMeta cd) FinalizerDeprovision);
      [|destruct Hrest as (-> & -> & _); split; [done|by left]].
    apply syncDeletedClusterDeployment_run in Hrest.
    destruct (uninstallJobOf cd) as [job|err];
      [|destruct Hrest as (-> & -> & _); split; [done|by left]].
    destruct Hrest as (rj & w3 & _ & Hrest).
    destruct rj as [existingJob|err];
      [destruct (isSuccessful existingJob)|destruct (IsNotFound err)];
      try destruct Hrest as (e & -> & ->); try destruct Hrest as (-> & ->);
      (split; [done|]); right; eexists _, _; (split; [reflexivity|]); eauto. }
  destruct Hshape as [Hres Htr2].
  split; [|split; [done|]].
  { cbn. rewrite nows_app, nows_provisioning by done.
    destruct Htr2 as [->|(job & rj & _ & [->|[(e & ->)|(e & ->)]])]; done. }
  assert (Hin2 : forall e, isProvisioning e = false ->
                   e ≠ EGetClusterDeployment request (Ok cd) ->
                   e ∈ EGetClusterDeployment request (Ok cd) :: tr1 ++ tr2 -> e ∈ tr2).
  { intros e He Hne Hin. by apply elem_of_cycle in Hin as [->|]. }
  repeat split.
  - intros cd' e Hin%Hin2; try done.
    destruct Htr2 as [->|(job & rj & _ & [->|[(e0 & ->)|(e0 & ->)]])]; event_in Hin.
  - intros key r0 Hin%Hin2; try done.
    destruct Htr2 as [->|(job & rj & _ & [->|[(e0 & ->)|(e0 & ->)]])]; event_in Hin.
  - intros cd' e Hin%Hin2; try done.
    destruct Htr2 as [->|(job & rj & _ & [->|[(e0 & ->)|(e0 & ->)]])]; event_in Hin; done.
  - intros key r0 Hin%Hin2; try done.
    destruct Htr2 as [->|(job & rj & Hj & [->|[(e0 & ->)|(e0 & ->)]])]; event_in Hin;
      by exists job.
Qed.

Lemma deleted_cycle_without_guard request w res w' tr cd :
  run h (Reconcile request) w = (res, w', tr) ->
  fetched tr request cd ->
  is_Some (DeletionTimestamp (cdMeta cd)) ->
  HasFinalizer (cdMeta cd) FinalizerDeprovision = false ->
  Forall (fun e => isProvisioning e = true) (tail tr) /\
  (accessProvisioned tr -> res = (emptyResult, None)).
Proof.
  intros Hrun Hf [t Hdel] Hg.
  destruct (Reconcile_fetched _ _ _ _ _ _ _ Hrun Hf)
    as (w1 & r & w2 & tr1 & tr2 & Hget & Hsetup & -> & Hrest).
  pose proof (setupClusterInstallServiceAccount_run _ _ _ _ _ _ Hsetup) as [Hprov Hok].
  rewrite Hdel, Hg in Hrest.
  destruct r as [sa|err]; destruct Hrest as (-> & -> & _); rewrite app_nil_r.
  - done.
  - split; [done|]. intros Hacc.
    assert (Hacc1 : accessProvisioned tr1).
    { unfold accessProvisioned in *. rewrite Forall_cons in Hacc. tauto. }
    by apply Hok in Hacc1.
Qed.

(** X21: for a resource with a deletion request the expiry policy and the
    install phase are skipped: the cycle never reads the clock, issues no
    delete, looks up no metadata artifact, returns the empty result, its
    only update is the one that removes the guard, and the only job it
    looks up is the uninstall job; without the guard it makes calls of the
    access provisioner only, and returns no error when these succeed. *)
Theorem deleted_resource_bypasses_expiry_and_install request w res w' tr cd :
  run h (Reconcile request) w = (res, w', tr) ->
  fetched tr request cd ->
  is_Some (DeletionTimestamp (cdMeta cd)) ->
  nows tr = [] /\
  res.1 = emptyResult /\
  (forall cd' e, EDelete cd' e ∉ tr) /\
  (forall key r, EGetConfigMap key r ∉ tr) /\
  (forall cd' e, EUpdate cd' e ∈ tr -> cd' = released cd) /\
  (forall key r, EGetJob key r ∈ tr ->
     exists job, uninstallJobOf cd = Ok job /\ key = objectKey (jobMeta job)) /\
  (HasFinalizer (cdMeta cd) FinalizerDeprovision = false ->
   Forall (fun e => isProvisioning e = true) (tail tr) /\
   (accessProvisioned tr -> res = (emptyResult, None))).
Proof.
  intros Hrun Hf Hdel.
  destruct (deleted_cycle_calls _ _ _ _ _ _ Hrun Hf Hdel)
    as (Hnows & Hres & Hdelete & Hlookup & Hupdate & Hjob).
  repeat (split; [assumption|]).
  intros Hg. by eapply deleted_cycle_without_guard.
Qed.

End Paths.

Lemma resourceMutations_keep (e : Event) (l : list Event) :
  is_mutation e && negb (isProvisioning e) = true ->
  resourceMutations (e :: l) = e :: resourceMutations l.
Proof. unfold resourceMutations. rewrite filter_cons. intros ->. by case_decide. Qed.

Section Deletion.
Context {W : Type} (h : Handler W) `{Ext : Externals}.

(** The record of a cycle on a resource that has the guard and a deletion
    request: a job creation is in it exactly when a not-found lookup of
    the uninstall job is in it; the creation is then the last call. *)
Lemma uninstall_creation_record request w res w' tr cd :
  run h (Reconcile request) w = (res, w', tr) ->
  fetched tr request cd ->
  is_Some (DeletionTimestamp (cdMeta cd)) ->
  HasFinalizer (cdMeta cd) FinalizerDeprovision = true ->
  ((exists job e, ECreate (OJob job) e ∈ tr) <->
   (exists job err,
       uninstallJobOf cd = Ok job /\
       EGetJob (objectKey (jobMeta job)) (Err err) ∈ tr /\
       IsNotFound err = true)) /\
  (forall job e,
      ECreate (OJob job) e ∈ tr ->
      uninstallJobOf cd = Ok job /\
      res = (emptyResult, e) /\
      last tr = Some (ECreate (OJob job) e) /\
      resourceMutations tr = [ECreate (OJob job) e]).
Proof.
  intros Hrun Hf [t Hdel] Hg.
  destruct (Reconcile_fetched _ _ _ _ _ _ _ Hrun Hf)
    as (w1 & r & w2 & tr1 & tr2 & Hget & Hsetup & -> & Hrest).
  pose proof (setupClusterInstallServiceAccount_run _ _ _ _ _ _ Hsetup) as [Hprov Hok].
  clear Hrun Hf Hsetup Hget. rewrite Hdel, Hg in Hrest.
  assert (Hin2 : forall e, isProvisioning e = false ->
                   e ≠ EGetClusterDeployment request (Ok cd) ->
                   e ∈ EGetClusterDeployment request (Ok cd) :: tr1 ++ tr2 -> e ∈ tr2).
  { intros e He Hne Hin. by apply elem_of_cycle in Hin as [->|]. }
  assert (Hcase :
    (exists job err e,
        uninstallJobOf cd = Ok job /\ IsNotFound err = true /\
        tr2 = [EGetJob (objectKey (jobMeta job)) (Err err); ECreate (OJob job) e] /\
        res = (emptyResult, e)) \/
    (forall job e, ECreate (OJob job) e ∉ tr2) /\
    (forall job err, uninstallJobOf cd = Ok job ->
                     EGetJob (objectKey (jobMeta job)) (Err err) ∈ tr2 ->
                     IsNotFound err = false)).
  { destruct r as [sa|err];
      [|destruct Hrest as (_ & -> & _); right; split; intros; [apply not_elem_of_nil|];
        by match goal with Hx : _ ∈ [] |- _ => apply elem_of_nil in Hx end].
    apply syncDeletedClusterDeployment_run in Hrest.
    destruct (uninstallJobOf cd) as [job|err] eqn:Hj.
    - destruct Hrest as (rj & w3 & _ & Hrest).
      destruct rj as [existingJob|err];
        [destruct (isSuccessful existingJob)|destruct (IsNotFound err) eqn:Hnf].
      + destruct Hrest as (e & -> & ->). right. split.
        * intros job0 e0 Hin. event_in Hin.
        * intros job0 err0 _ Hin. event_in Hin.
      + destruct Hrest as (-> & ->). right. split.
        * intros job0 e0 Hin. event_in Hin.
        * intros job0 err0 _ Hin. event_in Hin.
      + destruct Hrest as (e & -> & ->). left. by exists job, err, e.
      + destruct Hrest as (-> & ->). right. split.
        * intros job0 e0 Hin. event_in Hin.
        * intros job0 err0 ? Hin. event_in Hin. done.
    - destruct Hrest as (-> & _). right. split.
      + intros job0 e0 Hin. event_in Hin.
      + intros job0 err0 ? Hin. event_in Hin. }
  destruct Hcase as [(job & err & e & Hj & Hnf & -> & ->)|[Hnone Hfound]].
  - split; [split|].
    + intros _. exists job, err. split; [done|]. split; [in_cycle|done].
    + intros _. exists job, e. in_cycle.
    + intros job0 e0 Hin%Hin2; try done. event_in Hin.
      split; [done|]. split; [done|]. split.
      * by apply last_skip, last_app_Some.
      * rewrite resourceMutations_skip, resourceMutations_app by done.
        rewrite (resourceMutations_provisioning _ Hprov).
        rewrite resourceMutations_skip, resourceMutations_keep by done. done.
  - split; [split|].
    + intros (job & e & Hin%Hin2); try done. by apply Hnone in Hin.
    + intros (job & err & Hj & Hin%Hin2 & Hnf); try done.
      rewrite (Hfound _ _ Hj Hin) in Hnf. discriminate.
    + intros job e Hin%Hin2; try done. by apply Hnone in Hin.
Qed.

End Deletion.

Lemma requeueAfter_sign (remaining : Z) :
  let d := Duration_add
             (if remaining <? minDuration then minDuration
              else if maxDuration <? remaining then maxDuration else remaining)
             (60 * Second) in
  (remaining = - (60 * Second) -> d = 0) /\
  (- (60 * Second) < remaining <= maxDuration - 60 * Second -> d = remaining + 60 * Second) /\
  (remaining < - (60 * Second) -> d < 0) /\
  (maxDuration - 60 * Second < remaining -> d < 0).
Proof.
  unfold Duration_add, wrap64, minDuration, maxDuration, Second. cbn zeta.
  destruct (Z.ltb_spec remaining (- 2 ^ 63)); [|destruct (Z.ltb_spec (2 ^ 63 - 1) remaining)].
  - repeat split; intros; try lia. all: vm_compute; done.
  - repeat split; intros; try lia. all: vm_compute; done.
  - repeat split; intros Hr.
    + subst. vm_compute. done.
    + rewrite Z.mod_small by lia. lia.
    + rewrite Z.mod_small by lia. lia.
    + replace (remaining + 60 * 1000000000 + 2 ^ 63)
        with ((remaining + 60 * 1000000000 + 2 ^ 63 - 2 ^ 64) + 1 * 2 ^ 64) by lia.
      rewrite Z.mod_add by lia. rewrite Z.mod_small by lia. lia.
Qed.

Section Delay.
Context {W : Type} (h : Handler W) `{Ext : Externals}.

(** X23: the retry delay at its edges.  In a cycle that reads the clock
    twice and ends without error, with remaining = expiry - second
    reading: when remaining is exactly -60 s the delay is zero and the
    result is the empty one, without requeue; when it is above -60 s and
    at most the largest Duration minus 60 s the result asks for a requeue
    after remaining + 60 s; below -60 s, or above that bound (where the
    sum wraps around), the result asks for a requeue with a negative
    delay. *)
Theorem requeue_delay_edges request w res w' tr cd deleteAfter dur now1 now2 :
  run h (Reconcile request) w = (res, w', tr) ->
  fetched tr request cd ->
  Annotations (cdMeta cd) !! deleteAfterAnnotation = Some deleteAfter ->
  ParseDuration deleteAfter = Ok dur ->
  nows tr = [now1; now2] ->
  res.2 = None ->
  HasFinalizer (cdMeta cd) FinalizerDeprovision = true ->
  let remaining := expiryOf cd dur - now2 in
  (remaining = - (60 * Second) -> res.1 = emptyResult) /\
  (- (60 * Second) < remaining <= maxDuration - 60 * Second ->
   res.1 = {| Requeue := true; RequeueAfter := remaining + 60 * Second |}) /\
  (remaining < - (60 * Second) \/ maxDuration - 60 * Second < remaining ->
   Requeue res.1 = true /\ RequeueAfter res.1 < 0).
Proof.
  intros Hrun Hf Ha Hp Hnows Hnil Hg remaining.
  destruct (Reconcile_fetched _ _ _ _ _ _ _ Hrun Hf)
    as (w1 & r & w2 & tr1 & tr2 & Hget & Hsetup & -> & Hrest).
  pose proof (setupClusterInstallServiceAccount_run _ _ _ _ _ _ Hsetup) as [Hprov Hok].
  clear Hrun Hf Hsetup Hget.
  cbn in Hnows. rewrite nows_app, nows_provisioning in Hnows by done. cbn in Hnows.
  destruct r as [sa|err]; [|destruct Hrest as (_ & -> & _); discriminate].
  destruct (DeletionTimestamp (cdMeta cd)) as [t|].
  { destruct (HasFinalizer (cdMeta cd) FinalizerDeprovision); [|by destruct Hrest as (_ & -> & _)].
    apply syncDeletedClusterDeployment_run in Hrest.
    destruct (uninstallJobOf cd) as [job|err]; [|by destruct Hrest as (-> & _)].
    destruct Hrest as (rj & w3 & _ & Hrest).
    destruct rj as [existingJob|err];
      [destruct (isSuccessful existingJob)|destruct (IsNotFound err)];
      try destruct Hrest as (e & -> & _); try destruct Hrest as (-> & _); discriminate. }
  apply reconcileExpiry_run in Hrest. rewrite Ha, Hp in Hrest.
  assert (Hquiet : forall d w3, run h (reconcileInstall cd d) w3 = (res, w', tr2) -> False).
  { intros d w3 Hi. apply reconcileInstall_run in Hi. rewrite Hg in Hi.
    destruct (installJobOf cd) as [job|err]; [|by destruct Hi as (-> & _)].
    destruct Hi as (rj & w4 & creates & rest & _ & -> & Hc & Hst & _).
    cbn in Hnows. rewrite nows_app, (nows_status _ _ Hst) in Hnows.
    by destruct Hc as [[-> _]|(e & -> & _)]. }
  destruct (Time_IsZero (CreationTimestamp (cdMeta cd))); [by destruct (Hquiet _ _ Hrest)|].
  destruct Hrest as (t1 & w3 & _ & Hrest).
  destruct (Time_After t1 (expiryOf cd dur)).
  { destruct Hrest as (e & _ & -> & _). discriminate. }
  destruct Hrest as (t2 & w4 & tr' & _ & -> & Hi).
  apply reconcileInstall_run in Hi. rewrite Hg in Hi.
  destruct (installJobOf cd) as [job|err]; [|destruct Hi as (_ & -> & _); discriminate].
  destruct Hi as (rj & w5 & creates & rest & _ & -> & Hc & Hst & Hres).
  assert (t2 = now2) as ->.
  { cbn in Hnows. rewrite nows_app, (nows_status _ _ Hst) in Hnows.
    destruct Hc as [[-> _]|(e & -> & _)]; cbn in Hnows; congruence. }
  rewrite Hnil in Hres. fold remaining in Hres.
  pose proof (requeueAfter_sign remaining) as (Hzero & Hexact & Hneg & Hover).
  unfold Time_Sub in Hres. fold remaining in Hres.
  set (d := Duration_add _ _) in *. cbn zeta in *. fold d in Hzero, Hexact, Hneg, Hover.
  rewrite Hres. cbn. split; [|split].
  - intros Hr. rewrite (Hzero Hr). done.
  - intros Hr. rewrite (Hexact Hr).
    rewrite bool_decide_eq_true_2; [done|]. unfold Second in *. lia.
  - intros Hr. assert (d < 0) by (destruct Hr; auto).
    rewrite bool_decide_eq_true_2 by lia. done.
Qed.

End Delay.

(** ** Cycle after cycle on the in-memory store *)

Section Flow.
Context `{Ext : Externals}.

(** The install phase against the store, for a resource that has the
    guard. *)
Lemma install_absent (t : Time) (s : Store) cd job :
  HasFinalizer (cdMeta cd) FinalizerDeprovision = true ->
  installJobOf cd = Ok job ->
  jobs s !! objectKey (jobMeta job) = None ->
  Installed (Status cd) = false ->
  run (apiserver t) (reconcileInstall cd 0) s =
  ((emptyResult, None),
   {| clusterDeployments := clusterDeployments s;
      jobs := <[objectKey (jobMeta job) := job]> (jobs s);
      configMaps := configMaps s; serviceAccounts := serviceAccounts s;
      roles := roles s; roleBindings := roleBindings s |},
   [EGetJob (objectKey (jobMeta job)) (Err notFound); ECreate (OJob job) None]).
Proof.
  intros Hg Hj Hnone Hinst. unfold reconcileInstall, installJobOf in *.
  rewrite Hg, Hj. cbn. rewrite (storeGet_None _ _ Hnone). cbn. rewrite Hinst. cbn.
  rewrite Hnone. cbn.
  unfold updateClusterDeploymentStatus, persistStatus. cbn.
  rewrite decide_True; [done|]. destruct (Status cd); cbn in *. by subst.
Qed.

Lemma install_guard (t : Time) (s : Store) cd d :
  HasFinalizer (cdMeta cd) FinalizerDeprovision = false ->
  DeletionTimestamp (cdMeta cd) = None ->
  is_Some (clusterDeployments s !! objectKey (cdMeta cd)) ->
  run (apiserver t) (reconcileInstall cd d) s =
  ((emptyResult, None),
   withClusterDeployments s (<[objectKey (cdMeta cd) := guarded cd]> (clusterDeployments s)),
   [EUpdate (guarded cd) None]).
Proof.
  intros Hg Hdel [stored Hs]. unfold reconcileInstall, addClusterDeploymentFinalizer.
  rewrite Hg. cbn. unfold storeUpdate, reclaimable. cbn.
  change (objectKey (AddFinalizer (cdMeta cd) FinalizerDeprovision))
    with (objectKey (cdMeta cd)).
  rewrite Hs, Hdel. done.
Qed.

(** X24: two cycles on the in-memory store for a new resource (no deletion
    request, no delete-after annotation, no guard, not installed, no
    install job): the first stores the resource with the guard and touches
    no job; the second, which reads the guarded resource, leaves the
    resource as it is and creates the install job; both return no
    error. *)
Theorem install_starts_in_second_cycle (t1 t2 : Time) request (s : Store) cd job :
  wellKeyed s ->
  clusterDeployments s !! request = Some cd ->
  DeletionTimestamp (cdMeta cd) = None ->
  Annotations (cdMeta cd) !! deleteAfterAnnotation = None ->
  HasFinalizer (cdMeta cd) FinalizerDeprovision = false ->
  Installed (Status cd) = false ->
  installJobOf (guarded cd) = Ok job ->
  jobs s !! objectKey (jobMeta job) = None ->
  let o1 := run (apiserver t1) (Reconcile request) s in
  let o2 := run (apiserver t2) (Reconcile request) o1.1.2 in
  o1.1.1 = (emptyResult, None) /\
  (clusterDeployments o1.1.2 = <[request := guarded cd]> (clusterDeployments s)) /\
  jobs o1.1.2 = jobs s /\
  resourceMutations o1.2 = [EUpdate (guarded cd) None] /\
  o2.1.1 = (emptyResult, None) /\
  clusterDeployments o2.1.2 = clusterDeployments o1.1.2 /\
  (jobs o2.1.2 = <[objectKey (jobMeta job) := job]> (jobs s)) /\
  mutations o2.2 = [ECreate (OJob job) None].
Proof.
  intros Hwk Hcd Hdel Ha Hg Hinst Hj Hnone o1 o2.
  assert (Hkey : objectKey (cdMeta cd) = request) by (by apply Hwk).
  (* first cycle *)
  pose proof (setup_first_run t1 (Namespace (cdMeta cd)) s) as HfA.
  destruct (run (apiserver t1) (setupClusterInstallServiceAccount (Namespace (cdMeta cd))) s)
    as [[r sA] trA] eqn:HA.
  cbn in HfA.
  destruct HfA as ((sa & Hr & Hsa) & [role Hrole] & [rb Hrb] & _ & _ & _ & HcdA & HjA & HcmA).
  assert (Ho1 : o1 = ((emptyResult, None),
                      withClusterDeployments sA
                        (<[request := guarded cd]> (clusterDeployments sA)),
                      EGetClusterDeployment request (Ok cd) :: trA ++ [EUpdate (guarded cd) None])).
  { unfold o1. rewrite (Reconcile_apiserver _ _ _ cd) by done. rewrite HA.
    unfold reconcileExpiry. rewrite Ha.
    rewrite (install_guard t1 sA cd 0) by (try done; rewrite HcdA, Hkey; by eexists).
    by rewrite Hkey. }
  pose proof (setupClusterInstallServiceAccount_run _ _ _ _ _ _ HA) as [Hprov _].
  rewrite Ho1. cbn [fst snd].
  split; [done|]. split; [cbn; by rewrite HcdA|]. split; [done|].
  split.
  { rewrite resourceMutations_skip, resourceMutations_app by done.
    rewrite (resourceMutations_provisioning _ Hprov).
    rewrite resourceMutations_keep by done. done. }
  (* second cycle *)
  set (s1 := withClusterDeployments sA (<[request := guarded cd]> (clusterDeployments sA))).
  assert (Ho2 : o2 = ((emptyResult, None),
                      {| clusterDeployments := clusterDeployments s1;
                         jobs := <[objectKey (jobMeta job) := job]> (jobs s1);
                         configMaps := configMaps s1; serviceAccounts := serviceAccounts s1;
                         roles := roles s1; roleBindings := roleBindings s1 |},
                      [EGetClusterDeployment request (Ok (guarded cd));
                       EGetServiceAccount (Namespace (cdMeta cd), serviceAccountName) (Ok sa);
                       EGetRole (Namespace (cdMeta cd), roleName) (Ok role);
                       EGetRoleBinding (Namespace (cdMeta cd), roleBindingName) (Ok rb);
                       EGetJob (objectKey (jobMeta job)) (Err notFound);
                       ECreate (OJob job) None])).
  { unfold o2. rewrite Ho1. cbn [fst snd]. fold s1.
    rewrite (Reconcile_apiserver _ _ _ (guarded cd)); [|apply lookup_insert_eq|done].
    change (Namespace (cdMeta (guarded cd))) with (Namespace (cdMeta cd)).
    rewrite (setup_present t2 _ s1 sa role rb) by done.
    unfold reconcileExpiry. change (Annotations (cdMeta (guarded cd))) with (Annotations (cdMeta cd)).
    rewrite Ha.
    rewrite (install_absent t2 s1 (guarded cd) job); try done.
    - apply HasFinalizer_AddFinalizer.
    - cbn. by rewrite HjA. }
  rewrite Ho2. cbn [fst snd].
  split; [done|]. split; [done|]. split; [cbn; by rewrite HjA|].
  simpl_mutations. done.
Qed.

Lemma install_matching (t : Time) (s : Store) cd job existingJob :
  HasFinalizer (cdMeta cd) FinalizerDeprovision = true ->
  installJobOf cd = Ok job ->
  jobs s !! objectKey (jobMeta job) = Some existingJob ->
  Installed (Status cd) = isSuccessful existingJob ->
  isSuccessful existingJob = false \/ ClusterUUID (Status cd) ≠ "" ->
  run (apiserver t) (reconcileInstall cd 0) s =
  ((emptyResult, None), s, [EGetJob (objectKey (jobMeta job)) (Ok existingJob)]).
Proof.
  intros Hg Hj Hjob Hinst Hskip. unfold reconcileInstall, installJobOf in *.
  rewrite Hg, Hj. cbn. rewrite (storeGet_Some _ _ _ Hjob). cbn.
  unfold updateClusterDeploymentStatus, persistStatus. cbn.
  assert (Htest : isSuccessful existingJob && bool_decide (ClusterUUID (Status cd) = "")
                  = false).
  { destruct Hskip as [->|Hne]; [done|].
    rewrite bool_decide_eq_false_2 by done. apply andb_false_r. }
  rewrite Htest. cbn.
  rewrite decide_True; [done|]. destruct (Status cd); cbn in *. by subst.
Qed.

(** X25: a cycle on the in-memory store is at rest when the status
    matches the install job: for a resource with the guard, no deletion
    request and no delete-after annotation, whose install job is in the
    store, whose installed flag is the job's completion, and which either
    is not complete or has its cluster ID, the cycle returns no error and
    no retry, writes nothing besides the access provisioner's creations,
    and leaves the resources, jobs and artifacts of the store as they
    are. *)
Theorem cycle_at_rest_when_status_matches_job (t : Time) request (s : Store) cd job existingJob :
  clusterDeployments s !! request = Some cd ->
  DeletionTimestamp (cdMeta cd) = None ->
  Annotations (cdMeta cd) !! deleteAfterAnnotation = None ->
  HasFinalizer (cdMeta cd) FinalizerDeprovision = true ->
  installJobOf cd = Ok job ->
  jobs s !! objectKey (jobMeta job) = Some existingJob ->
  Installed (Status cd) = isSuccessful existingJob ->
  isSuccessful existingJob = false \/ ClusterUUID (Status cd) ≠ "" ->
  let o := run (apiserver t) (Reconcile request) s in
  o.1.1 = (emptyResult, None) /\
  resourceMutations o.2 = [] /\
  clusterDeployments o.1.2 = clusterDeployments s /\
  jobs o.1.2 = jobs s /\
  configMaps o.1.2 = configMaps s.
Proof.
  intros Hcd Hdel Ha Hg Hj Hjob Hinst Hskip o. unfold o.
  rewrite (Reconcile_apiserver _ _ _ cd) by done.
  pose proof (setup_first_run t (Namespace (cdMeta cd)) s) as HfA.
  destruct (run (apiserver t) (setupClusterInstallServiceAccount (Namespace (cdMeta cd))) s)
    as [[r sA] trA] eqn:HA.
  cbn in HfA. destruct HfA as (_ & _ & _ & _ & _ & _ & HcdA & HjA & HcmA).
  pose proof (setupClusterInstallServiceAccount_run _ _ _ _ _ _ HA) as [Hprov _].
  unfold reconcileExpiry. rewrite Ha.
  rewrite (install_matching t sA cd job existingJob) by (try done; by rewrite HjA).
  cbn [fst snd]. split; [done|]. split; [|done].
  rewrite resourceMutations_skip, resourceMutations_app by done.
  rewrite (resourceMutations_provisioning _ Hprov).
  by rewrite resourceMutations_skip.
Qed.

End Flow.

(** ** The lookups are made *)

Section Progress.
Context {W : Type} (h : Handler W) `{Ext : Externals}.

Lemma accessProvisioned_cycle (x : Event) (prov body : list Event) :
  accessProvisioned (x :: prov ++ body) -> accessProvisioned prov.
Proof.
  unfold accessProvisioned. rewrite Forall_cons, Forall_app. tauto.
Qed.

(** The deleted path, call by call: once the access provisioner has
    succeeded, a cycle on a resource with the guard and a deletion request
    looks the uninstall job up, and the answer decides what follows. *)
Lemma deleted_cycle_shape request w res w' tr cd :
  run h (Reconcile request) w = (res, w', tr) ->
  fetched tr request cd ->
  is_Some (DeletionTimestamp (cdMeta cd)) ->
  HasFinalizer (cdMeta cd) FinalizerDeprovision = true ->
  accessProvisioned tr ->
  exists prov rest,
    tr = EGetClusterDeployment request (Ok cd) :: prov ++ rest /\
    Forall (fun e => isProvisioning e = true) prov /\
    match uninstallJobOf cd with
    | Err err => rest = [] /\ res = (emptyResult, Some err)
    | Ok job =>
        exists r,
          match r with
          | Ok existingJob =>
              if isSuccessful existingJob
              then exists e,
                  rest = [EGetJob (objectKey (jobMeta job)) r; EUpdate (released cd) e] /\
                  res = (emptyResult, e)
              else rest = [EGetJob (objectKey (jobMeta job)) r] /\ res = (emptyResult, None)
          | Err err =>
              if IsNotFound err
              then exists e,
                  rest = [EGetJob (objectKey (jobMeta job)) r; ECreate (OJob job) e] /\
                  res = (emptyResult, e)
              else rest = [EGetJob (objectKey (jobMeta job)) r] /\
                   res = (emptyResult, Some err)
          end
    end.
Proof.
  intros Hrun Hf [t Hdel] Hg Hacc.
  destruct (Reconcile_fetched _ _ _ _ _ _ _ Hrun Hf)
    as (w1 & r & w2 & tr1 & tr2 & Hget & Hsetup & -> & Hrest).
  apply setupClusterInstallServiceAccount_run in Hsetup as [Hprov Hok].
  apply accessProvisioned_cycle, Hok in Hacc.
  destruct r as [sa|err]; [|done].
  rewrite Hdel, Hg in Hrest. apply syncDeletedClusterDeployment_run in Hrest.
  exists tr1, tr2. split; [done|]. split; [done|].
  destruct (uninstallJobOf cd) as [job|err]; [|by destruct Hrest as (-> & -> & _)].
  destruct Hrest as (rj & w3 & _ & Hrest). exists rj. done.
Qed.

(** The active path up to the lookup of the install job: once the access
    provisioner has succeeded and the expiry policy lets the cycle go on,
    a cycle on a resource with the guard looks the install job up, and
    creates it exactly when the answer is not-found and the resource is
    not marked installed. *)
Lemma active_cycle_shape request w res w' tr cd job :
  run h (Reconcile request) w = (res, w', tr) ->
  fetched tr request cd ->
  DeletionTimestamp (cdMeta cd) = None ->
  HasFinalizer (cdMeta cd) FinalizerDeprovision = true ->
  accessProvisioned tr ->
  expiryPasses cd tr ->
  installJobOf cd = Ok job ->
  exists r creates,
    jobEvents tr = EGetJob (objectKey (jobMeta job)) r :: creates /\
    (creates = [] /\ shouldCreate cd r = false \/
     exists e, creates = [ECreate (OJob job) e] /\ shouldCreate cd r = true).
Proof.
  intros Hrun Hf Hdel Hg Hacc Hexp Hj.
  destruct (Reconcile_fetched _ _ _ _ _ _ _ Hrun Hf)
    as (w1 & r & w2 & tr1 & tr2 & Hget & Hsetup & -> & Hrest).
  apply setupClusterInstallServiceAccount_run in Hsetup as [Hprov Hok]. clear Hrun Hf.
  destruct (Forall_provisioning_filter _ Hprov) as (_ & Hje & Hnw & _).
  apply accessProvisioned_cycle, Hok in Hacc.
  destruct r as [sa|err]; [clear Hacc Hok|done].
  rewrite jobEvents_skip, jobEvents_app, Hje by done. cbn [app].
  rewrite Hdel in Hrest.
  assert (Hi : forall d w3 tr3,
             run h (reconcileInstall cd d) w3 = (res, w', tr3) ->
             exists r creates,
               jobEvents tr3 = EGetJob (objectKey (jobMeta job)) r :: creates /\
               (creates = [] /\ shouldCreate cd r = false \/
                exists e, creates = [ECreate (OJob job) e] /\ shouldCreate cd r = true)).
  { intros d w3 tr3 Hi. apply reconcileInstall_run in Hi. rewrite Hg, Hj in Hi.
    destruct Hi as (rj & w4 & creates & rest & _ & -> & Hc & Hst & _).
    exists rj, creates. split; [|done].
    change (EGetJob (objectKey (jobMeta job)) rj :: creates ++ rest)
      with ([EGetJob (objectKey (jobMeta job)) rj] ++ creates ++ rest).
    rewrite !jobEvents_app, (jobEvents_status _ _ Hst), app_nil_r.
    by destruct Hc as [[-> _]|(e & -> & _)]. }
  apply reconcileExpiry_run in Hrest. unfold expiryPasses in Hexp.
  destruct (Annotations (cdMeta cd) !! deleteAfterAnnotation) as [a|];
    [|by eapply Hi].
  destruct (ParseDuration a) as [dur|err]; [|done].
  destruct (Time_IsZero (CreationTimestamp (cdMeta cd))); [by eapply Hi|].
  destruct Hexp as [|(now & Hnow & Hafter)]; [done|].
  destruct Hrest as (now1 & w3 & _ & Hrest).
  destruct (Time_After now1 (expiryOf cd dur)) eqn:Ha.
  - destruct Hrest as (e & _ & -> & _). cbn in Hnow.
    rewrite nows_app, Hnw in Hnow. cbn in Hnow. congruence.
  - destruct Hrest as (now2 & w4 & tr' & _ & -> & Hrest).
    rewrite !jobEvents_skip by done. by eapply Hi.
Qed.

End Progress.

Lemma isSuccessful_first (job : Job) :
  isSuccessful job = true <->
  exists pre c post,
    Conditions job = pre ++ c :: post /\
    Forall (fun c' => condType c' ≠ JobComplete) pre /\
    condType c = JobComplete /\ condStatus c = ConditionTrue.
Proof.
  rewrite isSuccessful_spec. unfold getJobConditionStatus. apply conditionStatusIn_true.
Qed.

Section Released.
Context {W : Type} (h : Handler W) `{Ext : Externals}.

(** C3, amended: in a cycle on a resource that has the deprovision guard
    and a deletion request, an update of the resource without the guard is
    issued if and only if the lookup of the uninstall job under its
    generated name succeeded and the first condition of type Complete in
    the list of the job found has status True; that update is then the
    last call of the cycle and its only write besides the access
    provisioner's creations, it sends the resource with the guard deleted
    from its finalizers and its status as read, and its answer is the
    cycle's error; in every other case the cycle issues no update and no
    delete of the resource, so the guard stays in its finalizers.  The
    lookup is made: when no call of the access provisioner fails and the
    uninstall job can be generated, the cycle looks the job up under its
    generated name, once, and looks up no other job. *)
Theorem guard_removed_iff_uninstall_complete request w res w' tr cd :
  run h (Reconcile request) w = (res, w', tr) ->
  fetched tr request cd ->
  HasFinalizer (cdMeta cd) FinalizerDeprovision = true ->
  is_Some (DeletionTimestamp (cdMeta cd)) ->
  let removed :=
    exists cd' e, EUpdate cd' e ∈ tr /\
                  HasFinalizer (cdMeta cd') FinalizerDeprovision = false in
  let complete :=
    exists job existingJob pre c post,
      uninstallJobOf cd = Ok job /\
      EGetJob (objectKey (jobMeta job)) (Ok existingJob) ∈ tr /\
      Conditions existingJob = pre ++ c :: post /\
      Forall (fun c' => condType c' ≠ JobComplete) pre /\
      condType c = JobComplete /\ condStatus c = ConditionTrue in
  (removed <-> complete) /\
  (complete ->
   exists e, last tr = Some (EUpdate (released cd) e) /\
             resourceMutations tr = [EUpdate (released cd) e] /\
             res = (emptyResult, e)) /\
  (~ complete -> forall cd' e, (EUpdate cd' e ∉ tr) /\ (EDelete cd' e ∉ tr)) /\
  (accessProvisioned tr ->
   forall job,
     uninstallJobOf cd = Ok job ->
     exists r,
       jobEvents tr = [EGetJob (objectKey (jobMeta job)) r] \/
       exists err e,
         r = Err err /\ IsNotFound err = true /\
         jobEvents tr = [EGetJob (objectKey (jobMeta job)) r; ECreate (OJob job) e]).
Proof.
  intros Hrun Hf Hg Hdel removed complete.
  destruct (guard_removal_record h _ _ _ _ _ _ Hrun Hf Hg Hdel)
    as (Hiff & Hlast & Hnone).
  assert (Hsame : complete <->
                  exists job existingJob,
                    uninstallJobOf cd = Ok job /\
                    EGetJob (objectKey (jobMeta job)) (Ok existingJob) ∈ tr /\
                    isSuccessful existingJob = true).
  { split.
    - intros (job & existingJob & pre & c & post & Hj & Hin & Hfirst).
      exists job, existingJob. split; [done|]. split; [done|].
      apply isSuccessful_first. by exists pre, c, post.
    - intros (job & existingJob & Hj & Hin & (pre & c & post & Hfirst)%isSuccessful_first).
      by exists job, existingJob, pre, c, post. }
  split; [by rewrite Hsame|].
  split; [by intros Hc%Hsame; apply Hlast|].
  split; [intros Hc; apply Hnone; by rewrite <- Hsame|].
  intros Hacc job Hj.
  destruct (deleted_cycle_shape h _ _ _ _ _ _ Hrun Hf Hdel Hg Hacc)
    as (prov & rest & -> & Hprov & Hshape).
  rewrite Hj in Hshape. destruct Hshape as [r Hshape]. exists r.
  rewrite jobEvents_skip, jobEvents_app, (jobEvents_provisioning _ Hprov) by done.
  cbn [app].
  destruct r as [existingJob|err];
    [destruct (isSuccessful existingJob)|destruct (IsNotFound err) eqn:Hnf].
  - destruct Hshape as (e & -> & _). by left.
  - destruct Hshape as [-> _]. by left.
  - destruct Hshape as (e & -> & _). right. by exists err, e.
  - destruct Hshape as [-> _]. by left.
Qed.

End Released.

Section Uninstall.
Context {W : Type} (h : Handler W) `{Ext : Externals}.

(** X22: in a cycle on a resource that has the guard and a deletion
    request, a job is created if and only if the lookup of the uninstall
    job under its generated name answered not-found; the job created is
    the generated uninstall job, its creation is the last call and the
    only write besides the access provisioner's creations, and its answer
    is the cycle's error.  The lookup and the creation are made: when no
    call of the access provisioner fails and the uninstall job can be
    generated, the cycle looks the job up under its generated name; on
    not-found it creates the job as its next and last call and returns
    the answer of the creation; on any other error the lookup is the last
    call and its error is returned; and a lookup that finds a job is the
    only job call of the cycle. *)
Theorem uninstall_job_created_iff_absent request w res w' tr cd :
  run h (Reconcile request) w = (res, w', tr) ->
  fetched tr request cd ->
  is_Some (DeletionTimestamp (cdMeta cd)) ->
  HasFinalizer (cdMeta cd) FinalizerDeprovision = true ->
  ((exists job e, ECreate (OJob job) e ∈ tr) <->
   (exists job err,
       uninstallJobOf cd = Ok job /\
       EGetJob (objectKey (jobMeta job)) (Err err) ∈ tr /\
       IsNotFound err = true)) /\
  (forall job e,
      ECreate (OJob job) e ∈ tr ->
      uninstallJobOf cd = Ok job /\
      res = (emptyResult, e) /\
      last tr = Some (ECreate (OJob job) e) /\
      resourceMutations tr = [ECreate (OJob job) e]) /\
  (accessProvisioned tr ->
   forall job,
     uninstallJobOf cd = Ok job ->
     exists r,
       let lookup := EGetJob (objectKey (jobMeta job)) r in
       match r with
       | Err err =>
           if IsNotFound err
           then exists e,
               jobEvents tr = [lookup; ECreate (OJob job) e] /\
               last tr = Some (ECreate (OJob job) e) /\
               res = (emptyResult, e)
           else jobEvents tr = [lookup] /\ last tr = Some lookup /\
                res = (emptyResult, Some err)
       | Ok _ => jobEvents tr = [lookup]
       end).
Proof.
  intros Hrun Hf Hdel Hg.
  destruct (uninstall_creation_record h _ _ _ _ _ _ Hrun Hf Hdel Hg)
    as [Hiff Hcreated].
  split; [done|]. split; [done|].
  intros Hacc job Hj.
  destruct (deleted_cycle_shape h _ _ _ _ _ _ Hrun Hf Hdel Hg Hacc)
    as (prov & rest & -> & Hprov & Hshape).
  rewrite Hj in Hshape. destruct Hshape as [r Hshape]. exists r.
  rewrite jobEvents_skip, jobEvents_app, (jobEvents_provisioning _ Hprov) by done.
  cbn [app].
  destruct r as [existingJob|err];
    [destruct (isSuccessful existingJob)|destruct (IsNotFound err) eqn:Hnf]; cbn zeta.
  - by destruct Hshape as (e & -> & _).
  - by destruct Hshape as [-> _].
  - destruct Hshape as (e & -> & ->). exists e.
    split; [done|]. split; [|done]. by apply last_skip, last_app_Some.
  - destruct Hshape as [-> ->].
    split; [done|]. split; [|done]. by apply last_skip, last_app_Some.
Qed.

End Uninstall.

(** ** Job names over many cycles *)

(** On the in-memory store a job creation that comes right after the
    failed lookup of its own name succeeds, under a name that was free
    when the program started, and the job is in the store at the end. *)
Lemma apiserver_job_created {A : Type} (t : Time) (p : Prog A) (s s' : Store) (a : A)
    (tr : list Event) :
  run (apiserver t) p s = (a, s', tr) ->
  forall i err job e,
    tr !! i = Some (EGetJob (objectKey (jobMeta job)) (Err err)) ->
    tr !! S i = Some (ECreate (OJob job) e) ->
    e = None /\
    jobs s !! objectKey (jobMeta job) = None /\
    jobs s' !! objectKey (jobMeta job) = Some job.
Proof.
  revert s s' a tr. induction p as [a0|X c k IH]; intros s s' a tr Hrun i err job e Hi HSi.
  - cbn in Hrun. by simplify_eq.
  - cbn in Hrun.
    destruct (apiserver t X c s) as [x s1] eqn:Hc.
    destruct (run (apiserver t) (k x) s1) as [[a1 s2] tr1] eqn:Hk.
    simplify_eq. destruct i as [|i]; cbn in Hi, HSi.
    + destruct c; cbn in Hi; simplify_eq. cbn in Hc.
      unfold storeGet in Hc.
      destruct (jobs s !! objectKey (jobMeta job)) eqn:Hfree; simplify_eq.
      destruct (k (Err notFound)) as [a0|X' c' k']; cbn in Hk; [by simplify_eq|].
      destruct (apiserver t X' c' s1) as [x' s3] eqn:Hc'.
      destruct (run (apiserver t) (k' x') s3) as [[a3 s4] tr3] eqn:Hk'.
      simplify_eq. cbn in HSi.
      destruct c'; cbn in HSi; simplify_eq. cbn in Hc'.
      rewrite Hfree in Hc'. simplify_eq. split; [done|]. split; [done|].
      eapply apiserver_jobs_persist; [exact Hk'|]. cbn. apply lookup_insert_eq.
    + destruct (IH _ _ _ _ _ Hk _ _ _ _ Hi HSi) as (-> & Hfree & Hin).
      split; [done|]. split; [|done].
      destruct (jobs s !! objectKey (jobMeta job)) as [j|] eqn:Hj; [|done].
      assert (Hstep : run (apiserver t) (call c) s = (x, s1, [event_of c x])).
      { cbn. by rewrite Hc. }
      apply (apiserver_jobs_persist _ _ _ _ _ _ _ _ Hstep) in Hj as [Hj _]. congruence.
Qed.

Section Ever.
Context `{Ext : Externals}.

(** In any environment a job creation of a cycle comes right after the
    lookup of the job's own name that answered not-found. *)
Lemma job_creation_follows_lookup {W : Type} (h : Handler W) request w res w' tr job e :
  run h (Reconcile request) w = (res, w', tr) ->
  ECreate (OJob job) e ∈ tr ->
  exists i err,
    tr !! i = Some (EGetJob (objectKey (jobMeta job)) (Err err)) /\
    tr !! S i = Some (ECreate (OJob job) e).
Proof.
  intros Hrun Hin.
  apply Reconcile_shape in Hrun as [[err ->]|(cd & prov & body & -> & Hprov & _ & Hbody)].
  { event_in Hin. }
  apply elem_of_cycle in Hin as [Hin|Hin]; [discriminate| |done..].
  apply list_elem_of_lookup in Hin as [i Hi].
  destruct (cycleBody_creationsFollowLookups _ _ Hbody) as [Hfollow _].
  destruct (Hfollow _ _ _ Hi) as (j & g & -> & Hj & (err & _ & ->)).
  assert (Hshift : forall n x,
             (x :: prov ++ body) !! S (length prov + n) = body !! n).
  { intros n x. change ((prov ++ body) !! (length prov + n)%nat = body !! n).
    rewrite lookup_app_r by lia. f_equal. lia. }
  exists (S (length prov + j)), err. split; [by rewrite Hshift|].
  replace (S (S (length prov + j))) with (S (length prov + S j)) by lia.
  by rewrite Hshift.
Qed.

(** One cycle on the in-memory store: the jobs stored stay as they are, a
    job creation succeeds under a name that was free and leaves the job
    in the store, and there is at most one of them. *)
Lemma cycle_job_creation (t : Time) request (s : Store) :
  let o := run (apiserver t) (Reconcile request) s in
  jobs s ⊆ jobs o.1.2 /\
  (forall job e,
      ECreate (OJob job) e ∈ o.2 ->
      e = None /\
      jobs s !! objectKey (jobMeta job) = None /\
      jobs o.1.2 !! objectKey (jobMeta job) = Some job) /\
  (length (filter (fun e => isJobCreate e = true) o.2) <= 1)%nat.
Proof.
  destruct (run (apiserver t) (Reconcile request) s) as [[res s'] tr] eqn:Hrun. cbn.
  split; [|split].
  - apply map_subseteq_spec. intros k j Hj.
    by apply (apiserver_jobs_persist _ _ _ _ _ _ _ _ Hrun) in Hj as [Hj _].
  - intros job e Hin.
    destruct (job_creation_follows_lookup _ _ _ _ _ _ _ _ Hrun Hin) as (i & err & Hi & HSi).
    by eapply apiserver_job_created.
  - apply Reconcile_shape in Hrun
      as [[err ->]|(cd & prov & body & -> & Hprov & _ & Hbody)].
    { simpl_filter. cbn. lia. }
    rewrite !filter_cons_False, !filter_app by (cbn; congruence).
    rewrite !(filter_provisioning _ prov) by (try done; by intros [| | | | | |[]| | |]).
    cbn [app]. body_cases Hbody; simpl_filter; cbn; lia.
Qed.

Lemma createsJobAt_filter (key : NamespacedName) (tr : list Event) :
  filter (fun e => createsJobAt key e = true) tr =
  filter (fun e => createsJobAt key e = true) (filter (fun e => isJobCreate e = true) tr).
Proof.
  induction tr as [|e tr IH]; [done|].
  rewrite !filter_cons.
  destruct e as [| | | | | |[]| | |]; cbn; rewrite ?filter_cons; cbn; by rewrite ?IH.
Qed.

(** Cycle after cycle, a job name gets at most one creation. *)
Lemma cycles_job_creation (rs : list (Time * NamespacedName)) (s : Store) :
  let o := cycles rs s in
  jobs s ⊆ jobs o.1 /\
  (forall job e,
      ECreate (OJob job) e ∈ o.2 ->
      e = None /\
      jobs s !! objectKey (jobMeta job) = None /\
      jobs o.1 !! objectKey (jobMeta job) = Some job) /\
  (forall key,
      (length (filter (fun e => createsJobAt key e = true) o.2) <= 1)%nat).
Proof.
  revert s. induction rs as [|[t request] rs IH]; intros s; cbn [cycles]; cbn zeta.
  { cbn. split; [reflexivity|]. split; [|intros key; cbn; lia].
    intros job e Hin. by apply elem_of_nil in Hin. }
  destruct (cycle_job_creation t request s) as (Hsub & Hcreate & Hone).
  destruct (run (apiserver t) (Reconcile request) s) as [[res s1] tr1].
  cbn [fst snd] in *. specialize (IH s1). destruct (cycles rs s1) as [s2 tr2].
  cbn [fst snd] in *.
  destruct IH as (Hsub' & Hcreate' & Hone').
  split; [transitivity (jobs s1); assumption|]. split.
  - intros job e Hin. apply elem_of_app in Hin as [Hin|Hin].
    + destruct (Hcreate _ _ Hin) as (-> & Hfree & Hstored).
      split; [done|]. split; [done|].
      by eapply lookup_weaken.
    + destruct (Hcreate' _ _ Hin) as (-> & Hfree & Hstored).
      split; [done|]. split; [|done].
      destruct (jobs s !! objectKey (jobMeta job)) as [j|] eqn:Hj; [|done].
      eapply lookup_weaken in Hj; [|exact Hsub]. congruence.
  - intros key. rewrite filter_app, length_app.
    destruct (filter (fun e => createsJobAt key e = true) tr1) as [|e1 l1] eqn:H1;
      [apply Hone'|].
    assert (Hin1 : e1 ∈ filter (fun e => createsJobAt key e = true) tr1).
    { rewrite H1. left. }
    apply list_elem_of_filter in Hin1 as [Hkey Hin1].
    destruct e1 as [| | | | | |[| | |job1] e1| | |]; try discriminate.
    cbn in Hkey. apply bool_decide_eq_true in Hkey.
    destruct (Hcreate _ _ Hin1) as (_ & _ & Hstored). rewrite Hkey in Hstored.
    assert (Hnone : filter (fun e => createsJobAt key e = true) tr2 = []).
    { destruct (filter (fun e => createsJobAt key e = true) tr2) as [|e2 l2] eqn:H2;
        [done|].
      assert (Hin2 : e2 ∈ filter (fun e => createsJobAt key e = true) tr2).
      { rewrite H2. left. }
      apply list_elem_of_filter in Hin2 as [Hkey2 Hin2].
      destruct e2 as [| | | | | |[| | |job2] e2| | |]; try discriminate.
      cbn in Hkey2. apply bool_decide_eq_true in Hkey2.
      destruct (Hcreate' _ _ Hin2) as (_ & Hfree & _). congruence. }
    rewrite Hnone. cbn. rewrite Nat.add_0_r.
    rewrite createsJobAt_filter in H1.
    assert (Hle : (length (filter (fun e => createsJobAt key e = true)
                             (filter (fun e => isJobCreate e = true) tr1)) <=
                   length (filter (fun e => isJobCreate e = true) tr1))%nat).
    { apply length_filter. }
    rewrite H1 in Hle. cbn in *. lia.
Qed.

End Ever.

Section Once.
Context `{Ext : Externals}.

(** C5: first, one cycle in any environment.  In a cycle on a resource
    that has the guard and no deletion request, a job is created if and
    only if the lookup of the install job under its generated name
    answered not-found and the resource is not marked installed; the job
    created is the generated install job, and its creation follows the
    not-found lookup of its own name with no other job call in the cycle;
    when a lookup finds a job none is created; a cycle creates at most one
    job.  The lookup and the creation are made: when no call of the access
    provisioner fails, the expiry policy lets the cycle go on and the
    install job can be generated, the cycle looks the job up under its
    generated name and, exactly when the answer is not-found and the
    resource is not marked installed, creates it as its next call.
    Second, cycle after cycle on the in-memory store, whatever the
    requests and the clock readings: the jobs of the store are never
    removed or replaced, every creation of a job succeeds under a name
    that was free at the start and leaves the job in the store, and no
    name sees two creations; so the install job of a resource, created
    under its generated name, exists at most once. *)
Theorem install_job_created_iff_absent_and_not_installed :
  (forall (W : Type) (h : Handler W) request w res w' tr cd,
      run h (Reconcile request) w = (res, w', tr) ->
      fetched tr request cd ->
      DeletionTimestamp (cdMeta cd) = None ->
      HasFinalizer (cdMeta cd) FinalizerDeprovision = true ->
      ((exists job e, ECreate (OJob job) e ∈ tr) <->
       (exists job err,
           installJobOf cd = Ok job /\
           EGetJob (objectKey (jobMeta job)) (Err err) ∈ tr /\
           IsNotFound err = true /\ Installed (Status cd) = false)) /\
      (forall job e,
          ECreate (OJob job) e ∈ tr ->
          installJobOf cd = Ok job /\
          exists err,
            IsNotFound err = true /\
            jobEvents tr =
              [EGetJob (objectKey (jobMeta job)) (Err err); ECreate (OJob job) e]) /\
      ((exists key existingJob, EGetJob key (Ok existingJob) ∈ tr) ->
       forall job e, ECreate (OJob job) e ∉ tr) /\
      (length (filter (fun e => isJobCreate e = true) tr) <= 1)%nat /\
      (accessProvisioned tr ->
       expiryPasses cd tr ->
       forall job,
         installJobOf cd = Ok job ->
         exists r,
           let lookup := EGetJob (objectKey (jobMeta job)) r in
           match r with
           | Err err =>
               if IsNotFound err && negb (Installed (Status cd))
               then exists e, jobEvents tr = [lookup; ECreate (OJob job) e]
               else jobEvents tr = [lookup]
           | Ok _ => jobEvents tr = [lookup]
           end)) /\
  (forall (rs : list (Time * NamespacedName)) (s : Store),
      let o := cycles rs s in
      jobs s ⊆ jobs o.1 /\
      (forall job e,
          ECreate (OJob job) e ∈ o.2 ->
          e = None /\
          jobs s !! objectKey (jobMeta job) = None /\
          jobs o.1 !! objectKey (jobMeta job) = Some job) /\
      (forall key,
          (length (filter (fun e => createsJobAt key e = true) o.2) <= 1)%nat)).
Proof.
  split; [|apply cycles_job_creation].
  intros W h request w res w' tr cd Hrun Hf Hdel Hg.
  destruct (install_creation_record h _ _ _ _ _ _ Hrun Hf Hdel Hg)
    as (Hiff & Hcreated & Hfound & Hone).
  repeat (split; [assumption|]).
  intros Hacc Hexp job Hj.
  destruct (active_cycle_shape h _ _ _ _ _ _ _ Hrun Hf Hdel Hg Hacc Hexp Hj)
    as (r & creates & -> & Hc).
  exists r. cbn zeta. unfold shouldCreate in Hc.
  destruct r as [existingJob|err].
  - by destruct Hc as [[-> _]|(e & _ & ?)].
  - destruct Hc as [[-> ->]|(e & -> & ->)]; [done|by exists e].
Qed.

End Once.

(** * The claims on concrete cycles *)

Module Examples.
Import Sample.

Ltac by_run :=
  lazymatch goal with
  | |- ?o = (_, _, _) => by destruct o as [[? ?] ?]
  end.

Lemma wellKeyed_withClusterDeployment (cd : ClusterDeployment) (s : Store) :
  wellKeyed s -> wellKeyed (withClusterDeployment cd s).
Proof.
  intros Hs k c. unfold withClusterDeployment, withClusterDeployments. cbn.
  rewrite lookup_insert. case_decide; [by intros [= <-]|]. apply Hs.
Qed.

Lemma wellKeyed_withJob (job : Job) (s : Store) : wellKeyed s -> wellKeyed (withJob job s).
Proof. intros Hs k c. apply Hs. Qed.

Lemma wellKeyed_provisioned (ns : string) : wellKeyed (provisioned ns).
Proof. intros k c H. cbn in H. by rewrite lookup_empty in H. Qed.

(** C1, on the code: an installed resource whose install job is absent from
    the store.  The lookup says not-found, no job is created, and the status
    update is given the empty job the lookup left behind, so the cycle
    persists the status with Installed false; the following cycle then
    creates a second install job. *)
Theorem installed_reverts_when_job_absent :
  let o1 := run (apiserver (created + hour)) (Reconcile key) installedStore in
  let o2 := run (apiserver (created + hour)) (Reconcile key) o1.1.2 in
  clusterDeployments installedStore !! key = Some installed /\
  Installed (Status installed) = true /\
  jobs installedStore = ∅ /\
  mutations o1.2 =
    [EUpdate (withStatus installed {| Installed := false; ClusterUUID := "id-1" |}) None] /\
  Installed ∘ Status <$> clusterDeployments o1.1.2 !! key = Some false /\
  mutations o2.2 = [ECreate (OJob (installJob installed [])) None].
Proof. vm_compute. repeat split; reflexivity. Qed.

(** C2, the claim at a resource whose expiry passes between two cycles:
    the first cycle, 30 minutes after creation, leaves the store as it is
    and asks for a retry; nothing touches the store; the second cycle, two
    hours after creation, returns another result and issues a delete. *)
Lemma idempotence_fails_across_expiry :
  let cd := installing (deleteAfter "1h") created in
  let s := installingStore (deleteAfter "1h") created in
  let o1 := run (apiserver (created + 1800 * Second)) (Reconcile key) s in
  let o2 := run (apiserver (created + 2 * hour)) (Reconcile key) o1.1.2 in
  clusterDeployments s !! key = Some cd /\
  DeletionTimestamp (cdMeta cd) = None /\
  o1.1.2 = s /\
  mutations o1.2 = [] /\
  o2.1.1 ≠ o1.1.1 /\
  mutations o2.2 = [EDelete cd None].
Proof. vm_compute. repeat split; try reflexivity. discriminate. Qed.

(** C2, the amended claim at a resource at rest: guard present, install job
    running, no expiry policy; two cycles an hour apart. *)
Lemma reconcile_idempotent_at_rest_witness :
  let s := installingStore ∅ created in
  let o1 := run (apiserver (created + hour)) (Reconcile key) s in
  let o2 := run (apiserver (created + 2 * hour)) (Reconcile key) o1.1.2 in
  mutations o2.2 = [] /\ o2.1.2 = o1.1.2 /\ o2.1.1 = o1.1.1.
Proof.
  intros s o1 o2.
  destruct (reconcile_idempotent_at_rest (created + hour) (created + 2 * hour) key
              s o1.1.2 o2.1.2 (installing ∅ created) o1.1.1 o2.1.1 o1.2 o2.2)
    as (_ & Hq & Hs & _ & Hres).
  - repeat apply wellKeyed_withJob || apply wellKeyed_withClusterDeployment.
    apply wellKeyed_provisioned.
  - vm_compute. reflexivity.
  - reflexivity.
  - by_run.
  - by_run.
  - vm_compute. reflexivity.
  - vm_compute. reflexivity.
  - split; [exact Hq|]. split; [exact Hs|]. apply Hres. vm_compute. reflexivity.
Defined.

Ltac in_list := repeat first [apply list_elem_of_here | apply list_elem_of_further].

(** C3, the claim at a resource under deletion whose uninstall job lists
    Complete twice, first as False and then as True: the resource has the
    guard and a deletion request, the lookup of the uninstall job succeeds
    and the job found carries a condition Complete with value True, yet
    the cycle issues no update without the guard; it writes nothing, and
    the store keeps the resource with its guard. *)
Lemma guard_kept_despite_complete_condition :
  let o := run (apiserver (created + 2 * hour)) (Reconcile key) reportedTwiceStore in
  let removed :=
    exists cd' e, EUpdate cd' e ∈ o.2 /\
                  HasFinalizer (cdMeta cd') FinalizerDeprovision = false in
  let carriesComplete :=
    exists job existingJob c,
      uninstallJobOf deleting = Ok job /\
      EGetJob (objectKey (jobMeta job)) (Ok existingJob) ∈ o.2 /\
      c ∈ Conditions existingJob /\
      condType c = JobComplete /\ condStatus c = ConditionTrue in
  fetched o.2 key deleting /\
  HasFinalizer (cdMeta deleting) FinalizerDeprovision = true /\
  is_Some (DeletionTimestamp (cdMeta deleting)) /\
  carriesComplete /\
  ~ removed /\
  ~ (removed <-> carriesComplete) /\
  mutations o.2 = [] /\
  clusterDeployments o.1.2 !! key = Some deleting.
Proof.
  intros o removed carriesComplete.
  assert (Hquiet : mutations o.2 = []) by (vm_compute; reflexivity).
  assert (Hcarries : carriesComplete).
  { exists (uninstallJob deleting []), (uninstallJob deleting reportedTwice),
      {| condType := JobComplete; condStatus := ConditionTrue |}.
    split; [vm_compute; reflexivity|]. split; [vm_compute; in_list|].
    split; [vm_compute; in_list|]. split; reflexivity. }
  assert (Hkept : ~ removed).
  { intros (cd' & e & Hin & _).
    assert (Hm : EUpdate cd' e ∈ mutations o.2).
    { apply list_elem_of_filter. by split. }
    rewrite Hquiet in Hm. by apply elem_of_nil in Hm. }
  split; [vm_compute; reflexivity|]. split; [vm_compute; reflexivity|].
  split; [by eexists|]. split; [exact Hcarries|]. split; [exact Hkept|].
  split; [intros [_ Hback]; by apply Hkept, Hback|].
  split; [exact Hquiet|]. vm_compute. reflexivity.
Qed.

(** C3, the amended claim at a resource under deletion whose uninstall job
    is complete: the job is looked up, and the cycle ends by sending the
    resource without the guard. *)
Lemma guard_removed_witness :
  let tr := (run (apiserver (created + 2 * hour)) (Reconcile key) deletingStore).2 in
  (exists cd' e,
      EUpdate cd' e ∈ tr /\ HasFinalizer (cdMeta cd') FinalizerDeprovision = false) /\
  (exists e, last tr = Some (EUpdate (released deleting) e)) /\
  (exists r,
      EGetJob (objectKey (jobMeta (uninstallJob deleting []))) r ∈ jobEvents tr).
Proof.
  set (o := run (apiserver (created + 2 * hour)) (Reconcile key) deletingStore).
  assert (Hcomplete : exists job existingJob pre c post,
             uninstallJobOf deleting = Ok job /\
             EGetJob (objectKey (jobMeta job)) (Ok existingJob) ∈ o.2 /\
             Conditions existingJob = pre ++ c :: post /\
             Forall (fun c' => condType c' ≠ JobComplete) pre /\
             condType c = JobComplete /\ condStatus c = ConditionTrue).
  { exists (uninstallJob deleting []), (uninstallJob deleting complete), [],
      {| condType := JobComplete; condStatus := ConditionTrue |}, [].
    split; [vm_compute; reflexivity|]. split; [vm_compute; in_list|].
    split; [reflexivity|]. split; [constructor|]. split; reflexivity. }
  destruct (guard_removed_iff_uninstall_complete (apiserver (created + 2 * hour)) key
              deletingStore o.1.1 o.1.2 o.2 deleting) as ([_ Hremoved] & Hlast & _ & Hlookup).
  - by_run.
  - vm_compute. reflexivity.
  - vm_compute. reflexivity.
  - by eexists.
  - intros tr. split; [exact (Hremoved Hcomplete)|].
    split; [destruct (Hlast Hcomplete) as (e & He & _); by exists e|].
    destruct (Hlookup ltac:(vm_compute; repeat constructor)
                (uninstallJob deleting []) ltac:(vm_compute; reflexivity))
      as [r [Hr|(err & e & _ & _ & Hr)]]; exists r; subst tr; rewrite Hr; in_list.
Defined.

(** C4, the claim at a new resource in a namespace where nothing is
    provisioned yet: the cycle that adds the guard makes four writes, the
    creations of the service account, the role and the binding before the
    update of the resource. *)
Lemma first_cycle_provisions_namespace :
  let tr := (run (apiserver (created + hour)) (Reconcile key) freshStore).2 in
  fetched tr key fresh /\
  DeletionTimestamp (cdMeta fresh) = None /\
  Annotations (cdMeta fresh) !! deleteAfterAnnotation = None /\
  HasFinalizer (cdMeta fresh) FinalizerDeprovision = false /\
  length (mutations tr) = 4%nat /\
  last tr = Some (EUpdate (guarded fresh) None).
Proof. vm_compute. repeat split; reflexivity. Qed.

(** C4, the amended claim at the same new resource. *)
Lemma guard_added_witness :
  exists e,
    resourceMutations (run (apiserver (created + hour)) (Reconcile key) freshStore).2 =
    [EUpdate (guarded fresh) e].
Proof.
  set (o := run (apiserver (created + hour)) (Reconcile key) freshStore).
  destruct (guard_added_before_install (apiserver (created + hour)) key
              freshStore o.1.1 o.1.2 o.2 fresh) as (e & He & _).
  - by_run.
  - vm_compute. reflexivity.
  - reflexivity.
  - vm_compute. reflexivity.
  - vm_compute. repeat constructor.
  - vm_compute. exact I.
  - by exists e.
Defined.

(** C5 at a resource with the guard and no install job: the lookup says
    not-found, the resource is not installed, and the job is created; two
    more cycles on the store create nothing under its name. *)
Lemma install_job_created_witness :
  let three := [(created + hour, key); (created + 2 * hour, key); (created + 3 * hour, key)] in
  (exists job e,
      ECreate (OJob job) e ∈ (run (apiserver (created + hour)) (Reconcile key) guardedStore).2) /\
  (length
     (filter (fun e => createsJobAt ("ns", "c1-install") e = true)
        (cycles three guardedStore).2) <= 1)%nat.
Proof.
  intros three.
  set (o := run (apiserver (created + hour)) (Reconcile key) guardedStore).
  destruct install_job_created_iff_absent_and_not_installed as [Hcycle Hever].
  split.
  - destruct (Hcycle Store (apiserver (created + hour)) key
                guardedStore o.1.1 o.1.2 o.2 (installing ∅ created)) as [[_ Hc] _].
    + by_run.
    + vm_compute. reflexivity.
    + reflexivity.
    + vm_compute. reflexivity.
    + apply Hc. exists (installJob (installing ∅ created) []), notFound.
      split; [vm_compute; reflexivity|]. split; [vm_compute; in_list|].
      split; reflexivity.
  - apply Hever.
Defined.

(** C7 at a resource whose install job is complete and whose metadata
    artifact is absent: the status update fails after the lookup, and the
    cycle returns an error without a write. *)
Lemma status_update_aborts_witness :
  let cd := installing ∅ created in
  let o := run (apiserver (created + hour)) (Reconcile key) completedStore in
  (exists err,
      run (apiserver (created + hour))
        (updateClusterDeploymentStatus cd (Some (installJob cd complete))) completedStore =
      (Some err, completedStore, [EGetConfigMap (metadataKey cd) (Err notFound)])) /\
  (exists err, o.1.1 = (emptyResult, Some err)) /\
  resourceMutations o.2 = [].
Proof.
  intros cd o.
  destruct (status_update_aborts_without_cluster_id (apiserver (created + hour)) cd
              (Some (installJob cd complete)) completedStore (Err notFound) completedStore)
    as [Hupdate Hcycle].
  - vm_compute. reflexivity.
  - reflexivity.
  - vm_compute. reflexivity.
  - exact I.
  - split; [exact Hupdate|].
    destruct (Hcycle key completedStore o.1.1 o.1.2 o.2) as (Hres & _ & Hrm).
    + by_run.
    + vm_compute. reflexivity.
    + vm_compute. in_list.
    + split; [exact Hres|exact Hrm].
Defined.





(** C10 at a resource with a zero creation timestamp and a one hour
    delete-after annotation: the clock is never read. *)
Lemma zero_creation_witness :
  nows (run (apiserver created) (Reconcile key) (installingStore (deleteAfter "1h") 0)).2 = [].
Proof.
  set (o := run (apiserver created) (Reconcile key) (installingStore (deleteAfter "1h") 0)).
  apply (zero_creation_disables_expiry (apiserver created) key
           (installingStore (deleteAfter "1h") 0) o.1.1 o.1.2 o.2
           (installing (deleteAfter "1h") 0)).
  - by_run.
  - vm_compute. reflexivity.
  - reflexivity.
Defined.

End Examples.

(** * The further properties on concrete cycles *)

Module Coverage.
Import Sample.

Ltac by_cycle :=
  lazymatch goal with
  | |- ?o = (_, _, _) => by destruct o as [[? ?] ?]
  end.

Ltac elem_here := repeat first [apply list_elem_of_here | apply list_elem_of_further].

Lemma wellKeyed_freshStore : wellKeyed freshStore.
Proof.
  intros k c. unfold freshStore, withClusterDeployment, withClusterDeployments. cbn.
  rewrite lookup_insert. case_decide; [by intros [= <-]|]. by rewrite lookup_empty.
Qed.

Lemma metadataGives_metadataOf : metadataGives (metadataOf "id-1") "id-1".
Proof.
  exists {[ "aws" := JObject {[ "identifier" :=
                       JObject {[ "tectonicClusterID" := JString "id-1" ]} ]} ]}.
  split; [vm_compute; reflexivity|].
  eexists _, _. repeat split; vm_compute; reflexivity.
Defined.

(** X7 in a namespace where nothing exists yet: three creations, each after
    its not-found lookup. *)
Lemma provisioner_creates_only_missing_witness :
  let tr := (run (apiserver created) (setupClusterInstallServiceAccount "ns") emptyStore).2 in
  length (mutations tr) = 3%nat /\ creationsFollowLookups tr.
Proof.
  set (o := run (apiserver created) (setupClusterInstallServiceAccount "ns") emptyStore).
  destruct (provisioner_creates_only_missing (apiserver created) "ns" emptyStore
              o.1.1 o.1.2 o.2) as (Hfollow & _).
  - by_cycle.
  - split; [vm_compute; reflexivity|exact Hfollow].
Defined.

(** X8 against a server that refuses the lookup of the service account:
    that lookup is the only call. *)
Lemma provisioner_stops_at_failure_witness :
  let o := run (refusing created) (setupClusterInstallServiceAccount "ns") emptyStore in
  length o.2 = 1%nat /\ isOk o.1.1 = false.
Proof.
  intros o.
  destruct (provisioner_stops_at_failure (refusing created) "ns" emptyStore
              o.1.1 o.1.2 o.2) as (Hlast & _).
  - by_cycle.
  - apply (Hlast 0%nat (EGetServiceAccount ("ns", serviceAccountName)
                          (Err (StatusError StatusReasonUnknown)))).
    + vm_compute. reflexivity.
    + reflexivity.
Defined.

(** X12 at the first cycle of a new resource: the update sent differs from
    the resource read in its finalizers only. *)
Lemma cycle_writes_fetched_resource_witness :
  SetFinalizers (cdMeta (guarded fresh)) (Finalizers (cdMeta fresh)) = cdMeta fresh.
Proof.
  set (o := run (apiserver (created + hour)) (Reconcile key) freshStore).
  destruct (cycle_writes_fetched_resource (apiserver (created + hour)) key freshStore
              o.1.1 o.1.2 o.2 fresh) as (_ & Hupdate).
  - by_cycle.
  - vm_compute. reflexivity.
  - apply (Hupdate (guarded fresh) None). vm_compute. elem_here.
Defined.

(** X13 at a resource whose install job is complete and whose metadata
    artifact holds id-1: the update that records the ID follows the lookup
    of the artifact. *)
Lemma cluster_id_never_overwritten_witness :
  let cd := installing ∅ created in
  let tr := (run (apiserver (created + hour)) (Reconcile key) recordableStore).2 in
  exists cm, EGetConfigMap (metadataKey cd) (Ok cm) ∈ tr /\ metadataGives cm "id-1".
Proof.
  intros cd.
  set (o := run (apiserver (created + hour)) (Reconcile key) recordableStore).
  destruct (cluster_id_never_overwritten (apiserver (created + hour)) key recordableStore
              o.1.1 o.1.2 o.2 cd) as (_ & Hchange).
  - by_cycle.
  - vm_compute. reflexivity.
  - apply (Hchange (withStatus cd {| Installed := true; ClusterUUID := "id-1" |}) None).
    + vm_compute. elem_here.
    + discriminate.
Defined.

(** X14 at the same cycle: the flag becomes true on a job found complete. *)
Lemma installed_flag_follows_install_job_witness :
  let cd := installing ∅ created in
  let tr := (run (apiserver (created + hour)) (Reconcile key) recordableStore).2 in
  exists job r,
    installJobOf cd = Ok job /\ EGetJob (objectKey (jobMeta job)) r ∈ tr /\
    isSuccessful (lookedUpJob r) = true.
Proof.
  intros cd.
  set (o := run (apiserver (created + hour)) (Reconcile key) recordableStore).
  assert (Hrun : run (apiserver (created + hour)) (Reconcile key) recordableStore =
                 (o.1.1, o.1.2, o.2)) by by_cycle.
  assert (Hf : fetched o.2 key cd) by (vm_compute; reflexivity).
  destruct (installed_flag_follows_install_job (apiserver (created + hour)) key
              recordableStore o.1.1 o.1.2 o.2 cd Hrun Hf
              (withStatus cd {| Installed := true; ClusterUUID := "id-1" |}) None)
    as (job & r & Hjob & Hin & Hflag & _).
  - vm_compute. elem_here.
  - discriminate.
  - exists job, r. split; [exact Hjob|]. split; [exact Hin|]. symmetry. exact Hflag.
Defined.

(** X15 at the same resource: the lookup, then the update with the ID. *)
Lemma status_update_records_cluster_id_witness :
  let cd := installing ∅ created in
  let recorded := withStatus cd {| Installed := true; ClusterUUID := "id-1" |} in
  (run (apiserver (created + hour))
     (updateClusterDeploymentStatus cd (Some (installJob cd complete))) recordableStore).2 =
  [EGetConfigMap (metadataKey cd) (Ok (metadataOf "id-1")); EUpdate recorded None].
Proof.
  intros cd recorded.
  pose proof (status_update_records_cluster_id (apiserver (created + hour)) cd
                (Some (installJob cd complete)) recordableStore (metadataOf "id-1")
                recordableStore "id-1") as Hrec.
  cbv zeta in Hrec. rewrite decide_False in Hrec by discriminate.
  rewrite Hrec.
  - vm_compute. reflexivity.
  - vm_compute. reflexivity.
  - reflexivity.
  - vm_compute. reflexivity.
  - exact metadataGives_metadataOf.
Defined.

(** X16 at the same status update: one write. *)
Lemma status_update_writes_only_changes_witness :
  let cd := installing ∅ created in
  let tr := (run (apiserver (created + hour))
               (updateClusterDeploymentStatus cd (Some (installJob cd complete)))
               recordableStore).2 in
  (length (mutations tr) <= 1)%nat.
Proof.
  intros cd.
  set (o := run (apiserver (created + hour))
              (updateClusterDeploymentStatus cd (Some (installJob cd complete)))
              recordableStore).
  destruct (status_update_writes_only_changes (apiserver (created + hour)) cd
              (Some (installJob cd complete)) recordableStore o.1.1 o.1.2 o.2)
    as (_ & _ & Hcount & _).
  - by_cycle.
  - exact Hcount.
Defined.

(** X19 against the server that refuses the lookup of the service
    account. *)
Lemma provisioning_failure_aborts_cycle_witness :
  let o := run (refusing (created + hour)) (Reconcile key) (installingStore ∅ created) in
  exists msg, o.1.1 = (emptyResult, Some (Errorf msg)).
Proof.
  intros o.
  destruct (provisioning_failure_aborts_cycle (refusing (created + hour)) key
              (installingStore ∅ created) o.1.1 o.1.2 o.2 (installing ∅ created))
    as (Hres & _).
  - by_cycle.
  - vm_compute. reflexivity.
  - intros Hacc. vm_compute in Hacc.
    inversion Hacc as [|? ? _ Hrest]. inversion Hrest as [|? ? Hfail _]. discriminate.
  - exact Hres.
Defined.

(** X20 at a resource whose delete-after annotation reads soon. *)
Lemma unparsable_annotation_stops_cycle_witness :
  let o := run (apiserver (created + hour)) (Reconcile key)
             (installingStore (deleteAfter "soon") created) in
  exists err, o.1.1 = (emptyResult, Some err) /\
              Forall (fun e => isProvisioning e = true) (tail o.2).
Proof.
  intros o.
  destruct (unparsable_annotation_stops_cycle (apiserver (created + hour)) key
              (installingStore (deleteAfter "soon") created) o.1.1 o.1.2 o.2
              (installing (deleteAfter "soon") created) "soon"
              (Errorf "time: invalid duration")) as (Hres & Hcalls).
  - by_cycle.
  - vm_compute. reflexivity.
  - reflexivity.
  - vm_compute. reflexivity.
  - vm_compute. reflexivity.
  - vm_compute. repeat constructor.
  - eexists. split; [exact Hres|exact Hcalls].
Defined.

(** X21 at a resource under deletion: the clock is not read. *)
Lemma deleted_resource_bypasses_expiry_and_install_witness :
  nows (run (apiserver (created + 2 * hour)) (Reconcile key) deletingStore).2 = [].
Proof.
  set (o := run (apiserver (created + 2 * hour)) (Reconcile key) deletingStore).
  apply (deleted_resource_bypasses_expiry_and_install (apiserver (created + 2 * hour)) key
           deletingStore o.1.1 o.1.2 o.2 deleting).
  - by_cycle.
  - vm_compute. reflexivity.
  - by eexists.
Defined.

(** X22 at a resource under deletion without uninstall job: the job is
    looked up and created. *)
Lemma uninstall_job_created_iff_absent_witness :
  let tr := (run (apiserver (created + 2 * hour)) (Reconcile key) deletionRequestedStore).2 in
  (exists job e, ECreate (OJob job) e ∈ tr) /\
  (exists r e,
      jobEvents tr =
      [EGetJob (objectKey (jobMeta (uninstallJob deleting []))) r;
       ECreate (OJob (uninstallJob deleting [])) e]).
Proof.
  set (o := run (apiserver (created + 2 * hour)) (Reconcile key) deletionRequestedStore).
  destruct (uninstall_job_created_iff_absent (apiserver (created + 2 * hour)) key
              deletionRequestedStore o.1.1 o.1.2 o.2 deleting) as ([_ Hcreate] & _ & Hlookup).
  - by_cycle.
  - vm_compute. reflexivity.
  - by eexists.
  - vm_compute. reflexivity.
  - assert (Hcreated : exists job e, ECreate (OJob job) e ∈ o.2).
    { apply Hcreate. exists (uninstallJob deleting []), notFound.
      split; [vm_compute; reflexivity|]. split; [vm_compute; elem_here|reflexivity]. }
    intros tr. split; [exact Hcreated|].
    destruct (Hlookup ltac:(vm_compute; repeat constructor)
                (uninstallJob deleting []) ltac:(vm_compute; reflexivity)) as [r Hr].
    destruct r as [existingJob|err].
    + destruct Hcreated as (job & e & Hin).
      assert (Hj : ECreate (OJob job) e ∈ jobEvents o.2).
      { apply elem_of_jobEvents. by split. }
      cbn zeta in Hr. rewrite Hr in Hj. exfalso. event_in Hj.
    + cbn zeta in Hr. destruct (IsNotFound err).
      * destruct Hr as (e & Hr & _). by exists (Err err), e.
      * destruct Hr as (Hr & _). destruct Hcreated as (job & e & Hin).
        assert (Hj : ECreate (OJob job) e ∈ jobEvents o.2).
        { apply elem_of_jobEvents. by split. }
        rewrite Hr in Hj. exfalso. event_in Hj.
Defined.

(** X23 at a resource created one hour ago that is to be deleted after 48
    hours: a requeue after 47 hours and 60 seconds. *)
Lemma requeue_delay_edges_witness :
  let o := run (apiserver (created + hour)) (Reconcile key)
             (installingStore (deleteAfter "48h") created) in
  o.1.1.1 = {| Requeue := true; RequeueAfter := 47 * hour + 60 * Second |}.
Proof.
  intros o.
  destruct (requeue_delay_edges (apiserver (created + hour)) key
              (installingStore (deleteAfter "48h") created) o.1.1 o.1.2 o.2
              (installing (deleteAfter "48h") created) "48h" (48 * hour)
              (created + hour) (created + hour)) as (_ & Hexact & _).
  - by_cycle.
  - vm_compute. reflexivity.
  - vm_compute. reflexivity.
  - vm_compute. reflexivity.
  - vm_compute. reflexivity.
  - vm_compute. reflexivity.
  - vm_compute. reflexivity.
  - rewrite Hexact; [vm_compute; reflexivity|].
    vm_compute. split; [reflexivity|discriminate].
Defined.

(** X24 at the new resource of the examples. *)
Lemma install_starts_in_second_cycle_witness :
  let o1 := run (apiserver (created + hour)) (Reconcile key) freshStore in
  let o2 := run (apiserver (created + 2 * hour)) (Reconcile key) o1.1.2 in
  mutations o2.2 = [ECreate (OJob (installJob (guarded fresh) [])) None].
Proof.
  apply (install_starts_in_second_cycle (created + hour) (created + 2 * hour) key freshStore
           fresh (installJob (guarded fresh) [])).
  - exact wellKeyed_freshStore.
  - vm_compute. reflexivity.
  - reflexivity.
  - vm_compute. reflexivity.
  - vm_compute. reflexivity.
  - reflexivity.
  - vm_compute. reflexivity.
  - vm_compute. reflexivity.
Defined.

(** X25 at a resource whose install job runs. *)
Lemma cycle_at_rest_when_status_matches_job_witness :
  resourceMutations
    (run (apiserver (created + hour)) (Reconcile key) (installingStore ∅ created)).2 = [].
Proof.
  apply (cycle_at_rest_when_status_matches_job (created + hour) key
           (installingStore ∅ created) (installing ∅ created)
           (installJob (installing ∅ created) []) (installJob (installing ∅ created) [])).
  - vm_compute. reflexivity.
  - reflexivity.
  - vm_compute. reflexivity.
  - vm_compute. reflexivity.
  - vm_compute. reflexivity.
  - vm_compute. reflexivity.
  - vm_compute. reflexivity.
  - left. vm_compute. reflexivity.
Defined.

End Coverage.
